(** * The thumbnail grid of hydrus: selection, page cache and fade scheduler

    A shallow embedding of [hydrus/client/gui/pages/ClientGUIResults.py]
    (classes [Selectable], [ThumbnailWaitingToBeDrawn],
    [ThumbnailWaitingToBeDrawnAnimated], [MediaPanel] and
    [MediaPanelThumbnails]) and the properties of its selection state
    machine, canvas page cache, geometry and fade scheduler.

    Conventions of the embedding.
    - A media object is named by an identifier; its [Selectable._selected]
      field lives in the object store [_selected] of the panel state, so that
      the flag of an object and the panel's [_selected_media] set are two
      separate pieces of state, as in the source.
    - Python [int] is [Z]; [//] and [%] are [Z.div] and [Z.modulo] (both floor
      towards the sign of the divisor, as Python does) guarded by the
      [ZeroDivisionError] Python raises.
    - A Python [float] is a binary64 number. A clock reading is carried as a
      rational, which stands for the float nearest to it, as a literal does;
      [-], [+] and [>] on clock readings are those of binary64 ([float_sub],
      [float_add], [float_gt]). The device pixel ratio is only stored and
      compared for equality.
    - A method is a computation in the state-and-exception monad [M]; a raised
      Python exception is the left summand.
    - Calls that only talk to Qt or to external collaborators (signals,
      [widget().update()], [Waterfall], [CancelWaterfall],
      [RegisterAnimationUpdateWindow], scrolling) leave the panel state
      unchanged and are recorded as comments in the methods that make them.
      [painter.drawImage] calls are kept, in the [painted] trace. *)

From stdpp Require Import gmap list sorting.
From Stdlib Require Import ZArith QArith Qround.
From Stdlib Require SpecFloat.

Open Scope Z_scope.

(** ** Python primitives *)

Inductive exn : Type :=
  | DataMissing
  | KeyError
  | IndexError
  | ValueError
  | ZeroDivisionError.

(** [a // b] *)
Definition floordiv (a b : Z) : exn + Z :=
  if decide (b = 0) then inl ZeroDivisionError else inr (a / b).

(** [a % b] *)
Definition pymod (a b : Z) : exn + Z :=
  if decide (b = 0) then inl ZeroDivisionError else inr (a mod b).

(** [SortedList.index]: position of the first occurrence. *)
Fixpoint list_index (x : nat) (l : list nat) : option nat :=
  match l with
  | [] => None
  | y :: l' => if decide (x = y) then Some 0%nat else S <$> list_index x l'
  end.

(** [l[ i : j ]] for [0 <= i]. *)
Definition slice (i j : nat) (l : list nat) : list nat :=
  take (j - i) (drop i l).

(** [range( a, b )] *)
Definition range (a b : Z) : list Z :=
  (λ k : nat, a + Z.of_nat k) <$> seq 0 (Z.to_nat (b - a)).

(** ** Data *)

(** Media objects ([ThumbnailMediaSingleton], [ThumbnailMediaCollection]),
    file hashes and canvas bitmaps ([QImage] buffers) by identity. *)
Abbreviation media := nat.
Abbreviation hash := N.
Abbreviation canvas := nat.

(** What a [drawImage] call paints from. *)
Inductive image : Type :=
  | ThumbnailImage (thumbnail : media)  (* thumbnail.GetQtImage( dpr ), drawn at once *)
  | Bitmap (h : hash)                   (* self.bitmap of the draw object made for h *)
  | AlphaBitmap (h : hash)              (* self.alpha_bmp of the draw object made for h *)
  | CanvasImage (page : canvas).

(** One [painter.drawImage( x, y, image )]; [target] is the canvas page the
    painter was opened on, [None] for the widget itself. *)
Record draw_call : Type := DrawImage {
  target : option canvas;
  draw_x : Z;
  draw_y : Z;
  drawn : image;
}.

(** The fields [ThumbnailWaitingToBeDrawnAnimated] adds to its base class. *)
Record animation : Type := {
  num_frames_drawn : Z;
  num_frames_to_draw : Z;
  animation_started_precise : Q;
}.

(** [ThumbnailWaitingToBeDrawn]; [animated] is [Some] for an instance of the
    subclass [ThumbnailWaitingToBeDrawnAnimated]. The [bitmap] and [alpha_bmp]
    of the object are the images [Bitmap entry_hash] and
    [AlphaBitmap entry_hash]. *)
Record ThumbnailWaitingToBeDrawn : Type := {
  entry_hash : hash;
  thumbnail : media;
  thumbnail_index : nat;
  _draw_complete : bool;
  animated : option animation;
}.

Record MediaPanelThumbnails : Type := {
  (* ClientMedia.MediaList *)
  _sorted_media : list media;
  _selected_media : gset media;
  (* Selectable._selected of every media object *)
  _selected : gmap media bool;
  (* MediaPanel *)
  _focused_media : option media;
  _last_hit_media : option media;
  _next_best_media_if_focuses_removed : option media;
  _shift_select_started_with_this_media : option media;
  _media_added_in_current_shift_select : gset media;
  _had_changes_to_tag_presentation_while_hidden : bool;
  (* MediaPanelThumbnails *)
  _clean_canvas_pages : gmap Z canvas;
  _dirty_canvas_pages : list canvas;
  _num_rows_per_canvas_page : Z;
  _num_rows_per_actual_page : Z;
  _num_columns : Z;
  _last_size : Z * Z;
  _last_device_pixel_ratio : Q;
  _hashes_to_thumbnails_waiting_to_be_drawn : gmap hash ThumbnailWaitingToBeDrawn;
  _hashes_faded : gset hash;
  (* the world around the panel *)
  clock : nat;               (* readings of HydrusTime.GetNowPrecise so far *)
  next_canvas : canvas;      (* bitmap_manager.GetQtImage allocates this one next *)
  painted : list draw_call;  (* drawImage calls, oldest first *)
}.

(** What one event handler reads from Qt, the options store and the external
    collaborators. *)
Record Env : Type := {
  visible_rect_y : Z;          (* QP.ScrollAreaVisibleRect( self ).y() *)
  visible_rect_width : Z;
  visible_rect_height : Z;
  virtual_height : Z;          (* self.widget().size().height() *)
  thumbnail_span : Z * Z;      (* ClientData.AddPaddingToDimensions( ... ) *)
  thumbnail_margin : Z;
  yUnit : Z;                   (* self.verticalScrollBar().singleStep() *)
  device_pixel_ratio : Q;
  focus_preview_on_ctrl_click : bool;
  focus_preview_on_ctrl_click_only_static : bool;
  focus_preview_on_shift_click : bool;
  focus_preview_on_shift_click_only_static : bool;
  fade_thumbnails : bool;
  IsCurrentPage : bool;
  HasThumbnailCached : media → bool;
  GetDisplayHash : media → option hash;   (* GetDisplayMedia(), then GetHash() *)
  DurationIsNone : media → bool;          (* media.GetDurationMS() is None *)
  GetNowPrecise_at : nat → Q;             (* the k-th reading of the clock *)
  shuffle : list Z → list Z;              (* random.shuffle *)
  IterateListRandomlyAndFast : list hash → list hash;
}.

(** ** Field assignment

    [set_f v st] is the state after [self.f = v]. *)

Abbreviation Panel := Build_MediaPanelThumbnails.

Definition set_sorted_media v (st : MediaPanelThumbnails) : MediaPanelThumbnails :=
  Panel
    v (_selected_media st) (_selected st) (_focused_media st) (_last_hit_media st)
    (_next_best_media_if_focuses_removed st) (_shift_select_started_with_this_media st)
    (_media_added_in_current_shift_select st) (_had_changes_to_tag_presentation_while_hidden st)
    (_clean_canvas_pages st) (_dirty_canvas_pages st) (_num_rows_per_canvas_page st)
    (_num_rows_per_actual_page st) (_num_columns st) (_last_size st)
    (_last_device_pixel_ratio st) (_hashes_to_thumbnails_waiting_to_be_drawn st)
    (_hashes_faded st) (clock st) (next_canvas st) (painted st).

Definition set_selected_media v (st : MediaPanelThumbnails) : MediaPanelThumbnails :=
  Panel
    (_sorted_media st) v (_selected st) (_focused_media st) (_last_hit_media st)
    (_next_best_media_if_focuses_removed st) (_shift_select_started_with_this_media st)
    (_media_added_in_current_shift_select st) (_had_changes_to_tag_presentation_while_hidden st)
    (_clean_canvas_pages st) (_dirty_canvas_pages st) (_num_rows_per_canvas_page st)
    (_num_rows_per_actual_page st) (_num_columns st) (_last_size st)
    (_last_device_pixel_ratio st) (_hashes_to_thumbnails_waiting_to_be_drawn st)
    (_hashes_faded st) (clock st) (next_canvas st) (painted st).

Definition set_selected v (st : MediaPanelThumbnails) : MediaPanelThumbnails :=
  Panel
    (_sorted_media st) (_selected_media st) v (_focused_media st) (_last_hit_media st)
    (_next_best_media_if_focuses_removed st) (_shift_select_started_with_this_media st)
    (_media_added_in_current_shift_select st) (_had_changes_to_tag_presentation_while_hidden st)
    (_clean_canvas_pages st) (_dirty_canvas_pages st) (_num_rows_per_canvas_page st)
    (_num_rows_per_actual_page st) (_num_columns st) (_last_size st)
    (_last_device_pixel_ratio st) (_hashes_to_thumbnails_waiting_to_be_drawn st)
    (_hashes_faded st) (clock st) (next_canvas st) (painted st).

Definition set_focused_media v (st : MediaPanelThumbnails) : MediaPanelThumbnails :=
  Panel
    (_sorted_media st) (_selected_media st) (_selected st) v (_last_hit_media st)
    (_next_best_media_if_focuses_removed st) (_shift_select_started_with_this_media st)
    (_media_added_in_current_shift_select st) (_had_changes_to_tag_presentation_while_hidden st)
    (_clean_canvas_pages st) (_dirty_canvas_pages st) (_num_rows_per_canvas_page st)
    (_num_rows_per_actual_page st) (_num_columns st) (_last_size st)
    (_last_device_pixel_ratio st) (_hashes_to_thumbnails_waiting_to_be_drawn st)
    (_hashes_faded st) (clock st) (next_canvas st) (painted st).

Definition set_last_hit_media v (st : MediaPanelThumbnails) : MediaPanelThumbnails :=
  Panel
    (_sorted_media st) (_selected_media st) (_selected st) (_focused_media st) v
    (_next_best_media_if_focuses_removed st) (_shift_select_started_with_this_media st)
    (_media_added_in_current_shift_select st) (_had_changes_to_tag_presentation_while_hidden st)
    (_clean_canvas_pages st) (_dirty_canvas_pages st) (_num_rows_per_canvas_page st)
    (_num_rows_per_actual_page st) (_num_columns st) (_last_size st)
    (_last_device_pixel_ratio st) (_hashes_to_thumbnails_waiting_to_be_drawn st)
    (_hashes_faded st) (clock st) (next_canvas st) (painted st).

Definition set_next_best_media_if_focuses_removed v (st : MediaPanelThumbnails) : MediaPanelThumbnails :=
  Panel
    (_sorted_media st) (_selected_media st) (_selected st) (_focused_media st)
    (_last_hit_media st) v (_shift_select_started_with_this_media st)
    (_media_added_in_current_shift_select st) (_had_changes_to_tag_presentation_while_hidden st)
    (_clean_canvas_pages st) (_dirty_canvas_pages st) (_num_rows_per_canvas_page st)
    (_num_rows_per_actual_page st) (_num_columns st) (_last_size st)
    (_last_device_pixel_ratio st) (_hashes_to_thumbnails_waiting_to_be_drawn st)
    (_hashes_faded st) (clock st) (next_canvas st) (painted st).

Definition set_shift_select_started_with_this_media v (st : MediaPanelThumbnails) : MediaPanelThumbnails :=
  Panel
    (_sorted_media st) (_selected_media st) (_selected st) (_focused_media st)
    (_last_hit_media st) (_next_best_media_if_focuses_removed st) v
    (_media_added_in_current_shift_select st) (_had_changes_to_tag_presentation_while_hidden st)
    (_clean_canvas_pages st) (_dirty_canvas_pages st) (_num_rows_per_canvas_page st)
    (_num_rows_per_actual_page st) (_num_columns st) (_last_size st)
    (_last_device_pixel_ratio st) (_hashes_to_thumbnails_waiting_to_be_drawn st)
    (_hashes_faded st) (clock st) (next_canvas st) (painted st).

Definition set_media_added_in_current_shift_select v (st : MediaPanelThumbnails) : MediaPanelThumbnails :=
  Panel
    (_sorted_media st) (_selected_media st) (_selected st) (_focused_media st)
    (_last_hit_media st) (_next_best_media_if_focuses_removed st)
    (_shift_select_started_with_this_media st) v
    (_had_changes_to_tag_presentation_while_hidden st) (_clean_canvas_pages st)
    (_dirty_canvas_pages st) (_num_rows_per_canvas_page st) (_num_rows_per_actual_page st)
    (_num_columns st) (_last_size st) (_last_device_pixel_ratio st)
    (_hashes_to_thumbnails_waiting_to_be_drawn st) (_hashes_faded st) (clock st)
    (next_canvas st) (painted st).

Definition set_had_changes_to_tag_presentation_while_hidden v (st : MediaPanelThumbnails) : MediaPanelThumbnails :=
  Panel
    (_sorted_media st) (_selected_media st) (_selected st) (_focused_media st)
    (_last_hit_media st) (_next_best_media_if_focuses_removed st)
    (_shift_select_started_with_this_media st) (_media_added_in_current_shift_select st) v
    (_clean_canvas_pages st) (_dirty_canvas_pages st) (_num_rows_per_canvas_page st)
    (_num_rows_per_actual_page st) (_num_columns st) (_last_size st)
    (_last_device_pixel_ratio st) (_hashes_to_thumbnails_waiting_to_be_drawn st)
    (_hashes_faded st) (clock st) (next_canvas st) (painted st).

Definition set_clean_canvas_pages v (st : MediaPanelThumbnails) : MediaPanelThumbnails :=
  Panel
    (_sorted_media st) (_selected_media st) (_selected st) (_focused_media st)
    (_last_hit_media st) (_next_best_media_if_focuses_removed st)
    (_shift_select_started_with_this_media st) (_media_added_in_current_shift_select st)
    (_had_changes_to_tag_presentation_while_hidden st) v (_dirty_canvas_pages st)
    (_num_rows_per_canvas_page st) (_num_rows_per_actual_page st) (_num_columns st)
    (_last_size st) (_last_device_pixel_ratio st) (_hashes_to_thumbnails_waiting_to_be_drawn st)
    (_hashes_faded st) (clock st) (next_canvas st) (painted st).

Definition set_dirty_canvas_pages v (st : MediaPanelThumbnails) : MediaPanelThumbnails :=
  Panel
    (_sorted_media st) (_selected_media st) (_selected st) (_focused_media st)
    (_last_hit_media st) (_next_best_media_if_focuses_removed st)
    (_shift_select_started_with_this_media st) (_media_added_in_current_shift_select st)
    (_had_changes_to_tag_presentation_while_hidden st) (_clean_canvas_pages st) v
    (_num_rows_per_canvas_page st) (_num_rows_per_actual_page st) (_num_columns st)
    (_last_size st) (_last_device_pixel_ratio st) (_hashes_to_thumbnails_waiting_to_be_drawn st)
    (_hashes_faded st) (clock st) (next_canvas st) (painted st).

Definition set_num_rows_per_canvas_page v (st : MediaPanelThumbnails) : MediaPanelThumbnails :=
  Panel
    (_sorted_media st) (_selected_media st) (_selected st) (_focused_media st)
    (_last_hit_media st) (_next_best_media_if_focuses_removed st)
    (_shift_select_started_with_this_media st) (_media_added_in_current_shift_select st)
    (_had_changes_to_tag_presentation_while_hidden st) (_clean_canvas_pages st)
    (_dirty_canvas_pages st) v (_num_rows_per_actual_page st) (_num_columns st) (_last_size st)
    (_last_device_pixel_ratio st) (_hashes_to_thumbnails_waiting_to_be_drawn st)
    (_hashes_faded st) (clock st) (next_canvas st) (painted st).

Definition set_num_rows_per_actual_page v (st : MediaPanelThumbnails) : MediaPanelThumbnails :=
  Panel
    (_sorted_media st) (_selected_media st) (_selected st) (_focused_media st)
    (_last_hit_media st) (_next_best_media_if_focuses_removed st)
    (_shift_select_started_with_this_media st) (_media_added_in_current_shift_select st)
    (_had_changes_to_tag_presentation_while_hidden st) (_clean_canvas_pages st)
    (_dirty_canvas_pages st) (_num_rows_per_canvas_page st) v (_num_columns st) (_last_size st)
    (_last_device_pixel_ratio st) (_hashes_to_thumbnails_waiting_to_be_drawn st)
    (_hashes_faded st) (clock st) (next_canvas st) (painted st).

Definition set_num_columns v (st : MediaPanelThumbnails) : MediaPanelThumbnails :=
  Panel
    (_sorted_media st) (_selected_media st) (_selected st) (_focused_media st)
    (_last_hit_media st) (_next_best_media_if_focuses_removed st)
    (_shift_select_started_with_this_media st) (_media_added_in_current_shift_select st)
    (_had_changes_to_tag_presentation_while_hidden st) (_clean_canvas_pages st)
    (_dirty_canvas_pages st) (_num_rows_per_canvas_page st) (_num_rows_per_actual_page st) v
    (_last_size st) (_last_device_pixel_ratio st) (_hashes_to_thumbnails_waiting_to_be_drawn st)
    (_hashes_faded st) (clock st) (next_canvas st) (painted st).

Definition set_last_size v (st : MediaPanelThumbnails) : MediaPanelThumbnails :=
  Panel
    (_sorted_media st) (_selected_media st) (_selected st) (_focused_media st)
    (_last_hit_media st) (_next_best_media_if_focuses_removed st)
    (_shift_select_started_with_this_media st) (_media_added_in_current_shift_select st)
    (_had_changes_to_tag_presentation_while_hidden st) (_clean_canvas_pages st)
    (_dirty_canvas_pages st) (_num_rows_per_canvas_page st) (_num_rows_per_actual_page st)
    (_num_columns st) v (_last_device_pixel_ratio st)
    (_hashes_to_thumbnails_waiting_to_be_drawn st) (_hashes_faded st) (clock st)
    (next_canvas st) (painted st).

Definition set_last_device_pixel_ratio v (st : MediaPanelThumbnails) : MediaPanelThumbnails :=
  Panel
    (_sorted_media st) (_selected_media st) (_selected st) (_focused_media st)
    (_last_hit_media st) (_next_best_media_if_focuses_removed st)
    (_shift_select_started_with_this_media st) (_media_added_in_current_shift_select st)
    (_had_changes_to_tag_presentation_while_hidden st) (_clean_canvas_pages st)
    (_dirty_canvas_pages st) (_num_rows_per_canvas_page st) (_num_rows_per_actual_page st)
    (_num_columns st) (_last_size st) v (_hashes_to_thumbnails_waiting_to_be_drawn st)
    (_hashes_faded st) (clock st) (next_canvas st) (painted st).

Definition set_hashes_to_thumbnails_waiting_to_be_drawn v (st : MediaPanelThumbnails) : MediaPanelThumbnails :=
  Panel
    (_sorted_media st) (_selected_media st) (_selected st) (_focused_media st)
    (_last_hit_media st) (_next_best_media_if_focuses_removed st)
    (_shift_select_started_with_this_media st) (_media_added_in_current_shift_select st)
    (_had_changes_to_tag_presentation_while_hidden st) (_clean_canvas_pages st)
    (_dirty_canvas_pages st) (_num_rows_per_canvas_page st) (_num_rows_per_actual_page st)
    (_num_columns st) (_last_size st) (_last_device_pixel_ratio st) v (_hashes_faded st)
    (clock st) (next_canvas st) (painted st).

Definition set_hashes_faded v (st : MediaPanelThumbnails) : MediaPanelThumbnails :=
  Panel
    (_sorted_media st) (_selected_media st) (_selected st) (_focused_media st)
    (_last_hit_media st) (_next_best_media_if_focuses_removed st)
    (_shift_select_started_with_this_media st) (_media_added_in_current_shift_select st)
    (_had_changes_to_tag_presentation_while_hidden st) (_clean_canvas_pages st)
    (_dirty_canvas_pages st) (_num_rows_per_canvas_page st) (_num_rows_per_actual_page st)
    (_num_columns st) (_last_size st) (_last_device_pixel_ratio st)
    (_hashes_to_thumbnails_waiting_to_be_drawn st) v (clock st) (next_canvas st) (painted st).

Definition set_clock v (st : MediaPanelThumbnails) : MediaPanelThumbnails :=
  Panel
    (_sorted_media st) (_selected_media st) (_selected st) (_focused_media st)
    (_last_hit_media st) (_next_best_media_if_focuses_removed st)
    (_shift_select_started_with_this_media st) (_media_added_in_current_shift_select st)
    (_had_changes_to_tag_presentation_while_hidden st) (_clean_canvas_pages st)
    (_dirty_canvas_pages st) (_num_rows_per_canvas_page st) (_num_rows_per_actual_page st)
    (_num_columns st) (_last_size st) (_last_device_pixel_ratio st)
    (_hashes_to_thumbnails_waiting_to_be_drawn st) (_hashes_faded st) v (next_canvas st)
    (painted st).

Definition set_next_canvas v (st : MediaPanelThumbnails) : MediaPanelThumbnails :=
  Panel
    (_sorted_media st) (_selected_media st) (_selected st) (_focused_media st)
    (_last_hit_media st) (_next_best_media_if_focuses_removed st)
    (_shift_select_started_with_this_media st) (_media_added_in_current_shift_select st)
    (_had_changes_to_tag_presentation_while_hidden st) (_clean_canvas_pages st)
    (_dirty_canvas_pages st) (_num_rows_per_canvas_page st) (_num_rows_per_actual_page st)
    (_num_columns st) (_last_size st) (_last_device_pixel_ratio st)
    (_hashes_to_thumbnails_waiting_to_be_drawn st) (_hashes_faded st) (clock st) v (painted st).

Definition set_painted v (st : MediaPanelThumbnails) : MediaPanelThumbnails :=
  Panel
    (_sorted_media st) (_selected_media st) (_selected st) (_focused_media st)
    (_last_hit_media st) (_next_best_media_if_focuses_removed st)
    (_shift_select_started_with_this_media st) (_media_added_in_current_shift_select st)
    (_had_changes_to_tag_presentation_while_hidden st) (_clean_canvas_pages st)
    (_dirty_canvas_pages st) (_num_rows_per_canvas_page st) (_num_rows_per_actual_page st)
    (_num_columns st) (_last_size st) (_last_device_pixel_ratio st)
    (_hashes_to_thumbnails_waiting_to_be_drawn st) (_hashes_faded st) (clock st)
    (next_canvas st) v.
(** ** The monad of methods

    A method call runs on the panel state and either raises or returns a value
    and the state it leaves. *)

Definition M (A : Type) : Type :=
  MediaPanelThumbnails → exn + A * MediaPanelThumbnails.

Definition ret {A} (a : A) : M A := λ st, inr (a, st).

Definition bind {A B} (c : M A) (k : A → M B) : M B :=
  λ st, match c st with
        | inl e => inl e
        | inr (a, st') => k a st'
        end.

Definition raise {A} (e : exn) : M A := λ _, inl e.

Definition get : M MediaPanelThumbnails := λ st, inr (st, st).

Definition modify (f : MediaPanelThumbnails → MediaPanelThumbnails) : M unit :=
  λ st, inr (tt, f st).

(** A pure partial operation: [//], [%], a subscript. *)
Definition lift {A} (r : exn + A) : M A :=
  λ st, match r with inl e => inl e | inr a => inr (a, st) end.

(** A subscript or an [index] that raises [e] when it has no result. *)
Definition or_raise {A} (e : exn) (o : option A) : M A :=
  match o with Some a => ret a | None => raise e end.

Notation "x ← c ; k" := (bind c (λ x, k))
  (at level 20, c at level 100, k at level 200, only parsing).
Notation "' p ← c ; k" := (bind c (λ p, k))
  (at level 20, p pattern, c at level 100, k at level 200, only parsing).
Notation "c ;; k" := (bind c (λ _, k))
  (at level 100, k at level 200, right associativity).

(** [for x in l: body] *)
Fixpoint for_each {A} (l : list A) (body : A → M unit) : M unit :=
  match l with
  | [] => ret tt
  | x :: l' => body x ;; for_each l' body
  end.

(** [for x in l: body], where [body] answers [true] to [break]. *)
Fixpoint for_each_break {A} (l : list A) (body : A → M bool) : M unit :=
  match l with
  | [] => ret tt
  | x :: l' => stop ← body x; if stop : bool then ret tt else for_each_break l' body
  end.

(** [[ x for x in l if test( x ) ]] *)
Fixpoint filter_M {A} (test : A → M bool) (l : list A) : M (list A) :=
  match l with
  | [] => ret []
  | x :: l' =>
      keep ← test x;
      rest ← filter_M test l';
      ret (if keep : bool then x :: rest else rest)
  end.

(** [True in ( test( x ) for x in l )]: the generator is consumed up to the
    first [True]. *)
Fixpoint any_M {A} (test : A → M bool) (l : list A) : M bool :=
  match l with
  | [] => ret false
  | x :: l' => b ← test x; if b : bool then ret true else any_M test l'
  end.

(** [l[ i ]] on a Python list: a negative subscript counts from the end. *)
Definition getitem (l : list media) (i : Z) : option media :=
  if decide (0 ≤ i) then l !! Z.to_nat i
  else if decide (0 ≤ Z.of_nat (length l) + i) then l !! Z.to_nat (Z.of_nat (length l) + i)
  else None.

(** ** [Selectable] *)

Definition IsSelected (m : media) : M bool :=
  st ← get; ret (default false (_selected st !! m)).

Definition Select (m : media) : M unit :=
  modify (λ st, set_selected (<[m := true]> (_selected st)) st).

Definition Deselect (m : media) : M unit :=
  modify (λ st, set_selected (<[m := false]> (_selected st)) st).

(** ** Python floats *)

(** The binary64 number nearest to a rational, ties to even. The quotient is
    taken to 64 bits or more, with the place of the rest below the last bit,
    and rounded to the 53 bits of the format. *)
Definition binary64_of_Q (q : Q) : SpecFloat.spec_float :=
  let d := Z.pos (Qden q) in
  let k := Z.log2 d + 64 in
  let a := Z.abs (Qnum q) * 2 ^ k in
  let l := if decide (a mod d = 0) then SpecFloat.loc_Exact
           else SpecFloat.loc_Inexact (2 * (a mod d) ?= d) in
  SpecFloat.binary_round_aux 53 1024 (bool_decide (Qnum q < 0)) (a / d) (- k) l.

(** The rational a finite binary64 number denotes. Infinities and NaN do not
    arise from the clock readings and constants of the source. *)
Definition Q_of_binary64 (f : SpecFloat.spec_float) : Q :=
  match f with
  | SpecFloat.S754_finite s m e =>
      let n := if s then Z.neg m else Z.pos m in
      if decide (0 ≤ e) then (n * 2 ^ e) # 1 else n # Z.to_pos (2 ^ (- e))
  | _ => 0
  end.

Definition round_binary64 (q : Q) : Q := Q_of_binary64 (binary64_of_Q q).

(** [a - b], [a + b] and [a > b] on floats. *)
Definition float_sub (a b : Q) : Q :=
  round_binary64 (round_binary64 a - round_binary64 b).

Definition float_add (a b : Q) : Q :=
  round_binary64 (round_binary64 a + round_binary64 b).

Definition float_gt (a b : Q) : bool :=
  negb (Qle_bool (round_binary64 a) (round_binary64 b)).

#[global] Arguments round_binary64 : simpl never.
#[global] Arguments float_sub : simpl never.
#[global] Arguments float_add : simpl never.
#[global] Arguments float_gt : simpl never.

(** ** The clock and the painter *)

(** [HydrusTime.GetNowPrecise()] *)
Definition GetNowPrecise (env : Env) : M Q :=
  st ← get;
  modify (set_clock (S (clock st))) ;;
  ret (GetNowPrecise_at env (clock st)).

(** [HydrusTime.TimeHasPassedPrecise( t )]: [GetNowPrecise() > t] *)
Definition TimeHasPassedPrecise (env : Env) (t : Q) : M bool :=
  now ← GetNowPrecise env; ret (float_gt now t).

(** [painter.drawImage( x, y, img )] for a painter opened on [on]. *)
Definition drawImage (on : option canvas) (x y : Z) (img : image) : M unit :=
  modify (λ st, set_painted (painted st ++ [DrawImage on x y img]) st).

(** ** [ThumbnailWaitingToBeDrawn], [ThumbnailWaitingToBeDrawnAnimated] *)

(** [1.0 / 60] as the binary64 number Python computes:
    [round_binary64 (1 # 60)]. *)
Definition FRAME_DURATION_60FPS : Q := 4803839602528529 # 288230376151711744.

Definition FADE_DURATION_S : Q := 1 # 2.

(** [int( a // b )] on floats, for the non-zero constant divisor the source
    uses: Python's [//] on floats takes the remainder exactly, so that the
    quotient is the floor of the exact quotient of the two floats. *)
Definition float_floordiv (a b : Q) : Z := Qfloor (a / b).

(** [ThumbnailWaitingToBeDrawn.__init__] *)
Definition new_ThumbnailWaitingToBeDrawn
    (h : hash) (t : media) (index : nat) : ThumbnailWaitingToBeDrawn :=
  {| entry_hash := h; thumbnail := t; thumbnail_index := index;
     _draw_complete := false; animated := None |}.

(** [ThumbnailWaitingToBeDrawnAnimated.__init__] *)
Definition new_ThumbnailWaitingToBeDrawnAnimated (env : Env)
    (h : hash) (t : media) (index : nat) : M ThumbnailWaitingToBeDrawn :=
  started ← GetNowPrecise env;
  ret {| entry_hash := h; thumbnail := t; thumbnail_index := index;
         _draw_complete := false;
         animated := Some
           {| num_frames_drawn := 0;
              num_frames_to_draw :=
                Z.max (float_floordiv FADE_DURATION_S FRAME_DURATION_60FPS) 1;
              animation_started_precise := started |} |}.

Definition DrawComplete (o : ThumbnailWaitingToBeDrawn) : bool := _draw_complete o.

(** [ThumbnailWaitingToBeDrawnAnimated._GetNumFramesOutstanding] *)
Definition _GetNumFramesOutstanding (env : Env) (a : animation) : M Z :=
  now_precise ← GetNowPrecise env;
  let num_frames_to_now :=
    float_floordiv (float_sub now_precise (animation_started_precise a))
                   FRAME_DURATION_60FPS in
  ret (Z.min num_frames_to_now (num_frames_to_draw a - num_frames_drawn a)).

(** [DrawDue], of the class of the object. *)
Definition DrawDue (env : Env) (o : ThumbnailWaitingToBeDrawn) : M bool :=
  match animated o with
  | None => ret true
  | Some a => n ← _GetNumFramesOutstanding env a; ret (bool_decide (0 < n))
  end.

(** [DrawToPainter], of the class of the object. The method mutates the
    object; the object it leaves is returned. *)
Definition DrawToPainter (env : Env) (o : ThumbnailWaitingToBeDrawn)
    (x y : Z) (painter : option canvas) : M ThumbnailWaitingToBeDrawn :=
  match animated o with
  | None =>
      drawImage painter x y (Bitmap (entry_hash o)) ;;
      ret {| entry_hash := entry_hash o; thumbnail := thumbnail o;
             thumbnail_index := thumbnail_index o;
             _draw_complete := true; animated := None |}
  | Some a =>
      n ← _GetNumFramesOutstanding env a;
      if decide (num_frames_to_draw a ≤ num_frames_drawn a + n) then
        drawImage painter x y (Bitmap (entry_hash o)) ;;
        ret {| entry_hash := entry_hash o; thumbnail := thumbnail o;
               thumbnail_index := thumbnail_index o;
               _draw_complete := true;
               animated := Some
                 {| num_frames_drawn := num_frames_to_draw a;
                    num_frames_to_draw := num_frames_to_draw a;
                    animation_started_precise := animation_started_precise a |} |}
      else
        for_each (seq 0 (Z.to_nat n))
          (λ _, drawImage painter x y (AlphaBitmap (entry_hash o))) ;;
        ret {| entry_hash := entry_hash o; thumbnail := thumbnail o;
               thumbnail_index := thumbnail_index o;
               _draw_complete := _draw_complete o;
               animated := Some
                 {| num_frames_drawn := num_frames_drawn a + n;
                    num_frames_to_draw := num_frames_to_draw a;
                    animation_started_precise := animation_started_precise a |} |}
  end.

(** ** [MediaPanelThumbnails]: the page cache *)

Definition _GetThumbnailSpanDimensions (env : Env) : Z * Z := thumbnail_span env.

Definition _GetPageIndexFromThumbnailIndex (thumbnail_index : Z) : M Z :=
  st ← get;
  let thumbnails_per_page := _num_columns st * _num_rows_per_canvas_page st in
  lift (floordiv thumbnail_index thumbnails_per_page).

(** [[ f( x ) for x in l ]] where [f] may raise. *)
Fixpoint map_M {A B} (f : A → M B) (l : list A) : M (list B) :=
  match l with
  | [] => ret []
  | x :: l' => y ← f x; ys ← map_M f l'; ret (y :: ys)
  end.

Definition _GetThumbnailsFromPageIndex (page_index : Z) : M (list (Z * media)) :=
  st ← get;
  let num_thumbnails_per_page := _num_columns st * _num_rows_per_canvas_page st in
  let start_index := num_thumbnails_per_page * page_index in
  let len := Z.of_nat (length (_sorted_media st)) in
  if decide (start_index ≤ len) then
    let end_index := Z.min len (start_index + num_thumbnails_per_page) in
    map_M (λ index, m ← or_raise IndexError (getitem (_sorted_media st) index);
                    ret (index, m))
          (range start_index end_index)
  else ret [].

Definition _CreateNewDirtyPage : M unit :=
  (* canvas_page = bitmap_manager.GetQtImage( canvas_width, canvas_height, 32 ) *)
  st ← get;
  let canvas_page := next_canvas st in
  modify (set_next_canvas (S canvas_page)) ;;
  modify (λ st, set_dirty_canvas_pages (_dirty_canvas_pages st ++ [canvas_page]) st).

Definition _DeleteAllDirtyPages : M unit :=
  modify (set_dirty_canvas_pages []).

Definition _DirtyPage (clean_index : Z) : M unit :=
  st ← get;
  canvas_page ← or_raise KeyError (_clean_canvas_pages st !! clean_index);
  modify (λ st, set_clean_canvas_pages (delete clean_index (_clean_canvas_pages st)) st) ;;
  thumbnails ← _GetThumbnailsFromPageIndex clean_index;
  (* if len( thumbnails ) > 0: CancelWaterfall( self._page_key, thumbnails ) *)
  modify (λ st, set_dirty_canvas_pages (_dirty_canvas_pages st ++ [canvas_page]) st).

(** The keys are listed in the order of the map, not in Python's insertion
    order, which the map does not record: the buffers may reach the dirty
    list in another order than in the source. The theorems about the dirty
    list are stated up to the order of its buffers, and so hold of either
    order; a lemma that fixes the order says so. *)
Definition _DirtyAllPages : M unit :=
  st ← get;
  let clean_indices := (map_to_list (_clean_canvas_pages st)).*1 in
  for_each clean_indices _DirtyPage.

Definition _StopFading (h : hash) : M unit :=
  st ← get;
  if decide (is_Some (_hashes_to_thumbnails_waiting_to_be_drawn st !! h)) then
    modify (set_hashes_to_thumbnails_waiting_to_be_drawn
              (delete h (_hashes_to_thumbnails_waiting_to_be_drawn st)))
  else ret tt.

(** Where thumbnail number [thumbnail_index] goes on the canvas of page
    [page_index]. *)
Definition position_on_page (env : Env) (thumbnail_index page_index : Z) : M (Z * Z) :=
  st ← get;
  let '(thumbnail_span_width, thumbnail_span_height) := _GetThumbnailSpanDimensions env in
  thumbnail_col ← lift (pymod thumbnail_index (_num_columns st));
  thumbnail_row ← lift (floordiv thumbnail_index (_num_columns st));
  let x := thumbnail_col * thumbnail_span_width + thumbnail_margin env in
  let y := (thumbnail_row - page_index * _num_rows_per_canvas_page st)
           * thumbnail_span_height + thumbnail_margin env in
  ret (x, y).

(** The body of the loop of [_DrawCanvasPage]. *)
Definition draw_page_thumbnail (env : Env) (page_index : Z) (canvas_page : canvas)
    (page_thumbnail : Z * media) : M unit :=
  let '(thumbnail_index, thumbnail) := page_thumbnail in
  match GetDisplayHash env thumbnail with
  | None => ret tt
  | Some h =>
      st ← get;
      if bool_decide (h ∈ _hashes_faded st) && HasThumbnailCached env thumbnail then
        _StopFading h ;;
        '(x, y) ← position_on_page env thumbnail_index page_index;
        drawImage (Some canvas_page) x y (ThumbnailImage thumbnail)
      else ret tt (* thumbnails_to_render_later.append( thumbnail ) *)
  end.

Definition _DrawCanvasPage (env : Env) (page_index : Z) (canvas_page : canvas) : M unit :=
  (* the painter erases the page to the background colour *)
  page_thumbnails ← _GetThumbnailsFromPageIndex page_index;
  for_each page_thumbnails (draw_page_thumbnail env page_index canvas_page)
  (* if len( thumbnails_to_render_later ) > 0: Waterfall( ... ) *).

(** The body of the loop of [_FadeThumbnails]. *)
Definition fade_thumbnail (env : Env) (thumbnail : media) : M unit :=
  match GetDisplayHash env thumbnail with
  | None => ret tt
  | Some h =>
      st ← get;
      match list_index thumbnail (_sorted_media st) with
      | None => ret tt (* except HydrusExceptions.DataMissing: continue *)
      | Some thumbnail_index =>
          page_index ← _GetPageIndexFromThumbnailIndex (Z.of_nat thumbnail_index);
          if decide (is_Some (_clean_canvas_pages st !! page_index)) then
            modify (λ st, set_hashes_faded ({[h]} ∪ _hashes_faded st) st) ;;
            _StopFading h ;;
            thumbnail_draw_object ←
              (if fade_thumbnails env
               then new_ThumbnailWaitingToBeDrawnAnimated env h thumbnail thumbnail_index
               else ret (new_ThumbnailWaitingToBeDrawn h thumbnail thumbnail_index));
            modify (λ st, set_hashes_to_thumbnails_waiting_to_be_drawn
                            (<[h := thumbnail_draw_object]>
                               (_hashes_to_thumbnails_waiting_to_be_drawn st)) st)
          else ret tt
      end
  end.

Definition _FadeThumbnails (env : Env) (thumbnails : list media) : M unit :=
  if decide (length thumbnails = 0%nat) then ret tt
  else if negb (IsCurrentPage env) then _DirtyAllPages
  else
    now_precise ← GetNowPrecise env;
    for_each thumbnails (fade_thumbnail env)
    (* CG.client_controller.gui.RegisterAnimationUpdateWindow( self ) *).

Definition _GetMediaCoordinates (env : Env) (m : media) : M (Z * Z) :=
  st ← get;
  match list_index m (_sorted_media st) with
  | None => ret (-1, -1)
  | Some index =>
      row ← lift (floordiv (Z.of_nat index) (_num_columns st));
      column ← lift (pymod (Z.of_nat index) (_num_columns st));
      let '(thumbnail_span_width, thumbnail_span_height) := _GetThumbnailSpanDimensions env in
      ret (column * thumbnail_span_width + thumbnail_margin env,
           row * thumbnail_span_height + thumbnail_margin env)
  end.

Definition _MediaIsInCleanPage (thumbnail : media) : M bool :=
  st ← get;
  match list_index thumbnail (_sorted_media st) with
  | None => ret false
  | Some index =>
      page_index ← _GetPageIndexFromThumbnailIndex (Z.of_nat index);
      ret (bool_decide (is_Some (_clean_canvas_pages st !! page_index)))
  end.

Definition _MediaIsVisible (env : Env) (m : option media) : M bool :=
  match m with
  | Some m =>
      '(x, y) ← _GetMediaCoordinates env m;
      let '(thumbnail_span_width, thumbnail_span_height) := _GetThumbnailSpanDimensions env in
      let bottom_edge_below_top_of_view :=
        bool_decide (visible_rect_y env < y + thumbnail_span_height) in
      let top_edge_above_bottom_of_view :=
        bool_decide (y < visible_rect_y env + visible_rect_height env) in
      ret (bottom_edge_below_top_of_view && top_edge_above_bottom_of_view)
  | None => ret true
  end.

Definition _RedrawMedia (env : Env) (thumbnails : list media) : M unit :=
  visible_thumbnails ← filter_M _MediaIsInCleanPage thumbnails;
  let thumbnails_to_render_now := filter (λ t, HasThumbnailCached env t = true) visible_thumbnails in
  (if decide (0 < length thumbnails_to_render_now)%nat
   then _FadeThumbnails env thumbnails_to_render_now else ret tt)
  (* if len( thumbnails_to_render_later ) > 0: Waterfall( ... ) *).

(** Only the arithmetic of the method is kept: what it resizes is the Qt
    widget. *)
Definition _RecalculateVirtualSize (env : Env) : M unit :=
  let my_width := visible_rect_width env in
  let my_height := visible_rect_height env in
  if decide (0 < my_width ∧ 0 < my_height) then
    st ← get;
    let '(thumbnail_span_width, thumbnail_span_height) := _GetThumbnailSpanDimensions env in
    let num_media := Z.of_nat (length (_sorted_media st)) in
    q ← lift (floordiv num_media (_num_columns st));
    r ← lift (pymod num_media (_num_columns st));
    let num_rows := Z.max 1 q + (if decide (0 < r) then 1 else 0) in
    let virtual_height := num_rows * thumbnail_span_height in
    excess ← lift (pymod virtual_height (yUnit env));
    ret tt
  else ret tt.

Definition _ScrollToMedia (env : Env) (m : option media) : M unit :=
  match m with
  | Some m => '(x, y) ← _GetMediaCoordinates env m; ret tt (* self.ensureVisible( ... ) *)
  | None => ret tt
  end.

Definition _ReinitialisePageCacheIfNeeded (env : Env) : M unit :=
  st ← get;
  let old_num_rows := _num_rows_per_canvas_page st in
  let old_num_columns := _num_columns st in
  let '(old_width, old_height) := _last_size st in
  let my_width := visible_rect_width env in
  let my_height := visible_rect_height env in
  let '(thumbnail_span_width, thumbnail_span_height) := _GetThumbnailSpanDimensions env in
  num_rows ← lift (floordiv my_height thumbnail_span_height);
  modify (set_num_rows_per_actual_page (Z.max 1 num_rows)) ;;
  half ← lift (floordiv num_rows 2);
  modify (set_num_rows_per_canvas_page (Z.max 1 half)) ;;
  columns ← lift (floordiv my_width thumbnail_span_width);
  modify (set_num_columns (Z.max 1 columns)) ;;
  st ← get;
  let dimensions_changed :=
    negb (bool_decide (old_width = my_width)) || negb (bool_decide (old_height = my_height)) in
  let thumb_layout_changed :=
    negb (bool_decide (old_num_columns = _num_columns st))
    || negb (bool_decide (old_num_rows = _num_rows_per_canvas_page st)) in
  if dimensions_changed || thumb_layout_changed then
    let width_got_bigger := bool_decide (old_width < my_width) in
    (if thumb_layout_changed || width_got_bigger
     then _DirtyAllPages ;; _DeleteAllDirtyPages
     else ret tt)
    (* self.widget().update() *)
  else ret tt.

Definition EventResize (env : Env) : M unit :=
  _ReinitialisePageCacheIfNeeded env ;;
  _RecalculateVirtualSize env ;;
  modify (set_last_size (visible_rect_width env, visible_rect_height env)).

(** [x], [y]: the position of the mouse event. *)
Definition _GetThumbnailUnderMouse (env : Env) (x y : Z) : M (option media) :=
  st ← get;
  let '(t_span_x, t_span_y) := _GetThumbnailSpanDimensions env in
  x_mod ← lift (pymod x t_span_x);
  y_mod ← lift (pymod y t_span_y);
  let thumbnail_margin := thumbnail_margin env in
  if bool_decide (x_mod ≤ thumbnail_margin) || bool_decide (y_mod ≤ thumbnail_margin)
     || bool_decide (t_span_x - thumbnail_margin < x_mod)
     || bool_decide (t_span_y - thumbnail_margin < y_mod)
  then ret None
  else
    column_index ← lift (floordiv x t_span_x);
    row_index ← lift (floordiv y t_span_y);
    if decide (_num_columns st ≤ column_index) then ret None
    else
      let thumbnail_index := _num_columns st * row_index + column_index in
      if decide (thumbnail_index < 0) then ret None
      else if decide (Z.of_nat (length (_sorted_media st)) ≤ thumbnail_index) then ret None
      else m ← or_raise IndexError (getitem (_sorted_media st) thumbnail_index);
           ret (Some m).

Definition _GetYStart (env : Env) : Z :=
  let max_y := virtual_height env - visible_rect_height env in
  Z.min (Z.max 0 (visible_rect_y env)) max_y.

Definition _CalculateVisiblePageIndices (env : Env) : M (list Z) :=
  st ← get;
  let earliest_y := _GetYStart env in
  let last_y := earliest_y + visible_rect_height env in
  let '(thumbnail_span_width, thumbnail_span_height) := _GetThumbnailSpanDimensions env in
  let page_height := _num_rows_per_canvas_page st * thumbnail_span_height in
  first_visible_page_index ← lift (floordiv earliest_y page_height);
  last_visible_page_index ← lift (floordiv last_y page_height);
  ret (range first_visible_page_index (last_visible_page_index + 1)).

(** [min( l )] and [max( l )] *)
Definition py_min (l : list Z) : option Z :=
  match l with [] => None | x :: l' => Some (foldr Z.min x l') end.

Definition py_max (l : list Z) : option Z :=
  match l with [] => None | x :: l' => Some (foldr Z.max x l') end.

(** The pages the paint pass wants drawn: the visible ones and one on
    either side. *)
Definition page_indices_to_draw (page_indices_to_display : list Z) : exn + list Z :=
  match py_min page_indices_to_display, py_max page_indices_to_display with
  | Some earliest_page_index_to_display, Some last_page_index_to_display =>
      let l := page_indices_to_display in
      let l := if decide (0 < earliest_page_index_to_display)
               then l ++ [earliest_page_index_to_display - 1] else l in
      let l := l ++ [last_page_index_to_display + 1] in
      inr (merge_sort Z.le l)
  | _, _ => inl ValueError
  end.

(** The loop of [_InnerWidget.paintEvent] over [page_indices_to_draw];
    [potential_clean_indices_to_steal] is the local list the loop pops. *)
Fixpoint paint_pages (env : Env) (to_draw page_indices_to_display : list Z)
    (potential_clean_indices_to_steal : list Z) : M unit :=
  match to_draw with
  | [] => ret tt
  | page_index :: to_draw' =>
      st ← get;
      potential ←
        (if decide (is_Some (_clean_canvas_pages st !! page_index))
         then ret potential_clean_indices_to_steal
         else
           potential ←
             (if decide (length (_dirty_canvas_pages st) = 0%nat) then
                match last potential_clean_indices_to_steal with
                | Some index_to_steal =>
                    _DirtyPage index_to_steal ;;
                    ret (removelast potential_clean_indices_to_steal)
                | None =>
                    _CreateNewDirtyPage ;;
                    ret potential_clean_indices_to_steal
                end
              else ret potential_clean_indices_to_steal);
           st ← get;
           canvas_page ← or_raise IndexError (last (_dirty_canvas_pages st));
           modify (set_dirty_canvas_pages (removelast (_dirty_canvas_pages st))) ;;
           _DrawCanvasPage env page_index canvas_page ;;
           modify (λ st, set_clean_canvas_pages
                           (<[page_index := canvas_page]> (_clean_canvas_pages st)) st) ;;
           ret potential);
      (if decide (page_index ∈ page_indices_to_display) then
         st ← get;
         canvas_page ← or_raise KeyError (_clean_canvas_pages st !! page_index);
         let '(thumbnail_span_width, thumbnail_span_height) := _GetThumbnailSpanDimensions env in
         let page_height := _num_rows_per_canvas_page st * thumbnail_span_height in
         drawImage None 0 (page_height * page_index) (CanvasImage canvas_page)
       else ret tt) ;;
      paint_pages env to_draw' page_indices_to_display potential
  end.

(** [_InnerWidget.paintEvent] *)
Definition paintEvent (env : Env) : M unit :=
  st ← get;
  (if negb (Qeq_bool (device_pixel_ratio env) (_last_device_pixel_ratio st)) then
     modify (set_last_device_pixel_ratio (device_pixel_ratio env)) ;;
     _DirtyAllPages ;;
     _DeleteAllDirtyPages
   else ret tt) ;;
  page_indices_to_display ← _CalculateVisiblePageIndices env;
  to_draw ← lift (page_indices_to_draw page_indices_to_display);
  st ← get;
  let potential_clean_indices_to_steal :=
    shuffle env (filter (λ page_index, page_index ∉ to_draw)
                        (map_to_list (_clean_canvas_pages st)).*1) in
  (* the painter erases the widget and draws the background pixmap *)
  paint_pages env to_draw page_indices_to_display potential_clean_indices_to_steal.

Definition MaintainPageCache (env : Env) : M unit :=
  (if negb (IsCurrentPage env) then _DirtyAllPages else ret tt) ;;
  _DeleteAllDirtyPages.

Definition WaterfallThumbnails (env : Env) (thumbnails : list media) : M unit :=
  (* if self._page_key == page_key: *)
  _FadeThumbnails env thumbnails.

(** ** [MediaPanelThumbnails]: the animation tick *)

(** The body of the loop of [TIMERAnimationUpdate] for one hash; it answers
    the painters opened so far and whether the loop breaks. *)
Definition animation_step (env : Env) (loop_should_break_time : Q) (h : hash)
    (page_indices_to_painters : gmap Z canvas) : M (gmap Z canvas * bool) :=
  st ← get;
  thumbnail_draw_object ←
    or_raise KeyError (_hashes_to_thumbnails_waiting_to_be_drawn st !! h);
  due ← DrawDue env thumbnail_draw_object;
  '(draw_complete, delete_entry, painters) ←
    (if due : bool then
       let thumbnail_index := Z.of_nat (thumbnail_index thumbnail_draw_object) in
       let expected_thumbnail := getitem (_sorted_media st) thumbnail_index in
       page_index ← _GetPageIndexFromThumbnailIndex thumbnail_index;
       if decide (expected_thumbnail ≠ Some (thumbnail thumbnail_draw_object)) then
         ret (DrawComplete thumbnail_draw_object, true, page_indices_to_painters)
       else
         match _clean_canvas_pages st !! page_index with
         | None => ret (DrawComplete thumbnail_draw_object, true, page_indices_to_painters)
         | Some canvas_page =>
             '(x, y) ← position_on_page env thumbnail_index page_index;
             let painters :=
               match page_indices_to_painters !! page_index with
               | None => <[page_index := canvas_page]> page_indices_to_painters
               | Some _ => page_indices_to_painters
               end in
             painter ← or_raise KeyError (painters !! page_index);
             drawn_object ← DrawToPainter env thumbnail_draw_object x y (Some painter);
             (* the object the map holds has been mutated *)
             modify (λ st, set_hashes_to_thumbnails_waiting_to_be_drawn
                             (<[h := drawn_object]>
                                (_hashes_to_thumbnails_waiting_to_be_drawn st)) st) ;;
             (* self.widget().update( QC.QRect( ... ) ) *)
             ret (DrawComplete drawn_object, false, painters)
         end
     else ret (DrawComplete thumbnail_draw_object, false, page_indices_to_painters));
  (if draw_complete || delete_entry : bool then
     modify (λ st, set_hashes_to_thumbnails_waiting_to_be_drawn
                     (delete h (_hashes_to_thumbnails_waiting_to_be_drawn st)) st)
   else ret tt) ;;
  stop ← TimeHasPassedPrecise env loop_should_break_time;
  ret (painters, stop).

Fixpoint animation_loop (env : Env) (loop_should_break_time : Q) (hashes : list hash)
    (page_indices_to_painters : gmap Z canvas) : M unit :=
  match hashes with
  | [] => ret tt
  | h :: hashes' =>
      '(painters, stop) ← animation_step env loop_should_break_time h page_indices_to_painters;
      if stop : bool then ret tt
      else animation_loop env loop_should_break_time hashes' painters
  end.

Definition TIMERAnimationUpdate (env : Env) : M unit :=
  now ← GetNowPrecise env;
  let loop_should_break_time := float_add now (FRAME_DURATION_60FPS / 2)%Q in
  st ← get;
  let hashes := (map_to_list (_hashes_to_thumbnails_waiting_to_be_drawn st)).*1 in
  animation_loop env loop_should_break_time (IterateListRandomlyAndFast env hashes) ∅
  (* if len( ... ) == 0: UnregisterAnimationUpdateWindow( self ) *).

(** ** [MediaPanel]: selection and focus *)

Definition is_selected (st : MediaPanelThumbnails) (m : media) : bool :=
  default false (_selected st !! m).

Definition _PublishSelectionChange (env : Env) (tags_changed : bool) : M unit :=
  st ← get;
  if IsCurrentPage env then
    let tags_changed := tags_changed || _had_changes_to_tag_presentation_while_hidden st in
    (* selectedMediaTagPresentationChanged.emit( ... ); statusTextChanged.emit( ... ) *)
    if tags_changed then modify (set_had_changes_to_tag_presentation_while_hidden false)
    else ret tt
  else if tags_changed then modify (set_had_changes_to_tag_presentation_while_hidden true)
  else ret tt.

(** The two arguments are the iterables of the source, listed. Where the
    source passes [self._selected_media] itself as [media_to_deselect], the
    set is listed before the call: the alias is read by the two loops and
    emptied by [difference_update], and not read again. *)
Definition _DeselectSelect (env : Env) (media_to_deselect media_to_select : list media)
    : M unit :=
  (if decide (0 < length media_to_deselect)%nat then
     for_each media_to_deselect Deselect ;;
     _RedrawMedia env media_to_deselect ;;
     modify (λ st, set_selected_media
                     (_selected_media st ∖ list_to_set media_to_deselect) st)
   else ret tt) ;;
  (if decide (0 < length media_to_select)%nat then
     for_each media_to_select Select ;;
     _RedrawMedia env media_to_select ;;
     modify (λ st, set_selected_media
                     (_selected_media st ∪ list_to_set media_to_select) st)
   else ret tt) ;;
  _PublishSelectionChange env false.

Definition _EndShiftSelect : M unit :=
  modify (set_shift_select_started_with_this_media None) ;;
  modify (set_media_added_in_current_shift_select ∅).

Definition _StartShiftSelect (m : media) : M unit :=
  modify (set_shift_select_started_with_this_media (Some m)) ;;
  modify (set_media_added_in_current_shift_select ∅).

(** The [while] loop of [_SetFocusedMedia], entered with
    [next_best_media = self._sorted_media[ i ]]. *)
Fixpoint next_best_walk (sorted_media : list media) (selected_media : gset media)
    (i : nat) (next_best_media : media) : exn + option media :=
  if decide (next_best_media ∈ selected_media) then
    match i with
    | O => inr None
    | S i' =>
        match sorted_media !! i' with
        | Some m => next_best_walk sorted_media selected_media i' m
        | None => inl IndexError
        end
    end
  else inr (Some next_best_media).

Definition _SetFocusedMedia (m : option media) : M unit :=
  st ← get;
  match m, _focused_media st with
  | None, Some focused =>
      i ← or_raise DataMissing (list_index focused (_sorted_media st));
      next_best_media ←
        lift (next_best_walk (_sorted_media st) (_selected_media st) i focused);
      modify (set_next_best_media_if_focuses_removed next_best_media)
  | _, _ => modify (set_next_best_media_if_focuses_removed None)
  end ;;
  modify (set_focused_media m) ;;
  modify (set_last_hit_media m)
  (* focusMediaCleared.emit() or focusMediaChanged.emit( publish_media ) *).

(** The focus policy of a ctrl- or shift-click. *)
Definition focus_it (env : Env) (enabled only_static : bool) (m : media) : bool :=
  if enabled then (if only_static then DurationIsNone env m else true) else false.

(** [_HitMedia( media, ctrl, shift )] for [media is not None]. *)
Definition hit_media (env : Env) (m : media) (ctrl shift : bool) : M unit :=
  st ← get;
  if ctrl && negb shift then
    if is_selected st m then
      _DeselectSelect env [m] [] ;;
      st ← get;
      (if decide (_focused_media st = Some m) then _SetFocusedMedia None else ret tt) ;;
      _EndShiftSelect
    else
      _DeselectSelect env [] [m] ;;
      (if focus_it env (focus_preview_on_ctrl_click env)
                       (focus_preview_on_ctrl_click_only_static env) m
       then _SetFocusedMedia (Some m)
       else modify (set_last_hit_media (Some m))) ;;
      _StartShiftSelect m
  else
    match shift, _shift_select_started_with_this_media st with
    | true, Some started =>
        start_index ← or_raise DataMissing (list_index started (_sorted_media st));
        end_index ← or_raise DataMissing (list_index m (_sorted_media st));
        let media_from_start_of_shift_to_end : gset media :=
          if decide (start_index < end_index)%nat
          then list_to_set (slice start_index (end_index + 1) (_sorted_media st))
          else list_to_set (slice end_index (start_index + 1) (_sorted_media st)) in
        let media_to_deselect :=
          filter (λ m, m ∉ media_from_start_of_shift_to_end)
                 (elements (_media_added_in_current_shift_select st)) in
        let media_to_select :=
          filter (λ m, is_selected st m = false)
                 (elements media_from_start_of_shift_to_end) in
        modify (λ st, set_media_added_in_current_shift_select
                        (_media_added_in_current_shift_select st
                           ∖ list_to_set media_to_deselect) st) ;;
        modify (λ st, set_media_added_in_current_shift_select
                        (_media_added_in_current_shift_select st
                           ∪ list_to_set media_to_select) st) ;;
        _DeselectSelect env media_to_deselect media_to_select ;;
        (if focus_it env (focus_preview_on_shift_click env)
                         (focus_preview_on_shift_click_only_static env) m
         then _SetFocusedMedia (Some m)
         else modify (set_last_hit_media (Some m)))
    | _, _ =>
        (if negb (is_selected st m)
         then _DeselectSelect env (elements (_selected_media st)) [m]
         else _PublishSelectionChange env false) ;;
        _SetFocusedMedia (Some m) ;;
        _StartShiftSelect m
    end.

(** [matching_media] is [file_filter.GetMediaListMedia( self )]. *)
Definition _Select (env : Env) (matching_media : gset media) : M unit :=
  st ← get;
  let media_to_deselect := _selected_media st ∖ matching_media in
  let media_to_select := matching_media ∖ _selected_media st in
  let move_focus :=
    match _focused_media st with
    | Some focused => bool_decide (focused ∈ media_to_deselect)
    | None => true
    end in
  let started_deselected :=
    match _shift_select_started_with_this_media st with
    | Some started => bool_decide (started ∈ media_to_deselect)
    | None => false
    end in
  (if move_focus || started_deselected then _EndShiftSelect else ret tt) ;;
  _DeselectSelect env (elements media_to_deselect) (elements media_to_select) ;;
  if move_focus then
    st ← get;
    if decide (size (_selected_media st) = 0%nat) then _SetFocusedMedia None
    else
      media_visible ← any_M (λ m, _MediaIsVisible env (Some m)) (elements (_selected_media st));
      if media_visible then ret tt
      else
        (* for m in self._sorted_media: if m in self._selected_media: ...; break *)
        match filter (λ m, m ∈ _selected_media st) (_sorted_media st) with
        | m :: _ => hit_media env m false false ;; _ScrollToMedia env (Some m)
        | [] => ret tt
        end
  else ret tt.

Definition _HitMedia (env : Env) (m : option media) (ctrl shift : bool) : M unit :=
  match m with
  | None =>
      if negb ctrl && negb shift then
        _Select env ∅ ;;   (* FileFilter( FILE_FILTER_NONE ) *)
        _SetFocusedMedia None ;;
        _EndShiftSelect
      else ret tt
  | Some m => hit_media env m ctrl shift
  end.

(** Modelled from the spec: [ClientMedia.MediaList._RemoveMediaDirectly], the
    base-class method [MediaPanelThumbnails._RemoveMediaDirectly] calls, is
    not in this file. The media list collaborator owns the sequence and the
    selection set, which is a subset of the sequence; a remove request takes
    the items out of both. *)
Definition MediaList_RemoveMediaDirectly (singleton_media collected_media : gset media)
    : M unit :=
  modify (λ st, set_selected_media
                  (_selected_media st ∖ singleton_media ∖ collected_media) st) ;;
  modify (λ st, set_sorted_media
                  (filter (λ m, m ∉ singleton_media ∪ collected_media)
                          (_sorted_media st)) st).

Definition _RemoveMediaDirectly (env : Env) (singleton_media collected_media : gset media)
    : M unit :=
  st ← get;
  match _focused_media st with
  | Some focused =>
      if bool_decide (focused ∈ singleton_media) || bool_decide (focused ∈ collected_media)
      then _SetFocusedMedia None else ret tt
  | None => ret tt
  end ;;
  MediaList_RemoveMediaDirectly singleton_media collected_media ;;
  _EndShiftSelect ;;
  _RecalculateVirtualSize env ;;
  _DirtyAllPages ;;
  _PublishSelectionChange env false
  (* pub( 'refresh_page_name' ); pub( 'notify_new_pages_count' ); widget().update() *).

(** [_InnerWidget.mousePressEvent] from its third line on; [x], [y] is where
    the mouse is and [right_button] is [event.button() == QC.Qt.RightButton].
    The two lines before write [_drag_init_coordinates] and
    [_drag_click_timestamp_ms], which are kept in [drag_state] apart from
    this state: they are [mousePressEvent_drag], and the handler on both
    parts of the panel is [InnerWidget_mousePressEvent]. *)
Definition mousePressEvent (env : Env) (x y : Z) (right_button ctrl shift : bool)
    : M unit :=
  thumb ← _GetThumbnailUnderMouse env x y;
  let right_on_whitespace := right_button && bool_decide (thumb = None) in
  if negb right_on_whitespace then _HitMedia env thumb ctrl shift else ret tt.

(** ** The panel as a state machine *)

(** [MediaPanelThumbnails.__init__] on the media the page opens with: nothing
    is selected, focused or cached. *)
Definition new_MediaPanelThumbnails (media_results : list media) (dpr : Q)
    : MediaPanelThumbnails :=
  {| _sorted_media := media_results;
     _selected_media := ∅;
     _selected := ∅;
     _focused_media := None;
     _last_hit_media := None;
     _next_best_media_if_focuses_removed := None;
     _shift_select_started_with_this_media := None;
     _media_added_in_current_shift_select := ∅;
     _had_changes_to_tag_presentation_while_hidden := false;
     _clean_canvas_pages := ∅;
     _dirty_canvas_pages := [];
     _num_rows_per_canvas_page := 1;
     _num_rows_per_actual_page := 1;
     _num_columns := 1;
     _last_size := (20, 20);
     _last_device_pixel_ratio := dpr;
     _hashes_to_thumbnails_waiting_to_be_drawn := ∅;
     _hashes_faded := ∅;
     clock := 0;
     next_canvas := 0;
     painted := [] |}.

(** What reaches the panel from outside. *)
Inductive event : Type :=
  | MousePress (x y : Z) (right_button ctrl shift : bool)
  | Hit (m : option media) (ctrl shift : bool)      (* keyboard moves, SetFocusedMedia *)
  | SelectByFilter (matching_media : gset media)    (* _Select( file_filter ) *)
  | RemoveMedia (singleton_media collected_media : gset media)
  | Resize
  | Paint
  | MemoryMaintenance
  | ThumbnailsAvailable (thumbnails : list media)   (* 'waterfall_thumbnails' *)
  | AnimationTick.

Definition handle (env : Env) (ev : event) : M unit :=
  match ev with
  | MousePress x y right_button ctrl shift => mousePressEvent env x y right_button ctrl shift
  | Hit m ctrl shift => _HitMedia env m ctrl shift
  | SelectByFilter matching_media => _Select env matching_media
  | RemoveMedia singleton_media collected_media =>
      _RemoveMediaDirectly env singleton_media collected_media
  | Resize => EventResize env
  | Paint => paintEvent env
  | MemoryMaintenance => MaintainPageCache env
  | ThumbnailsAvailable thumbnails => WaterfallThumbnails env thumbnails
  | AnimationTick => TIMERAnimationUpdate env
  end.

(** * Specifications *)

(** ** Returning methods *)

(** [wp c st Q]: run from [st], the method [c] does not raise, and the value
    it returns and the state it leaves satisfy [Q]. *)
Definition wp {A} (c : M A) (st : MediaPanelThumbnails)
    (Q : A → MediaPanelThumbnails → Prop) : Prop :=
  match c st with
  | inr (a, st') => Q a st'
  | inl _ => False
  end.

(** ** Well-formed panel states *)

Definition geom_ok (st : MediaPanelThumbnails) : Prop :=
  1 ≤ _num_columns st ∧ 1 ≤ _num_rows_per_canvas_page st.

(** The canvas buffers the two pools hold, the clean ones first. *)
Definition pool (st : MediaPanelThumbnails) : list canvas :=
  (map_to_list (_clean_canvas_pages st)).*2 ++ _dirty_canvas_pages st.

(** The page cache is in order: the layout is positive, page indices are
    not negative, no buffer is held twice, and every buffer was allocated. *)
Record cache_ok (st : MediaPanelThumbnails) : Prop := {
  cache_geom : geom_ok st;
  cache_nonneg : ∀ i c, _clean_canvas_pages st !! i = Some c → 0 ≤ i;
  cache_disjoint : NoDup (pool st);
  cache_allocated : ∀ c, c ∈ pool st → (c < next_canvas st)%nat;
}.

(** The parts of the state a group of methods leaves alone. *)
Definition selection (st : MediaPanelThumbnails) :=
  (_sorted_media st, _selected_media st, _selected st, _focused_media st,
   _last_hit_media st, _next_best_media_if_focuses_removed st,
   _shift_select_started_with_this_media st, _media_added_in_current_shift_select st).

Definition layout (st : MediaPanelThumbnails) :=
  (_num_columns st, _num_rows_per_canvas_page st, _num_rows_per_actual_page st,
   _last_size st, _last_device_pixel_ratio st).

Definition pools (st : MediaPanelThumbnails) :=
  (_clean_canvas_pages st, _dirty_canvas_pages st, next_canvas st).

(** A method that touches neither the selection, nor the layout, nor the
    pools. *)
Definition fades_only (st st' : MediaPanelThumbnails) : Prop :=
  selection st' = selection st ∧ layout st' = layout st ∧ pools st' = pools st.

(** The focus and gesture fields and the sequence. *)
Definition focus_state (st : MediaPanelThumbnails) :=
  (_sorted_media st, _focused_media st, _last_hit_media st,
   _next_best_media_if_focuses_removed st,
   _shift_select_started_with_this_media st, _media_added_in_current_shift_select st).

(** The object store after [for m in l: m.Select()] ([b = true]) or
    [for m in l: m.Deselect()] ([b = false]). *)
Definition set_flags (b : bool) (l : list media) (flags : gmap media bool)
    : gmap media bool :=
  foldl (λ f m, <[m := b]> f) flags l.

(** ** The selection invariant *)

(** The items of the sequence whose [IsSelected()] is true. *)
Definition flagged_in_sequence (st : MediaPanelThumbnails) : gset media :=
  list_to_set (filter (λ m, is_selected st m = true) (_sorted_media st)).

Definition selection_consistent (st : MediaPanelThumbnails) : Prop :=
  _selected_media st = flagged_in_sequence st.

(** A panel state in order: the selection set mirrors the flags, the focused
    item and the shift anchor are items of the sequence, and the page cache
    is in order. *)
Record panel_ok (st : MediaPanelThumbnails) : Prop := {
  panel_selection : selection_consistent st;
  panel_focus : ∀ m, _focused_media st = Some m → m ∈ _sorted_media st;
  panel_anchor :
    ∀ m, _shift_select_started_with_this_media st = Some m → m ∈ _sorted_media st;
  panel_cache : cache_ok st;
}.

(** ** The fallback focus, in the words of the specification

    The nearest item at or before index [i] that is not selected, if any. *)
Definition nearest_unselected (sorted_media : list media) (selected_media : gset media)
    (i : nat) : option media :=
  last (filter (λ m, m ∉ selected_media) (take (S i) sorted_media)).

(** What [_SetFocusedMedia( m )] caches as the fallback. *)
Definition fallback_focus (m : option media) (st : MediaPanelThumbnails) : option media :=
  match m, _focused_media st with
  | None, Some focused =>
      match list_index focused (_sorted_media st) with
      | Some i => nearest_unselected (_sorted_media st) (_selected_media st) i
      | None => None
      end
  | _, _ => None
  end.

(** The items between two positions of the sequence, both included. *)
Definition items_between (st : MediaPanelThumbnails) (i j : nat) : gset media :=
  list_to_set (slice (i `min` j) (i `max` j + 1) (_sorted_media st)).

(** [IsSelected()] of [x] after [_DeselectSelect( des, sel )]. *)
Definition flag_after (des sel : list media) (st : MediaPanelThumbnails) (x : media)
    : bool :=
  if decide (x ∈ sel) then true
  else if decide (x ∈ des) then false
  else is_selected st x.

(** What a shift-click with the anchor at position [i] and the clicked item at
    position [j] deselects and selects. *)
Definition shift_deselects (st : MediaPanelThumbnails) (i j : nat) : list media :=
  filter (λ x, x ∉ items_between st i j)
         (elements (_media_added_in_current_shift_select st)).

Definition shift_selects (st : MediaPanelThumbnails) (i j : nat) : list media :=
  filter (λ x, is_selected st x = false) (elements (items_between st i j)).

(** ** Resizing *)

(** Whether [_ReinitialisePageCacheIfNeeded] throws the pages away: the
    layout changed or the viewport got wider. *)
Definition resize_resets (env : Env) (st : MediaPanelThumbnails) : bool :=
  let '(thumbnail_span_width, thumbnail_span_height) := thumbnail_span env in
  let num_rows := visible_rect_height env / thumbnail_span_height in
  negb (bool_decide (_num_columns st
                     = Z.max 1 (visible_rect_width env / thumbnail_span_width)))
  || negb (bool_decide (_num_rows_per_canvas_page st = Z.max 1 (num_rows / 2)))
  || bool_decide ((_last_size st).1 < visible_rect_width env).


(** ** What an event handler may assume of its surroundings

    The thumbnail span is positive, the viewport is not taller than the
    virtual canvas it scrolls over, the scroll step is not zero, and the two
    random iterations are permutations. *)
Record env_ok (env : Env) : Prop := {
  span_width_pos : 0 < (thumbnail_span env).1;
  span_height_pos : 0 < (thumbnail_span env).2;
  visible_height_ok : 0 ≤ visible_rect_height env ≤ virtual_height env;
  yUnit_ok : yUnit env ≠ 0;
  shuffle_perm : ∀ l, shuffle env l ≡ₚ l;
  iterate_perm : ∀ l, IterateListRandomlyAndFast env l ≡ₚ l;
}.

(** The pages a paint pass ensures: the visible ones and one on either
    side. *)
Definition ensured_pages (env : Env) (st : MediaPanelThumbnails) : list Z :=
  let page_height := _num_rows_per_canvas_page st * (thumbnail_span env).2 in
  let first_visible_page_index := _GetYStart env / page_height in
  let last_visible_page_index :=
    (_GetYStart env + visible_rect_height env) / page_height in
  range (Z.max 0 (first_visible_page_index - 1)) (last_visible_page_index + 2).

(** ** The animation tick *)

(** The page that covers thumbnail number [thumbnail_index]. *)
Definition page_of (st : MediaPanelThumbnails) (thumbnail_index : nat) : Z :=
  Z.of_nat thumbnail_index / (_num_columns st * _num_rows_per_canvas_page st).

(** A pending entry is stale: its remembered index no longer holds its
    thumbnail in the sequence, or its page is no longer in the clean pool. *)
Definition stale (st : MediaPanelThumbnails) (o : ThumbnailWaitingToBeDrawn) : Prop :=
  _sorted_media st !! thumbnail_index o ≠ Some (thumbnail o)
  ∨ _clean_canvas_pages st !! page_of st (thumbnail_index o) = None.

(** What [DrawDue()] answers for [o] when called in state [st]. *)
Definition due_at (env : Env) (st : MediaPanelThumbnails) (o : ThumbnailWaitingToBeDrawn)
    : bool :=
  match animated o with
  | None => true
  | Some a =>
      bool_decide
        (0 < Z.min (float_floordiv
                      (float_sub (GetNowPrecise_at env (clock st))
                                 (animation_started_precise a))
                      FRAME_DURATION_60FPS)
                   (num_frames_to_draw a - num_frames_drawn a))
  end.

(** A draw call paints the bitmap of the draw object made for [h]. *)
Definition draws_of (h : hash) (d : draw_call) : Prop :=
  drawn d = Bitmap h ∨ drawn d = AlphaBitmap h.

(** Every pending entry is filed under its own hash. *)
Definition pending_keyed (st : MediaPanelThumbnails) : Prop :=
  ∀ h o, _hashes_to_thumbnails_waiting_to_be_drawn st !! h = Some o → entry_hash o = h.

(** A method that only reads the clock and paints. *)
Definition paints_only (h : hash) (st st' : MediaPanelThumbnails) : Prop :=
  fades_only st st' ∧
  _hashes_to_thumbnails_waiting_to_be_drawn st'
    = _hashes_to_thumbnails_waiting_to_be_drawn st ∧
  ∃ new, painted st' = painted st ++ new ∧ ∀ d, d ∈ new → draws_of h d.

(** What a tick leaves behind: selection, layout and pools as they were, and
    only draw calls made for entries that were pending and not stale. *)
Definition tick_result (st st' : MediaPanelThumbnails) : Prop :=
  fades_only st st' ∧
  ∃ new, painted st' = painted st ++ new ∧
         ∀ d, d ∈ new →
              ∃ h o, _hashes_to_thumbnails_waiting_to_be_drawn st !! h = Some o ∧
                     ¬ stale st o ∧ draws_of (entry_hash o) d.

(** ** Reachable states *)

(** The requests the collaborators make are about items of the sequence. *)
Definition event_ok (st : MediaPanelThumbnails) (ev : event) : Prop :=
  match ev with
  | Hit (Some m) _ _ => m ∈ _sorted_media st
  | SelectByFilter matching_media => ∀ m, m ∈ matching_media → m ∈ _sorted_media st
  | _ => True
  end.

Inductive reachable : MediaPanelThumbnails → Prop :=
  | reachable_new media_results dpr :
      reachable (new_MediaPanelThumbnails media_results dpr)
  | reachable_handle env ev st st' :
      reachable st → env_ok env → event_ok st ev →
      handle env ev st = inr (tt, st') →
      reachable st'.

(** ** Hit-testing *)

(** The mouse is on the margin around a cell. *)
Definition in_dead_zone (env : Env) (x y : Z) : Prop :=
  x mod (thumbnail_span env).1 ≤ thumbnail_margin env
  ∨ y mod (thumbnail_span env).2 ≤ thumbnail_margin env
  ∨ (thumbnail_span env).1 - thumbnail_margin env < x mod (thumbnail_span env).1
  ∨ (thumbnail_span env).2 - thumbnail_margin env < y mod (thumbnail_span env).2.

Definition column_at (env : Env) (x : Z) : Z := x / (thumbnail_span env).1.

(** The index of the thumbnail whose cell the mouse is in. *)
Definition thumbnail_index_at (env : Env) (st : MediaPanelThumbnails) (x y : Z) : Z :=
  _num_columns st * (y / (thumbnail_span env).2) + column_at env x.

(** Where hit-testing answers "no item". *)
Definition misses (env : Env) (st : MediaPanelThumbnails) (x y : Z) : Prop :=
  in_dead_zone env x y
  ∨ _num_columns st ≤ column_at env x
  ∨ thumbnail_index_at env st x y < 0
  ∨ Z.of_nat (length (_sorted_media st)) ≤ thumbnail_index_at env st x y.

(** ** Rounding, in the words of the specification

    [round( q )]: to the nearest integer, a tie to the even one. *)
Definition py_round (q : Q) : Z :=
  let f := Qfloor q in
  match (q - inject_Z f ?= 1 # 2)%Q with
  | Lt => f
  | Gt => f + 1
  | Eq => if Z.even f then f else f + 1
  end.

(** ** A panel to try things on *)

(** Thumbnails of 50 by 50 in a viewport of 100 by 100, fading on, the page
    showing, every thumbnail cached, the clock 1 ms further at each reading,
    and the random iterations the identity. *)
Definition example_env : Env :=
  {| visible_rect_y := 0;
     visible_rect_width := 100;
     visible_rect_height := 100;
     virtual_height := 300;
     thumbnail_span := (50, 50);
     thumbnail_margin := 2;
     yUnit := 50;
     device_pixel_ratio := 1;
     focus_preview_on_ctrl_click := false;
     focus_preview_on_ctrl_click_only_static := false;
     focus_preview_on_shift_click := false;
     focus_preview_on_shift_click_only_static := false;
     fade_thumbnails := true;
     IsCurrentPage := true;
     HasThumbnailCached := λ _, true;
     GetDisplayHash := λ m, Some (N.of_nat m);
     DurationIsNone := λ _, true;
     GetNowPrecise_at := λ k, Z.of_nat k # 1000;
     shuffle := λ l, l;
     IterateListRandomlyAndFast := λ l, l |}.

(** Five items, named 10 to 14. *)
Definition example_panel : MediaPanelThumbnails :=
  new_MediaPanelThumbnails [10; 11; 12; 13; 14]%nat 1.

(** The state a list of events leaves, if no handler raises. *)
Definition after (env : Env) (evs : list event) (st : MediaPanelThumbnails)
    : option MediaPanelThumbnails :=
  match for_each evs (handle env) st with
  | inr (_, st') => Some st'
  | inl _ => None
  end.

(** The example panel laid out in two columns and painted, with items 11 and
    13 selected by ctrl-clicks on their cells. *)
Definition example_clicks : list event :=
  [Resize; Paint; MousePress 75 25 false true false; MousePress 75 75 false true false].

Definition example_selected : MediaPanelThumbnails :=
  default example_panel (after example_env example_clicks example_panel).

(** ** Shift gestures *)

(** The shift-clicks of a gesture, each on an item, with ctrl down or not. *)
Definition shift_clicks (env : Env) (clicks : list (media * bool)) : M unit :=
  for_each clicks (λ click, hit_media env click.1 click.2 true).


(** The same, after a plain click on the cell of item 13: 11 and 13 are
    selected and 13 is focused. *)
Definition example_focused : MediaPanelThumbnails :=
  default example_panel
    (after example_env (example_clicks ++ [MousePress 75 75 false false false])
       example_panel).

(** The example surroundings with another viewport size, or with the page
    hidden behind another one. *)
Definition example_env_sized (width height : Z) : Env :=
  {| visible_rect_y := 0;
     visible_rect_width := width;
     visible_rect_height := height;
     virtual_height := 300;
     thumbnail_span := thumbnail_span example_env;
     thumbnail_margin := thumbnail_margin example_env;
     yUnit := yUnit example_env;
     device_pixel_ratio := device_pixel_ratio example_env;
     focus_preview_on_ctrl_click := false;
     focus_preview_on_ctrl_click_only_static := false;
     focus_preview_on_shift_click := false;
     focus_preview_on_shift_click_only_static := false;
     fade_thumbnails := true;
     IsCurrentPage := true;
     HasThumbnailCached := HasThumbnailCached example_env;
     GetDisplayHash := GetDisplayHash example_env;
     DurationIsNone := DurationIsNone example_env;
     GetNowPrecise_at := GetNowPrecise_at example_env;
     shuffle := shuffle example_env;
     IterateListRandomlyAndFast := IterateListRandomlyAndFast example_env |}.

Definition example_env_hidden : Env :=
  {| visible_rect_y := 0;
     visible_rect_width := 100;
     visible_rect_height := 100;
     virtual_height := 300;
     thumbnail_span := thumbnail_span example_env;
     thumbnail_margin := thumbnail_margin example_env;
     yUnit := yUnit example_env;
     device_pixel_ratio := device_pixel_ratio example_env;
     focus_preview_on_ctrl_click := false;
     focus_preview_on_ctrl_click_only_static := false;
     focus_preview_on_shift_click := false;
     focus_preview_on_shift_click_only_static := false;
     fade_thumbnails := true;
     IsCurrentPage := false;
     HasThumbnailCached := HasThumbnailCached example_env;
     GetDisplayHash := GetDisplayHash example_env;
     DurationIsNone := DurationIsNone example_env;
     GetNowPrecise_at := GetNowPrecise_at example_env;
     shuffle := shuffle example_env;
     IterateListRandomlyAndFast := IterateListRandomlyAndFast example_env |}.

(** The example panel after its thumbnails arrived while the page was
    hidden: every canvas page went to the dirty pool. *)
Definition example_dirty : MediaPanelThumbnails :=
  default example_panel
    (after example_env_hidden [ThumbnailsAvailable [10%nat]] example_selected).

(** The example panel after item 11 was removed while the fades of 11 and 13
    were pending. *)
Definition example_removed : MediaPanelThumbnails :=
  default example_panel
    (after example_env [RemoveMedia {[11%nat]} ∅] example_selected).

(** The entry filed for the fade of item 13, which that removal made
    stale. *)
Definition example_entry : ThumbnailWaitingToBeDrawn :=
  {| entry_hash := 13;
     thumbnail := 13;
     thumbnail_index := 3;
     _draw_complete := false;
     animated := Some {| num_frames_drawn := 0;
                         num_frames_to_draw := 30;
                         animation_started_precise := 3 # 1000 |} |}.

(** ** Fades *)

(** A draw object as [_FadeThumbnails] makes it: not drawn yet, and with 30
    frames to draw when fading is on, or of the plain class when it is
    off. *)
Definition made_for (env : Env) (o : ThumbnailWaitingToBeDrawn) : Prop :=
  _draw_complete o = false
  ∧ if fade_thumbnails env
    then ∃ a, animated o = Some a ∧ num_frames_drawn a = 0 ∧ num_frames_to_draw a = 30
    else animated o = None.

(** The thumbnail passes the gates of [_FadeThumbnails]: it has a display
    hash [h], it is in the sequence, and its page is clean. *)
Definition fades_in (env : Env) (st : MediaPanelThumbnails) (t : media) (h : hash)
    : Prop :=
  GetDisplayHash env t = Some h
  ∧ ∃ index, list_index t (_sorted_media st) = Some index
             ∧ is_Some (_clean_canvas_pages st !! page_of st index).

(** * More of the panel *)

(** ** [MediaPanelThumbnails]: keyboard moves *)

Definition _ScrollEnd (env : Env) (shift : bool) : M unit :=
  st ← get;
  if decide (0 < length (_sorted_media st))%nat then
    end_media ← or_raise IndexError (getitem (_sorted_media st) (-1));
    _HitMedia env (Some end_media) false shift ;;
    _ScrollToMedia env (Some end_media)
  else ret tt.

Definition _ScrollHome (env : Env) (shift : bool) : M unit :=
  st ← get;
  if decide (0 < length (_sorted_media st))%nat then
    home_media ← or_raise IndexError (getitem (_sorted_media st) 0);
    _HitMedia env (Some home_media) false shift ;;
    _ScrollToMedia env (Some home_media)
  else ret tt.

Definition _MoveThumbnailFocus (env : Env) (rows columns : Z) (shift : bool) : M unit :=
  st ← get;
  '(media_to_use, columns) ←
    match _last_hit_media st with
    | Some m => ret (Some m, columns)
    | None =>
        match _next_best_media_if_focuses_removed st with
        | Some m =>
            (* treat it as if the focused area is between this and the next *)
            ret (Some m, if decide (columns = -1) then 0 else columns)
        | None =>
            if decide (0 < length (_sorted_media st))%nat then
              m ← or_raise IndexError (getitem (_sorted_media st) 0);
              ret (Some m, columns)
            else ret (None, columns)
        end
    end;
  match media_to_use with
  | None => ret tt
  | Some media_to_use =>
      match list_index media_to_use (_sorted_media st) with
      | None => _SetFocusedMedia None   (* except HydrusExceptions.DataMissing *)
      | Some current_position =>
          let new_position :=
            Z.of_nat current_position + columns + _num_columns st * rows in
          let new_position :=
            if decide (new_position < 0) then 0
            else if decide (Z.of_nat (length (_sorted_media st)) - 1 < new_position)
                 then Z.of_nat (length (_sorted_media st)) - 1
                 else new_position in
          new_media ← or_raise IndexError (getitem (_sorted_media st) new_position);
          _HitMedia env (Some new_media) false shift ;;
          _ScrollToMedia env (Some new_media)
      end
  end.

(** ** [MediaPanelThumbnails]: redrawing everything *)

(** [st'] is [st] after every clean page went to the dirty pool: the clean
    pool is empty, and its buffers follow the old dirty buffers in some
    order. *)
Definition all_pages_dirtied (st st' : MediaPanelThumbnails) : Prop :=
  ∃ buffers,
    buffers ≡ₚ (map_to_list (_clean_canvas_pages st)).*2
    ∧ st' = set_dirty_canvas_pages (_dirty_canvas_pages st ++ buffers)
              (set_clean_canvas_pages ∅ st).

Definition _NotifyThumbnailsHaveMoved : M unit :=
  _DirtyAllPages (* self.widget().update() *).

(** [MediaPanel._UpdateBackgroundColour] sets the palette of the widget. *)
Definition _UpdateBackgroundColour : M unit :=
  _DirtyAllPages ;;
  _DeleteAllDirtyPages (* self.widget().update() *).

Definition RedrawAllThumbnails : M unit :=
  _DirtyAllPages
  (* m.RecalcInternals(), thumbnail.ClearTagSummaryCaches(): caches of the media
     objects; self.widget().update() *).

Definition ThumbnailsReset (env : Env) : M unit :=
  (* self.verticalScrollBar().setSingleStep( ... ) *)
  modify (set_hashes_to_thumbnails_waiting_to_be_drawn ∅) ;;
  modify (set_hashes_faded ∅) ;;
  _ReinitialisePageCacheIfNeeded env ;;
  _RecalculateVirtualSize env ;;
  RedrawAllThumbnails.

(** [affected_thumbnails] is [self._GetMedia( hashes )]. *)
Definition NewThumbnails (env : Env) (affected_thumbnails : list media) : M unit :=
  if decide (0 < length affected_thumbnails)%nat
  then _RedrawMedia env affected_thumbnails
  else ret tt.

(** ** [MediaPanelThumbnails]: the size of the scrolled widget *)

(** The [virtual_size] that [_RecalculateVirtualSize] computes and resizes
    the scrolled widget to; [None] when the method does nothing, the viewport
    being empty. *)
Definition recalculated_virtual_size (env : Env) : M (option (Z * Z)) :=
  let my_width := visible_rect_width env in
  let my_height := visible_rect_height env in
  if decide (0 < my_width ∧ 0 < my_height) then
    st ← get;
    let '(thumbnail_span_width, thumbnail_span_height) := _GetThumbnailSpanDimensions env in
    let num_media := Z.of_nat (length (_sorted_media st)) in
    q ← lift (floordiv num_media (_num_columns st));
    r ← lift (pymod num_media (_num_columns st));
    let num_rows := Z.max 1 q + (if decide (0 < r) then 1 else 0) in
    let virtual_width := my_width in
    let virtual_height := num_rows * thumbnail_span_height in
    excess ← lift (pymod virtual_height (yUnit env));
    let virtual_height :=
      if decide (0 < excess) then virtual_height + (yUnit env - excess)
      else virtual_height in
    let virtual_height := Z.max virtual_height my_height in
    ret (Some (virtual_width, virtual_height))
  else ret None.

(** ** [MediaPanel]: the selection, listed *)

(** [[ media for media in self._sorted_media if media in self._selected_media ]],
    the first line of [_GetSelectedFlatMedia]. *)
Definition sorted_selected_media (st : MediaPanelThumbnails) : list media :=
  filter (λ m, m ∈ _selected_media st) (_sorted_media st).

(** ** Statements *)

(** [i] brought into the positions of a sequence of [len] items. *)
Definition clamp_position (len : nat) (i : Z) : Z :=
  Z.max 0 (Z.min (Z.of_nat len - 1) i).

(** The number of buffers the two pools hold. *)
Definition num_buffers (st : MediaPanelThumbnails) : nat := length (pool st).

(** The [drawImage] call that shows canvas page [page_index] on the widget,
    when the page is in the clean pool. *)
Definition shows_page (env : Env) (st : MediaPanelThumbnails) (page_index : Z)
    : option draw_call :=
  (λ canvas_page,
     DrawImage None 0
       (_num_rows_per_canvas_page st * (thumbnail_span env).2 * page_index)
       (CanvasImage canvas_page))
  <$> _clean_canvas_pages st !! page_index.

(** ** Fades, frame by frame *)

(** The frame periods between the start of a fade and the reading of the
    clock that is next in state [st], as [_GetNumFramesOutstanding] counts
    them in binary64. *)
Abbreviation frames_since env st a :=
  (float_floordiv (float_sub (GetNowPrecise_at env (clock st))
                             (animation_started_precise a))
                  FRAME_DURATION_60FPS).

(** A draw object in order: an animated one has drawn no more frames than it
    has to, and is complete exactly when it has drawn them all. *)
Definition fade_ok (o : ThumbnailWaitingToBeDrawn) : Prop :=
  match animated o with
  | Some a =>
      0 ≤ num_frames_drawn a ≤ num_frames_to_draw a
      ∧ (_draw_complete o = true ↔ num_frames_drawn a = num_frames_to_draw a)
  | None => True
  end.

(** ** Keyboard moves *)

(** What a hit on [m] with neither ctrl nor shift leaves: [m] focused and
    the anchor of a new shift gesture, and the only selected item unless it
    was selected already. *)
Definition plainly_hit (st : MediaPanelThumbnails) (m : media)
    (st' : MediaPanelThumbnails) : Prop :=
  _sorted_media st' = _sorted_media st
  ∧ _focused_media st' = Some m
  ∧ _last_hit_media st' = Some m
  ∧ _selected_media st' = (if is_selected st m then _selected_media st else {[m]})
  ∧ _shift_select_started_with_this_media st' = Some m
  ∧ _media_added_in_current_shift_select st' = ∅.

(** * The system tray icon

    A shallow embedding of [hydrus/ClientGUISystemTray.py], class
    [ClientSystemTrayIcon]. The Qt objects the icon makes (menus and menu
    items) are named by numbers; what Qt holds for them is kept in the state
    beside the fields of the class. A method returns the state it leaves, or
    the exception it raises. *)

From Stdlib Require String.

Module SystemTray.

Import String.
Local Open Scope string_scope.

Abbreviation menu_item := nat.

Inductive menu_entry : Type :=
  | Item (item : menu_item)
  | Separator.

(** A [QMenu]: the object and what was appended to it, top to bottom. *)
Record QMenu : Type := {
  menu_object : nat;
  menu_entries : list menu_entry;
}.

Inductive signal : Type :=
  | flip_show_ui
  | flip_pause_network_jobs
  | flip_pause_subscription_jobs
  | highlight
  | exit_client.

(** [QSystemTrayIcon.ActivationReason] *)
Inductive activation_reason : Type :=
  | Unknown
  | Context_menu
  | DoubleClick
  | Trigger
  | MiddleClick.

Inductive tray_exn : Type :=
  | AttributeError.

Record ClientSystemTrayIcon : Type := {
  _ui_is_currently_shown : bool;
  _should_always_show : bool;
  _network_traffic_paused : bool;
  _subscriptions_paused : bool;
  _show_hide_menu_item : option menu_item;
  _network_traffic_menu_item : option menu_item;
  _subscriptions_paused_menu_item : option menu_item;
  _just_clicked_to_show : bool;
  isVisible : bool;  (* QSystemTrayIcon.isVisible() *)
  toolTip : string;  (* what setToolTip was last given *)
  contextMenu : option QMenu;  (* QSystemTrayIcon.contextMenu() *)
  item_text : gmap menu_item string;  (* QAction.text() of every menu item made *)
  destroyed_menus : list nat;  (* ClientGUIMenus.DestroyMenu *)
  next_object : nat;  (* the next Qt object made is this one *)
  emitted : list signal;  (* signals emitted, oldest first *)
}.

(** [set_f v st] is the state after [self.f = v], or the Qt call that sets [f]. *)

Definition set_ui_is_currently_shown v (st : ClientSystemTrayIcon) : ClientSystemTrayIcon :=
  let 'Build_ClientSystemTrayIcon ui always net subs i1 i2 i3 jc vis tip cm txt dm n em := st in
  Build_ClientSystemTrayIcon v always net subs i1 i2 i3 jc vis tip cm txt dm n em.

Definition set_should_always_show v (st : ClientSystemTrayIcon) : ClientSystemTrayIcon :=
  let 'Build_ClientSystemTrayIcon ui always net subs i1 i2 i3 jc vis tip cm txt dm n em := st in
  Build_ClientSystemTrayIcon ui v net subs i1 i2 i3 jc vis tip cm txt dm n em.

Definition set_network_traffic_paused v (st : ClientSystemTrayIcon) : ClientSystemTrayIcon :=
  let 'Build_ClientSystemTrayIcon ui always net subs i1 i2 i3 jc vis tip cm txt dm n em := st in
  Build_ClientSystemTrayIcon ui always v subs i1 i2 i3 jc vis tip cm txt dm n em.

Definition set_subscriptions_paused v (st : ClientSystemTrayIcon) : ClientSystemTrayIcon :=
  let 'Build_ClientSystemTrayIcon ui always net subs i1 i2 i3 jc vis tip cm txt dm n em := st in
  Build_ClientSystemTrayIcon ui always net v i1 i2 i3 jc vis tip cm txt dm n em.

Definition set_show_hide_menu_item v (st : ClientSystemTrayIcon) : ClientSystemTrayIcon :=
  let 'Build_ClientSystemTrayIcon ui always net subs i1 i2 i3 jc vis tip cm txt dm n em := st in
  Build_ClientSystemTrayIcon ui always net subs v i2 i3 jc vis tip cm txt dm n em.

Definition set_network_traffic_menu_item v (st : ClientSystemTrayIcon) : ClientSystemTrayIcon :=
  let 'Build_ClientSystemTrayIcon ui always net subs i1 i2 i3 jc vis tip cm txt dm n em := st in
  Build_ClientSystemTrayIcon ui always net subs i1 v i3 jc vis tip cm txt dm n em.

Definition set_subscriptions_paused_menu_item v (st : ClientSystemTrayIcon) : ClientSystemTrayIcon :=
  let 'Build_ClientSystemTrayIcon ui always net subs i1 i2 i3 jc vis tip cm txt dm n em := st in
  Build_ClientSystemTrayIcon ui always net subs i1 i2 v jc vis tip cm txt dm n em.

Definition set_just_clicked_to_show v (st : ClientSystemTrayIcon) : ClientSystemTrayIcon :=
  let 'Build_ClientSystemTrayIcon ui always net subs i1 i2 i3 jc vis tip cm txt dm n em := st in
  Build_ClientSystemTrayIcon ui always net subs i1 i2 i3 v vis tip cm txt dm n em.

Definition set_isVisible v (st : ClientSystemTrayIcon) : ClientSystemTrayIcon :=
  let 'Build_ClientSystemTrayIcon ui always net subs i1 i2 i3 jc vis tip cm txt dm n em := st in
  Build_ClientSystemTrayIcon ui always net subs i1 i2 i3 jc v tip cm txt dm n em.

Definition set_toolTip v (st : ClientSystemTrayIcon) : ClientSystemTrayIcon :=
  let 'Build_ClientSystemTrayIcon ui always net subs i1 i2 i3 jc vis tip cm txt dm n em := st in
  Build_ClientSystemTrayIcon ui always net subs i1 i2 i3 jc vis v cm txt dm n em.

Definition set_contextMenu v (st : ClientSystemTrayIcon) : ClientSystemTrayIcon :=
  let 'Build_ClientSystemTrayIcon ui always net subs i1 i2 i3 jc vis tip cm txt dm n em := st in
  Build_ClientSystemTrayIcon ui always net subs i1 i2 i3 jc vis tip v txt dm n em.

Definition set_item_text v (st : ClientSystemTrayIcon) : ClientSystemTrayIcon :=
  let 'Build_ClientSystemTrayIcon ui always net subs i1 i2 i3 jc vis tip cm txt dm n em := st in
  Build_ClientSystemTrayIcon ui always net subs i1 i2 i3 jc vis tip cm v dm n em.

Definition set_destroyed_menus v (st : ClientSystemTrayIcon) : ClientSystemTrayIcon :=
  let 'Build_ClientSystemTrayIcon ui always net subs i1 i2 i3 jc vis tip cm txt dm n em := st in
  Build_ClientSystemTrayIcon ui always net subs i1 i2 i3 jc vis tip cm txt v n em.

Definition set_next_object v (st : ClientSystemTrayIcon) : ClientSystemTrayIcon :=
  let 'Build_ClientSystemTrayIcon ui always net subs i1 i2 i3 jc vis tip cm txt dm n em := st in
  Build_ClientSystemTrayIcon ui always net subs i1 i2 i3 jc vis tip cm txt dm v em.

Definition set_emitted v (st : ClientSystemTrayIcon) : ClientSystemTrayIcon :=
  let 'Build_ClientSystemTrayIcon ui always net subs i1 i2 i3 jc vis tip cm txt dm n em := st in
  Build_ClientSystemTrayIcon ui always net subs i1 i2 i3 jc vis tip cm txt dm n v.

(** A method that returns nothing: the state it leaves, or what it raises. *)
Definition method : Type := ClientSystemTrayIcon → tray_exn + ClientSystemTrayIcon.

Definition and_then (c k : method) : method :=
  λ st, match c st with
        | inl e => inl e
        | inr st' => k st'
        end.

Local Infix ">>" := and_then (at level 60, right associativity).

Definition assign (f : ClientSystemTrayIcon → ClientSystemTrayIcon) : method :=
  λ st, inr (f st).

Definition emit (s : signal) : method :=
  assign (λ st, set_emitted (emitted st ++ [s])%list st).

(** ** Qt *)

(** [item.setText( label )]; [item] is a field that may hold [None]. *)
Definition setText (item : option menu_item) (label : string) : method :=
  λ st, match item with
        | Some i => inr (set_item_text (<[i := label]> (item_text st)) st)
        | None => inl AttributeError
        end.

(** [QW.QMenu( parent_widget )] *)
Definition new_QMenu (st : ClientSystemTrayIcon) : QMenu * ClientSystemTrayIcon :=
  ({| menu_object := next_object st; menu_entries := [] |},
   set_next_object (S (next_object st)) st).

(** [ClientGUIMenus.AppendMenuItem( m, label, description, callable )]: the
    menu with the item appended, and the item. *)
Definition AppendMenuItem (m : QMenu) (label : string) (st : ClientSystemTrayIcon)
    : QMenu * menu_item * ClientSystemTrayIcon :=
  let i := next_object st in
  ({| menu_object := menu_object m;
      menu_entries := (menu_entries m ++ [Item i])%list |},
   i,
   set_next_object (S i) (set_item_text (<[i := label]> (item_text st)) st)).

(** [ClientGUIMenus.AppendSeparator( m )] *)
Definition AppendSeparator (m : QMenu) : QMenu :=
  {| menu_object := menu_object m;
     menu_entries := (menu_entries m ++ [Separator])%list |}.

(** ** [ClientSystemTrayIcon] *)

Definition _UpdateNetworkTrafficMenuItemLabel : method :=
  λ st,
    let label := if _network_traffic_paused st
                 then "unpause network traffic" else "pause network traffic" in
    setText (_network_traffic_menu_item st) label st.

Definition _UpdateShowHideMenuItemLabel : method :=
  λ st,
    let label := if _ui_is_currently_shown st then "hide" else "show" in
    setText (_show_hide_menu_item st) label st.

Definition _UpdateSubscriptionsMenuItemLabel : method :=
  λ st,
    match _subscriptions_paused_menu_item st with
    | Some _ =>
        let label := if _subscriptions_paused st
                     then "unpause subscriptions" else "pause subscriptions" in
        setText (_subscriptions_paused_menu_item st) label st
    | None => inr st
    end.

(** [main_gui_title] is [new_options.GetString( 'main_gui_title' )]. The
    source tests [self.toolTip != tooltip] on the bound method [toolTip], not
    on the text it returns, so [setToolTip] is called every time. *)
Definition _UpdateTooltip (main_gui_title : option string) : method :=
  λ st,
    let title :=
      match main_gui_title with
      | None => "hydrus client"
      | Some title => if decide (title = "") then "hydrus client" else title
      end in
    let tooltip := title in
    let tooltip := if _network_traffic_paused st
                   then tooltip ++ " - network traffic paused" else tooltip in
    let tooltip := if _subscriptions_paused st
                   then tooltip ++ " - subscriptions paused" else tooltip in
    inr (set_toolTip tooltip st).

Definition _RegenerateMenu (main_gui_title : option string) : method :=
  λ st,
    let '(new_menu, st) := new_QMenu st in
    let '(new_menu, item, st) := AppendMenuItem new_menu "show/hide" st in
    (assign (set_show_hide_menu_item (Some item)) >>
     _UpdateShowHideMenuItemLabel >>
     (λ st,
        let new_menu := AppendSeparator new_menu in
        let '(new_menu, item, st) := AppendMenuItem new_menu "network traffic" st in
        (assign (set_network_traffic_menu_item (Some item)) >>
         _UpdateNetworkTrafficMenuItemLabel >>
         (λ st,
            let '(new_menu, item, st) := AppendMenuItem new_menu "subscriptions" st in
            (assign (set_subscriptions_paused_menu_item (Some item)) >>
             _UpdateSubscriptionsMenuItemLabel >>
             (λ st,
                let new_menu := AppendSeparator new_menu in
                let '(new_menu, _, st) := AppendMenuItem new_menu "exit" st in
                let old_menu := contextMenu st in
                (assign (set_contextMenu (Some new_menu)) >>
                 (match old_menu with
                  | Some old_menu =>
                      assign (λ st, set_destroyed_menus
                                      (destroyed_menus st ++ [menu_object old_menu])%list
                                      st)
                  | None => assign id
                  end) >>
                 _UpdateTooltip main_gui_title) st)) st)) st)) st.

(** The method answers whether it regenerated the menu. *)
Definition _UpdateShowSelf (main_gui_title : option string) (st : ClientSystemTrayIcon)
    : tray_exn + bool * ClientSystemTrayIcon :=
  let should_show := _should_always_show st || negb (_ui_is_currently_shown st) in
  if negb (Bool.eqb should_show (isVisible st)) then
    let st := set_isVisible should_show st in
    if should_show then
      (* apparently context menu needs to be regenerated on re-show *)
      match _RegenerateMenu main_gui_title st with
      | inl e => inl e
      | inr st => inr (true, st)
      end
    else inr (false, st)
  else inr (false, st).

Definition _WasActivated (reason : activation_reason) : method :=
  λ st,
    match reason with
    | Unknown | Trigger =>
        if _ui_is_currently_shown st then
          (assign (set_just_clicked_to_show false) >> emit highlight) st
        else
          (assign (set_just_clicked_to_show true) >> emit flip_show_ui) st
    | DoubleClick | MiddleClick =>
        if match reason with DoubleClick => true | _ => false end
           && _just_clicked_to_show st
        then inr st
        else emit flip_show_ui st
    | Context_menu => inr st
    end.

Definition SetNetworkTrafficPaused (main_gui_title : option string)
    (network_traffic_paused : bool) : method :=
  λ st,
    if negb (Bool.eqb network_traffic_paused (_network_traffic_paused st)) then
      (assign (set_network_traffic_paused network_traffic_paused) >>
       _UpdateNetworkTrafficMenuItemLabel >>
       _UpdateTooltip main_gui_title) st
    else inr st.

Definition SetSubscriptionsPaused (main_gui_title : option string)
    (subscriptions_paused : bool) : method :=
  λ st,
    if negb (Bool.eqb subscriptions_paused (_subscriptions_paused st)) then
      (assign (set_subscriptions_paused subscriptions_paused) >>
       _UpdateSubscriptionsMenuItemLabel >>
       _UpdateTooltip main_gui_title) st
    else inr st.

Definition SetUIIsCurrentlyShown (main_gui_title : option string)
    (ui_is_currently_shown : bool) : method :=
  λ st,
    if negb (Bool.eqb ui_is_currently_shown (_ui_is_currently_shown st)) then
      let st := set_ui_is_currently_shown ui_is_currently_shown st in
      match _UpdateShowSelf main_gui_title st with
      | inl e => inl e
      | inr (menu_regenerated, st) =>
          ((if negb menu_regenerated then _UpdateShowHideMenuItemLabel else assign id) >>
           (λ st, if negb (_ui_is_currently_shown st)
                  then assign (set_just_clicked_to_show false) st
                  else inr st)) st
      end
    else inr st.

Definition SetShouldAlwaysShow (main_gui_title : option string)
    (should_always_show : bool) : method :=
  λ st,
    if negb (Bool.eqb should_always_show (_should_always_show st)) then
      let st := set_should_always_show should_always_show st in
      match _UpdateShowSelf main_gui_title st with
      | inl e => inl e
      | inr (_, st) => inr st
      end
    else inr st.

(** [__init__]: a tray icon is made hidden, with no tooltip and no menu. *)
Definition new_ClientSystemTrayIcon (main_gui_title : option string)
    : tray_exn + ClientSystemTrayIcon :=
  _RegenerateMenu main_gui_title
    {| _ui_is_currently_shown := true;
       _should_always_show := false;
       _network_traffic_paused := false;
       _subscriptions_paused := false;
       _show_hide_menu_item := None;
       _network_traffic_menu_item := None;
       _subscriptions_paused_menu_item := None;
       _just_clicked_to_show := false;
       isVisible := false;
       toolTip := "";
       contextMenu := None;
       item_text := ∅;
       destroyed_menus := [];
       next_object := 0;
       emitted := [] |}.

(** ** The tray icon as a state machine *)

(** What the main window asks of the icon, and what the user does to it. *)
Inductive request : Type :=
  | NetworkTrafficPaused (network_traffic_paused : bool)
  | SubscriptionsPaused (subscriptions_paused : bool)
  | UIIsCurrentlyShown (ui_is_currently_shown : bool)
  | ShouldAlwaysShow (should_always_show : bool)
  | Activated (reason : activation_reason).

Definition serve (main_gui_title : option string) (r : request) : method :=
  match r with
  | NetworkTrafficPaused b => SetNetworkTrafficPaused main_gui_title b
  | SubscriptionsPaused b => SetSubscriptionsPaused main_gui_title b
  | UIIsCurrentlyShown b => SetUIIsCurrentlyShown main_gui_title b
  | ShouldAlwaysShow b => SetShouldAlwaysShow main_gui_title b
  | Activated reason => _WasActivated reason
  end.

(** The states the icon goes through, for one title option. *)
Inductive reachable (main_gui_title : option string) : ClientSystemTrayIcon → Prop :=
  | reachable_new st :
      new_ClientSystemTrayIcon main_gui_title = inr st → reachable main_gui_title st
  | reachable_serve r st st' :
      reachable main_gui_title st → serve main_gui_title r st = inr st' →
      reachable main_gui_title st'.

(** ** Statements *)

(** The tooltip the flags call for. *)
Definition tooltip_for (main_gui_title : option string) (st : ClientSystemTrayIcon)
    : string :=
  let title :=
    match main_gui_title with
    | None | Some "" => "hydrus client"
    | Some title => title
    end in
  match _network_traffic_paused st, _subscriptions_paused st with
  | false, false => title
  | true, false => title ++ " - network traffic paused"
  | false, true => title ++ " - subscriptions paused"
  | true, true => (title ++ " - network traffic paused") ++ " - subscriptions paused"
  end.

(** The four flags of the icon. *)
Definition flags (st : ClientSystemTrayIcon) : bool * bool * bool * bool :=
  (_ui_is_currently_shown st, _should_always_show st, _network_traffic_paused st,
   _subscriptions_paused st).

(** The label of a menu item. *)
Definition label_of (st : ClientSystemTrayIcon) (item : option menu_item)
    : option string :=
  match item with
  | Some i => item_text st !! i
  | None => None
  end.

(** The labels of the entries of the context menu, top to bottom; [None]
    stands for a separator. *)
Definition menu_labels (st : ClientSystemTrayIcon) : list (option string) :=
  match contextMenu st with
  | Some m =>
      (λ e, match e with
            | Item i => item_text st !! i
            | Separator => None
            end) <$> menu_entries m
  | None => []
  end.

(** The icon mirrors its flags: the menu reads as the flags call for, the
    icon shows exactly when it should, and the tooltip names what is
    paused. *)
Record tray_ok (main_gui_title : option string) (st : ClientSystemTrayIcon) : Prop := {
  tray_menu :
    menu_labels st
    = [Some (if _ui_is_currently_shown st then "hide" else "show");
       None;
       Some (if _network_traffic_paused st
             then "unpause network traffic" else "pause network traffic");
       Some (if _subscriptions_paused st
             then "unpause subscriptions" else "pause subscriptions");
       None;
       Some "exit"];
  tray_items :
    ∃ m a b c d,
      contextMenu st = Some m
      ∧ menu_entries m = [Item a; Separator; Item b; Item c; Separator; Item d]
      ∧ _show_hide_menu_item st = Some a
      ∧ _network_traffic_menu_item st = Some b
      ∧ _subscriptions_paused_menu_item st = Some c
      ∧ NoDup [a; b; c; d];
  tray_visible :
    isVisible st = _should_always_show st || negb (_ui_is_currently_shown st);
  tray_tooltip : toolTip st = tooltip_for main_gui_title st;
}.

(** What serving a request changes: a setter sets its flag and leaves the
    other three, emits no signal, and forgets the click that asked for the
    window when the window gets hidden; an activation changes no flag. *)
Definition served (r : request) (st st' : ClientSystemTrayIcon) : Prop :=
  match r with
  | NetworkTrafficPaused v =>
      flags st' = (_ui_is_currently_shown st, _should_always_show st, v,
                   _subscriptions_paused st)
      ∧ emitted st' = emitted st
      ∧ _just_clicked_to_show st' = _just_clicked_to_show st
  | SubscriptionsPaused v =>
      flags st' = (_ui_is_currently_shown st, _should_always_show st,
                   _network_traffic_paused st, v)
      ∧ emitted st' = emitted st
      ∧ _just_clicked_to_show st' = _just_clicked_to_show st
  | UIIsCurrentlyShown v =>
      flags st' = (v, _should_always_show st, _network_traffic_paused st,
                   _subscriptions_paused st)
      ∧ emitted st' = emitted st
      ∧ _just_clicked_to_show st'
        = (if Bool.eqb v (_ui_is_currently_shown st) then _just_clicked_to_show st
           else v && _just_clicked_to_show st)
  | ShouldAlwaysShow v =>
      flags st' = (_ui_is_currently_shown st, v, _network_traffic_paused st,
                   _subscriptions_paused st)
      ∧ emitted st' = emitted st
      ∧ _just_clicked_to_show st' = _just_clicked_to_show st
  | Activated _ => flags st' = flags st
  end.

(** ** An example *)

Definition example_title : option string := Some "hydrus".

(** The icon of a client titled "hydrus". *)
Definition example_tray : ClientSystemTrayIcon :=
  match new_ClientSystemTrayIcon example_title with
  | inr st => st
  | inl _ =>
      Build_ClientSystemTrayIcon true false false false None None None false false ""
        None ∅ [] 0 []
  end.

(** The same icon after the window was hidden. *)
Definition example_tray_hidden : ClientSystemTrayIcon :=
  match serve example_title (UIIsCurrentlyShown false) example_tray with
  | inr st => st
  | inl _ => example_tray
  end.

(** The state a list of requests leaves the icon in. *)
Fixpoint serve_all (main_gui_title : option string) (rs : list request)
    (st : ClientSystemTrayIcon) : tray_exn + ClientSystemTrayIcon :=
  match rs with
  | [] => inr st
  | r :: rs' =>
      match serve main_gui_title r st with
      | inl e => inl e
      | inr st' => serve_all main_gui_title rs' st'
      end
  end.

End SystemTray.

(** * The selection in order, and the start of a drag *)

(** ** [MediaPanel._GetSelectedMediaOrdered] *)

(** The order of [sorted( ..., key = ... )] on the items with their keys. *)
Definition key_le (x y : nat * media) : Prop := (x.1 ≤ y.1)%nat.

#[global] Instance key_le_dec (x y : nat * media) : Decision (key_le x y) :=
  decide (x.1 ≤ y.1)%nat.

(** [sorted( self._selected_media, key = lambda m: self._sorted_media.index( m ) )]:
    the key of every item is computed, then the items are sorted by key. *)
Definition _GetSelectedMediaOrdered : M (list media) :=
  st ← get;
  keyed ← map_M (λ m, key ← or_raise DataMissing (list_index m (_sorted_media st));
                      ret (key, m))
                (elements (_selected_media st));
  ret (merge_sort key_le keyed).*2.

(** ** [MediaPanelThumbnails]: the drag fields *)

Record drag_state : Type := {
  _drag_init_coordinates : option (Z * Z);
  _drag_click_timestamp_ms : Z;
  _drag_prefire_event_count : Z;
}.

(** The drag fields as [MediaPanelThumbnails.__init__] sets them. *)
Definition new_drag_state : drag_state :=
  {| _drag_init_coordinates := None;
     _drag_click_timestamp_ms := 0;
     _drag_prefire_event_count := 0 |}.

(** What a mouse move event carries and reads: whether the left button is
    held, [QG.QCursor.pos()], what [HydrusTime.TimeHasPassedMS] answers, and
    the number of local files in the selection. *)
Record move_event : Type := {
  left_button : bool;
  global_mouse_pos : Z * Z;
  TimeHasPassedMS : Z → bool;
  num_selected_local : nat;
}.

(** The drag fields after [_InnerWidget.mousePressEvent]; [cursor_pos] is
    [QG.QCursor.pos()] and [now_ms] is [HydrusTime.GetNowMS()]. *)
Definition mousePressEvent_drag (cursor_pos : Z * Z) (now_ms : Z) (st : drag_state)
    : drag_state :=
  {| _drag_init_coordinates := Some cursor_pos;
     _drag_click_timestamp_ms := now_ms;
     _drag_prefire_event_count := _drag_prefire_event_count st |}.

(** [_InnerWidget.mousePressEvent] on both parts of the panel: the two writes
    to the drag fields, then the rest of the handler. *)
Definition InnerWidget_mousePressEvent (env : Env) (cursor_pos : Z * Z) (now_ms : Z)
    (x y : Z) (right_button ctrl shift : bool)
    (st : MediaPanelThumbnails * drag_state)
    : exn + unit * (MediaPanelThumbnails * drag_state) :=
  let drag := mousePressEvent_drag cursor_pos now_ms st.2 in
  match mousePressEvent env x y right_button ctrl shift st.1 with
  | inr (_, st') => inr (tt, (st', drag))
  | inl e => inl e
  end.

(** [mouseMoveEvent]: the drag fields it leaves, and whether it called
    [ClientGUIDragDrop.DoFileExportDragDrop]. *)
Definition mouseMoveEvent (ev : move_event) (st : drag_state) : drag_state * bool :=
  if left_button ev then
    match _drag_init_coordinates st with
    | Some old_drag_pos =>
        let delta_pos := ((global_mouse_pos ev).1 - old_drag_pos.1,
                          (global_mouse_pos ev).2 - old_drag_pos.2) in
        let total_absolute_pixels_moved := Z.abs delta_pos.1 + Z.abs delta_pos.2 in
        let we_moved := bool_decide (0 < total_absolute_pixels_moved) in
        let st :=
          if we_moved
          then {| _drag_init_coordinates := _drag_init_coordinates st;
                  _drag_click_timestamp_ms := _drag_click_timestamp_ms st;
                  _drag_prefire_event_count := _drag_prefire_event_count st + 1 |}
          else st in
        let clean_drag_started := bool_decide (10 ≤ _drag_prefire_event_count st) in
        let prob_not_an_accidental_click :=
          TimeHasPassedMS ev (_drag_click_timestamp_ms st + 100) in
        if clean_drag_started && prob_not_an_accidental_click then
          (st, bool_decide (0 < num_selected_local ev)%nat)
        else (st, false)
    | None => (st, false)
    end
  else
    ({| _drag_init_coordinates := None;
        _drag_click_timestamp_ms := 0;
        _drag_prefire_event_count := 0 |}, false).

(** The mouse events of the panel that touch the drag fields. *)
Inductive mouse_event : Type :=
  | Press (cursor_pos : Z * Z) (now_ms : Z)
  | Move (ev : move_event).

Definition mouse_event_step (e : mouse_event) (st : drag_state) : drag_state * bool :=
  match e with
  | Press cursor_pos now_ms => (mousePressEvent_drag cursor_pos now_ms st, false)
  | Move ev => mouseMoveEvent ev st
  end.

(** A run of mouse events: the drag fields it leaves and, for each event,
    whether it started a drag. *)
Fixpoint mouse_events (evs : list mouse_event) (st : drag_state)
    : drag_state * list bool :=
  match evs with
  | [] => (st, [])
  | e :: evs' =>
      let '(st1, started) := mouse_event_step e st in
      let '(st2, rest) := mouse_events evs' st1 in
      (st2, started :: rest)
  end.

(** The moves of a run with the left button held. *)
Definition is_left_move (e : mouse_event) : bool :=
  match e with
  | Move ev => left_button ev
  | Press _ _ => false
  end.

Definition is_move (e : mouse_event) : bool :=
  match e with
  | Move _ => true
  | Press _ _ => false
  end.

(** A move of the mouse to [pos] with the left button held, some local file
    selected, at a time when every deadline has passed. *)
Definition example_move (pos : Z * Z) : mouse_event :=
  Move {| left_button := true; global_mouse_pos := pos;
          TimeHasPassedMS := λ _, true; num_selected_local := 1 |}.

(** A press at the origin and ten moves away from it. *)
Definition example_drag : list mouse_event :=
  Press (0, 0) 0 :: map (λ x, example_move (x, 0)) [1; 2; 3; 4; 5; 6; 7; 8; 9; 10].

(** ** More examples *)

(** The example panel 30 ms into the fades of items 11 and 13. *)
Definition example_fading : MediaPanelThumbnails := set_clock 30 example_selected.

(** The animation of [example_entry]. *)
Definition example_animation : animation :=
  {| num_frames_drawn := 0; num_frames_to_draw := 30;
     animation_started_precise := 3 # 1000 |}.

(** * Lemmas *)

(** ** The calculus of returning methods *)

Lemma wp_returns {A} (c : M A) st Q :
  wp c st Q ↔ ∃ a st', c st = inr (a, st') ∧ Q a st'.
Proof.
  unfold wp. split.
  - destruct (c st) as [e|[a st']]; [tauto|]. eauto.
  - intros (a & st' & -> & HQ). exact HQ.
Qed.

Lemma wp_returns_unit (c : M unit) st (Q : unit → MediaPanelThumbnails → Prop) :
  wp c st Q → ∃ st', c st = inr (tt, st') ∧ Q tt st'.
Proof. intros ([] & st' & ? & ?)%wp_returns. eauto. Qed.

Lemma wp_bind {A B} (c : M A) (k : A → M B) st Q :
  wp c st (λ a st', wp (k a) st' Q) → wp (bind c k) st Q.
Proof. unfold wp, bind. destruct (c st) as [e|[a st']]; auto. Qed.

Lemma wp_bind_inv {A B} (c : M A) (k : A → M B) st Q :
  wp (bind c k) st Q → wp c st (λ a st', wp (k a) st' Q).
Proof. unfold wp, bind. destruct (c st) as [e|[a st']]; auto. Qed.

Lemma wp_mono {A} (c : M A) st (Q Q' : A → MediaPanelThumbnails → Prop) :
  wp c st Q → (∀ a st', Q a st' → Q' a st') → wp c st Q'.
Proof. unfold wp. destruct (c st) as [e|[a st']]; auto. Qed.

Lemma wp_ret {A} (a : A) st (Q : A → MediaPanelThumbnails → Prop) :
  Q a st → wp (ret a) st Q.
Proof. auto. Qed.

Lemma wp_get st (Q : MediaPanelThumbnails → MediaPanelThumbnails → Prop) :
  Q st st → wp get st Q.
Proof. auto. Qed.

Lemma wp_modify f st (Q : unit → MediaPanelThumbnails → Prop) :
  Q tt (f st) → wp (modify f) st Q.
Proof. auto. Qed.

Lemma wp_lift {A} (r : exn + A) a st (Q : A → MediaPanelThumbnails → Prop) :
  r = inr a → Q a st → wp (lift r) st Q.
Proof. intros ->. auto. Qed.

Lemma wp_or_raise {A} e (o : option A) a st (Q : A → MediaPanelThumbnails → Prop) :
  o = Some a → Q a st → wp (or_raise e o) st Q.
Proof. intros ->. auto. Qed.

Lemma wp_conj {A} (c : M A) st (Q Q' : A → MediaPanelThumbnails → Prop) :
  wp c st Q → wp c st Q' → wp c st (λ a st', Q a st' ∧ Q' a st').
Proof. unfold wp. destruct (c st) as [e|[a st']]; auto. Qed.

Lemma wp_for_each {A} (I : MediaPanelThumbnails → Prop) (l : list A) body st :
  I st →
  (∀ x st, x ∈ l → I st → wp (body x) st (λ _, I)) →
  wp (for_each l body) st (λ _, I).
Proof.
  revert st. induction l as [|x l IH]; intros st HI Hbody; simpl.
  - exact HI.
  - apply wp_bind. eapply wp_mono; [apply Hbody; [left|exact HI]|].
    intros ? st' HI'. apply IH; [exact HI'|].
    intros y st'' Hy. apply Hbody. by right.
Qed.

Lemma floordiv_ok a b : b ≠ 0 → floordiv a b = inr (a / b).
Proof. intros. unfold floordiv. by rewrite decide_False. Qed.

Lemma pymod_ok a b : b ≠ 0 → pymod a b = inr (a mod b).
Proof. intros. unfold pymod. by rewrite decide_False. Qed.

(** ** Python lists *)

Lemma getitem_nonneg (l : list media) (i : Z) :
  0 ≤ i → getitem l i = l !! Z.to_nat i.
Proof. intros. unfold getitem. by rewrite decide_True. Qed.

Lemma getitem_in_range (l : list media) (i : Z) :
  0 ≤ i < Z.of_nat (length l) → is_Some (getitem l i).
Proof.
  intros [? ?]. rewrite getitem_nonneg by done.
  apply lookup_lt_is_Some. lia.
Qed.

Lemma elem_of_range a b x : x ∈ range a b ↔ a ≤ x < b.
Proof.
  unfold range. rewrite list_elem_of_fmap. split.
  - intros (k & -> & Hk). apply elem_of_seq in Hk. lia.
  - intros ?. exists (Z.to_nat (x - a)). split; [lia|].
    apply elem_of_seq. lia.
Qed.

Lemma list_index_Some x l i : list_index x l = Some i → l !! i = Some x.
Proof.
  revert i. induction l as [|y l IH]; intros i; simpl; [done|].
  case_decide as Hxy.
  - intros [= <-]. by subst.
  - destruct (list_index x l) as [j|]; simpl; [|done].
    intros [= <-]. simpl. by apply IH.
Qed.

Lemma list_index_is_Some x l : x ∈ l → is_Some (list_index x l).
Proof.
  induction l as [|y l IH]; simpl; [by intros ?%elem_of_nil|].
  intros Hx. case_decide; [by eexists|].
  apply elem_of_cons in Hx as [?|Hx]; [done|].
  destruct (IH Hx) as [j ->]. by eexists.
Qed.

Lemma list_index_first x l i j :
  list_index x l = Some i → (j < i)%nat → l !! j ≠ Some x.
Proof.
  revert i j. induction l as [|y l IH]; intros i j; simpl; [done|].
  case_decide as Hxy.
  - intros [= <-]. lia.
  - destruct (list_index x l) as [k|] eqn:Hk; simpl; [|done].
    intros [= <-] Hj. destruct j as [|j]; simpl.
    + congruence.
    + eapply IH; [done|lia].
Qed.

(** ** Pure loops *)

Lemma wp_map_M_pure {A B} (f : A → M B) (l : list A) st
    (Q : list B → MediaPanelThumbnails → Prop) :
  (∀ x, x ∈ l → ∃ y, f x st = inr (y, st)) →
  (∀ ys, Q ys st) →
  wp (map_M f l) st Q.
Proof.
  intros Hf HQ. cut (∃ ys, map_M f l st = inr (ys, st)).
  { intros [ys Hys]. unfold wp. rewrite Hys. apply HQ. }
  clear HQ. induction l as [|x l IH]; simpl; [by eexists|].
  destruct (Hf x) as [y Hy]; [left|].
  destruct IH as [ys Hys]; [intros; apply Hf; by right|].
  exists (y :: ys). unfold bind. rewrite Hy, Hys. done.
Qed.

Lemma wp_filter_M_pure {A} (test : A → M bool) (l : list A) st
    (Q : list A → MediaPanelThumbnails → Prop) :
  (∀ x, x ∈ l → ∃ b, test x st = inr (b, st)) →
  (∀ l', l' ⊆ l → Q l' st) →
  wp (filter_M test l) st Q.
Proof.
  intros Hf HQ. cut (∃ l', filter_M test l st = inr (l', st) ∧ l' ⊆ l).
  { intros (l' & Hl' & Hsub). unfold wp. rewrite Hl'. by apply HQ. }
  clear HQ. induction l as [|x l IH]; simpl; [by exists []|].
  destruct (Hf x) as [b Hb]; [left|].
  destruct IH as (l' & Hl' & Hsub); [intros; apply Hf; by right|].
  exists (if b then x :: l' else l'). unfold bind. rewrite Hb, Hl'. split; [done|].
  destruct b; set_solver.
Qed.

Lemma wp_any_M_pure {A} (test : A → M bool) (l : list A) st
    (Q : bool → MediaPanelThumbnails → Prop) :
  (∀ x, x ∈ l → ∃ b, test x st = inr (b, st)) →
  (∀ b, Q b st) →
  wp (any_M test l) st Q.
Proof.
  intros Hf HQ. cut (∃ b, any_M test l st = inr (b, st)).
  { intros (b & Hb). unfold wp. rewrite Hb. by apply HQ. }
  clear HQ. induction l as [|x l IH]; simpl; [by eexists|].
  destruct (Hf x) as [b Hb]; [left|].
  destruct IH as (b' & Hb'); [intros; apply Hf; by right|].
  unfold bind. rewrite Hb. destruct b; eauto.
Qed.

(** ** The page cache *)

Lemma wp_GetPageIndexFromThumbnailIndex i st Q :
  geom_ok st →
  Q (i / (_num_columns st * _num_rows_per_canvas_page st)) st →
  wp (_GetPageIndexFromThumbnailIndex i) st Q.
Proof.
  intros [? ?] HQ. unfold _GetPageIndexFromThumbnailIndex, wp, bind, get, lift.
  rewrite floordiv_ok by nia. exact HQ.
Qed.

Lemma wp_GetThumbnailsFromPageIndex page_index st Q :
  geom_ok st → 0 ≤ page_index →
  (∀ l, Q l st) →
  wp (_GetThumbnailsFromPageIndex page_index) st Q.
Proof.
  intros [? ?] Hp HQ. unfold _GetThumbnailsFromPageIndex.
  apply wp_bind, wp_get. case_decide; [|by apply wp_ret].
  apply wp_map_M_pure; [|done].
  intros index [? ?]%elem_of_range.
  destruct (getitem_in_range (_sorted_media st) index) as [m Hm]; [nia|].
  exists (index, m). unfold bind, or_raise. by rewrite Hm.
Qed.

Lemma wp_DirtyPage clean_index canvas_page st Q :
  geom_ok st → 0 ≤ clean_index →
  _clean_canvas_pages st !! clean_index = Some canvas_page →
  Q tt (set_dirty_canvas_pages (_dirty_canvas_pages st ++ [canvas_page])
          (set_clean_canvas_pages (delete clean_index (_clean_canvas_pages st)) st)) →
  wp (_DirtyPage clean_index) st Q.
Proof.
  intros Hgeom Hi Hc HQ. unfold _DirtyPage.
  apply wp_bind, wp_get. eapply wp_bind, wp_or_raise; [exact Hc|].
  apply wp_bind, wp_modify. apply wp_bind.
  apply wp_GetThumbnailsFromPageIndex; [exact Hgeom|exact Hi|].
  intros l. apply wp_modify. exact HQ.
Qed.

Lemma lookup_foldl_delete (m : gmap Z canvas) (ks : list Z) (j : Z) :
  foldl (λ m k, delete k m) m ks !! j = if decide (j ∈ ks) then None else m !! j.
Proof.
  revert m. induction ks as [|k ks IH]; intros m; simpl.
  - destruct (decide (j ∈ [])) as [Hj|Hj]; [by apply elem_of_nil in Hj|done].
  - rewrite IH.
    destruct (decide (j ∈ ks)) as [Hj|Hj], (decide (j ∈ k :: ks)) as [Hj'|Hj']; try done.
    + exfalso. set_solver.
    + destruct (decide (j = k)) as [->|Hne]; [by rewrite lookup_delete_eq|set_solver].
    + rewrite lookup_delete_ne; [done|set_solver].
Qed.

Lemma wp_dirty_pages (L : list (Z * canvas)) st Q :
  geom_ok st → NoDup L.*1 →
  (∀ k c, (k, c) ∈ L → _clean_canvas_pages st !! k = Some c ∧ 0 ≤ k) →
  Q tt (set_dirty_canvas_pages (_dirty_canvas_pages st ++ L.*2)
          (set_clean_canvas_pages
             (foldl (λ m k, delete k m) (_clean_canvas_pages st) L.*1) st)) →
  wp (for_each L.*1 _DirtyPage) st Q.
Proof.
  revert st. induction L as [|[k c] L IH]; intros st Hgeom Hnd HL HQ; simpl.
  - simpl in HQ. rewrite app_nil_r in HQ. by destruct st.
  - apply NoDup_cons in Hnd as [Hk Hnd].
    destruct (HL k c) as [Hc Hk0]; [left|].
    apply wp_bind. eapply wp_DirtyPage; [done..|].
    apply IH; [done|done| |].
    + intros k' c' Hin. simpl. destruct (HL k' c') as [? ?]; [by right|].
      split; [|done]. rewrite lookup_delete_ne; [done|].
      intros <-. apply Hk. apply list_elem_of_fmap. by exists (k, c').
    + simpl. simpl in HQ. by rewrite <- app_assoc.
Qed.

Lemma foldl_delete_all (m : gmap Z canvas) :
  foldl (λ m k, delete k m) m (map_to_list m).*1 = ∅.
Proof.
  apply map_eq. intros j. rewrite lookup_foldl_delete, lookup_empty.
  case_decide as Hj; [done|].
  destruct (m !! j) as [c|] eqn:Hc; [|done].
  exfalso. apply Hj. apply list_elem_of_fmap. exists (j, c). split; [done|].
  by apply elem_of_map_to_list.
Qed.

Lemma wp_DirtyAllPages st Q :
  geom_ok st → (∀ i c, _clean_canvas_pages st !! i = Some c → 0 ≤ i) →
  Q tt (set_dirty_canvas_pages
          (_dirty_canvas_pages st ++ (map_to_list (_clean_canvas_pages st)).*2)
          (set_clean_canvas_pages ∅ st)) →
  wp _DirtyAllPages st Q.
Proof.
  intros Hgeom Hnn HQ. unfold _DirtyAllPages. apply wp_bind, wp_get.
  apply wp_dirty_pages; [done|apply NoDup_fst_map_to_list| |].
  - intros k c Hin%elem_of_map_to_list. eauto.
  - by rewrite foldl_delete_all.
Qed.

Lemma cache_ok_same st st' :
  layout st' = layout st → pools st' = pools st → cache_ok st → cache_ok st'.
Proof.
  unfold layout, pools. intros [= Hc Hr _ _ _] [= Hcl Hd Hn] [[? ?] Hnn Hnd Hal].
  split; unfold geom_ok, pool in *; rewrite ?Hc, ?Hr, ?Hcl, ?Hd, ?Hn; auto.
Qed.

Lemma fades_only_refl st : fades_only st st.
Proof. by repeat split. Qed.

Lemma fades_only_trans st1 st2 st3 :
  fades_only st1 st2 → fades_only st2 st3 → fades_only st1 st3.
Proof. intros (?&?&?) (?&?&?). repeat split; congruence. Qed.

Lemma fades_only_geom st st' : fades_only st st' → geom_ok st → geom_ok st'.
Proof.
  intros (_ & [= Hc Hr _ _ _] & _). unfold geom_ok. by rewrite Hc, Hr.
Qed.

Lemma wp_StopFading h st Q :
  (∀ st', fades_only st st' → Q tt st') → wp (_StopFading h) st Q.
Proof.
  intros HQ. unfold _StopFading. apply wp_bind, wp_get.
  case_decide; [apply wp_modify|apply wp_ret]; apply HQ; by repeat split.
Qed.

Lemma wp_GetNowPrecise env st Q :
  Q (GetNowPrecise_at env (clock st)) (set_clock (S (clock st)) st) →
  wp (GetNowPrecise env) st Q.
Proof. auto. Qed.

Lemma wp_fades_only {A} (c : M A) st st0 (Q : A → MediaPanelThumbnails → Prop) :
  fades_only st0 st →
  wp c st (λ a st', fades_only st st' ∧ (fades_only st0 st' → Q a st')) →
  wp c st Q.
Proof.
  intros H0 Hc. eapply wp_mono; [exact Hc|].
  intros a st' [H1 H2]. apply H2. by eapply fades_only_trans.
Qed.


(** ** Repainting leaves the selection alone *)

Ltac views :=
  repeat match goal with
  | H : selection _ = selection _ |- _ => unfold selection in H; injection H as ????????
  | H : layout _ = layout _ |- _ => unfold layout in H; injection H as ?????
  | H : pools _ = pools _ |- _ => unfold pools in H; injection H as ???
  | H : focus_state _ = focus_state _ |- _ => unfold focus_state in H; injection H as ??????
  | H : fades_only _ _ |- _ => destruct H as (?&?&?)
  end.

Lemma geom_ok_layout st st' : layout st' = layout st → geom_ok st → geom_ok st'.
Proof. intros [= Hc Hr _ _ _]. unfold geom_ok. by rewrite Hc, Hr. Qed.

Lemma cache_ok_dirty_all st :
  cache_ok st →
  cache_ok (set_dirty_canvas_pages
              (_dirty_canvas_pages st ++ (map_to_list (_clean_canvas_pages st)).*2)
              (set_clean_canvas_pages ∅ st)).
Proof.
  intros [Hg Hnn Hnd Hal].
  assert (pool (set_dirty_canvas_pages
              (_dirty_canvas_pages st ++ (map_to_list (_clean_canvas_pages st)).*2)
              (set_clean_canvas_pages ∅ st)) ≡ₚ pool st) as Hperm.
  { unfold pool. simpl. rewrite map_to_list_empty. simpl. apply Permutation_app_comm. }
  split.
  - exact Hg.
  - simpl. intros i c. by rewrite lookup_empty.
  - by rewrite Hperm.
  - intros c. rewrite Hperm. apply Hal.
Qed.

Lemma wp_fade_thumbnail env thumbnail st Q :
  geom_ok st →
  (∀ st', fades_only st st' → Q tt st') →
  wp (fade_thumbnail env thumbnail) st Q.
Proof.
  intros Hgeom HQ. unfold fade_thumbnail.
  destruct (GetDisplayHash env thumbnail) as [h|];
    [|by apply wp_ret, HQ, fades_only_refl].
  apply wp_bind, wp_get.
  destruct (list_index thumbnail (_sorted_media st)) as [i|];
    [|by apply wp_ret, HQ, fades_only_refl].
  apply wp_bind, wp_GetPageIndexFromThumbnailIndex; [done|].
  case_decide; [|by apply wp_ret, HQ, fades_only_refl].
  apply wp_bind, wp_modify, wp_bind, wp_StopFading. intros st2 H2.
  apply wp_bind.
  destruct (fade_thumbnails env).
  - unfold new_ThumbnailWaitingToBeDrawnAnimated.
    apply wp_bind, wp_GetNowPrecise, wp_ret, wp_modify, HQ.
    eapply fades_only_trans; [|eapply fades_only_trans; [exact H2|]]; by repeat split.
  - apply wp_ret, wp_modify, HQ.
    eapply fades_only_trans; [|eapply fades_only_trans; [exact H2|]]; by repeat split.
Qed.

Lemma wp_FadeThumbnails env thumbnails st Q :
  cache_ok st →
  (∀ st', selection st' = selection st → layout st' = layout st → cache_ok st' →
          Q tt st') →
  wp (_FadeThumbnails env thumbnails) st Q.
Proof.
  intros Hok HQ. unfold _FadeThumbnails.
  case_decide; [by apply wp_ret, HQ|].
  destruct (IsCurrentPage env); simpl.
  - apply wp_bind, wp_GetNowPrecise.
    set (st1 := set_clock _ st).
    eapply wp_mono.
    + apply (wp_for_each (λ st', fades_only st st')); [by repeat split|].
      intros t st2 _ H2. apply wp_fade_thumbnail.
      * eapply fades_only_geom; [exact H2|apply Hok].
      * intros st3 H3. by eapply fades_only_trans.
    + intros [] st' (Hs & Hl & Hp).
      apply HQ; [done|done|]. by eapply cache_ok_same.
  - apply wp_DirtyAllPages; [apply Hok|apply Hok|].
    apply HQ; [done|done|by apply cache_ok_dirty_all].
Qed.

Lemma MediaIsInCleanPage_pure thumbnail st :
  geom_ok st → ∃ b, _MediaIsInCleanPage thumbnail st = inr (b, st).
Proof.
  intros [? ?]. unfold _MediaIsInCleanPage, bind, get.
  destruct (list_index thumbnail (_sorted_media st)) as [i|]; [|by eexists].
  unfold _GetPageIndexFromThumbnailIndex, bind, get, lift.
  rewrite floordiv_ok by nia. by eexists.
Qed.

Lemma wp_RedrawMedia env thumbnails st Q :
  cache_ok st →
  (∀ st', selection st' = selection st → layout st' = layout st → cache_ok st' →
          Q tt st') →
  wp (_RedrawMedia env thumbnails) st Q.
Proof.
  intros Hok HQ. unfold _RedrawMedia. apply wp_bind.
  apply wp_filter_M_pure.
  { intros t _. apply MediaIsInCleanPage_pure, Hok. }
  intros visible _. case_decide; [|by apply wp_ret, HQ].
  by apply wp_FadeThumbnails.
Qed.

Lemma wp_PublishSelectionChange env tags_changed st Q :
  (∀ st', selection st' = selection st → layout st' = layout st →
          pools st' = pools st → Q tt st') →
  wp (_PublishSelectionChange env tags_changed) st Q.
Proof.
  intros HQ. unfold _PublishSelectionChange. apply wp_bind, wp_get.
  destruct (IsCurrentPage env).
  - destruct (tags_changed || _); [apply wp_modify|apply wp_ret]; by apply HQ.
  - destruct tags_changed; [apply wp_modify|apply wp_ret]; by apply HQ.
Qed.

(** ** Selecting and deselecting *)

Lemma lookup_set_flags b l flags m :
  set_flags b l flags !! m = if decide (m ∈ l) then Some b else flags !! m.
Proof.
  unfold set_flags. revert flags. induction l as [|x l IH]; intros flags; simpl.
  - destruct (decide (m ∈ [])) as [Hm|Hm]; [by apply elem_of_nil in Hm|done].
  - rewrite IH.
    destruct (decide (m ∈ l)) as [Hm|Hm], (decide (m ∈ x :: l)) as [Hm'|Hm']; try done.
    + exfalso. set_solver.
    + destruct (decide (m = x)) as [->|Hne]; [by rewrite lookup_insert_eq|set_solver].
    + rewrite lookup_insert_ne; [done|set_solver].
Qed.

Lemma wp_for_each_Select l st Q :
  Q tt (set_selected (set_flags true l (_selected st)) st) →
  wp (for_each l Select) st Q.
Proof.
  revert st. induction l as [|m l IH]; intros st HQ; simpl.
  - by destruct st.
  - apply wp_bind. unfold Select at 1. apply wp_modify, IH. exact HQ.
Qed.

Lemma wp_for_each_Deselect l st Q :
  Q tt (set_selected (set_flags false l (_selected st)) st) →
  wp (for_each l Deselect) st Q.
Proof.
  revert st. induction l as [|m l IH]; intros st HQ; simpl.
  - by destruct st.
  - apply wp_bind. unfold Deselect at 1. apply wp_modify, IH. exact HQ.
Qed.

Lemma wp_DeselectSelect env media_to_deselect media_to_select st Q :
  cache_ok st →
  (∀ st', cache_ok st' → layout st' = layout st → focus_state st' = focus_state st →
          _selected_media st' =
            (_selected_media st ∖ list_to_set media_to_deselect)
              ∪ list_to_set media_to_select →
          _selected st' =
            set_flags true media_to_select
              (set_flags false media_to_deselect (_selected st)) →
          Q tt st') →
  wp (_DeselectSelect env media_to_deselect media_to_select) st Q.
Proof.
  intros Hok HQ. unfold _DeselectSelect.
  apply wp_bind.
  apply (wp_mono _ _ (λ _ st1,
    cache_ok st1 ∧ layout st1 = layout st ∧ focus_state st1 = focus_state st ∧
    _selected_media st1 = _selected_media st ∖ list_to_set media_to_deselect ∧
    _selected st1 = set_flags false media_to_deselect (_selected st))).
  { case_decide as Hlen.
    - apply wp_bind, wp_for_each_Deselect, wp_bind, wp_RedrawMedia.
      { eapply cache_ok_same; [| |exact Hok]; done. }
      intros st1 Hs Hl Hok1. apply wp_modify.
      split; [by eapply cache_ok_same; [| |exact Hok1]|].
      views. simpl in *. unfold layout, focus_state. simpl.
      repeat split; congruence.
    - apply wp_ret. destruct media_to_deselect; [|simpl in Hlen; lia].
      split; [exact Hok|]. do 2 (split; [done|]).
      split; [simpl; by rewrite difference_empty_L|done]. }
  intros [] st1 (Hok1 & Hl1 & Hf1 & Hs1 & Hfl1).
  apply wp_bind.
  apply (wp_mono _ _ (λ _ st2,
    cache_ok st2 ∧ layout st2 = layout st ∧ focus_state st2 = focus_state st ∧
    _selected_media st2 =
      (_selected_media st ∖ list_to_set media_to_deselect) ∪ list_to_set media_to_select ∧
    _selected st2 =
      set_flags true media_to_select (set_flags false media_to_deselect (_selected st)))).
  { case_decide as Hlen.
    - apply wp_bind, wp_for_each_Select, wp_bind, wp_RedrawMedia.
      { eapply cache_ok_same; [| |exact Hok1]; done. }
      intros st2 Hs Hl Hok2. apply wp_modify.
      split; [by eapply cache_ok_same; [| |exact Hok2]|].
      views. simpl in *. unfold layout, focus_state. simpl.
      repeat split; congruence.
    - apply wp_ret. destruct media_to_select; [|simpl in Hlen; lia].
      split; [exact Hok1|]. do 2 (split; [done|]).
      split; [simpl; by rewrite union_empty_r_L|done]. }
  intros [] st2 (Hok2 & Hl2 & Hf2 & Hs2 & Hfl2).
  apply wp_PublishSelectionChange. intros st3 Hs Hl Hp.
  views. apply HQ.
  - eapply cache_ok_same; [| |exact Hok2]; unfold layout, pools; congruence.
  - unfold layout; congruence.
  - unfold focus_state; congruence.
  - congruence.
  - congruence.
Qed.

(** ** Focus *)

Lemma next_best_walk_spec sorted_media selected_media i m :
  sorted_media !! i = Some m →
  next_best_walk sorted_media selected_media i m
  = inr (nearest_unselected sorted_media selected_media i).
Proof.
  unfold nearest_unselected. revert m. induction i as [|i IH]; intros m Hm.
  - rewrite (take_S_r _ _ _ Hm). simpl. rewrite filter_cons, filter_nil.
    destruct (decide (m ∈ selected_media)), (decide (m ∉ selected_media));
      simpl; try done.
  - rewrite (take_S_r _ _ _ Hm), filter_app, filter_cons, filter_nil. simpl.
    destruct (lookup_lt_is_Some_2 sorted_media i) as [m' Hm'].
    { apply lookup_lt_Some in Hm. lia. }
    rewrite Hm'.
    destruct (decide (m ∈ selected_media)), (decide (m ∉ selected_media));
      try done.
    + rewrite app_nil_r. by apply IH.
    + by rewrite last_snoc.
Qed.

Lemma nearest_unselected_Some sorted_media selected_media i m :
  nearest_unselected sorted_media selected_media i = Some m ↔
  ∃ j, (j ≤ i)%nat ∧ sorted_media !! j = Some m ∧ (m ∉ selected_media) ∧
       ∀ k x, (j < k ≤ i)%nat → sorted_media !! k = Some x → x ∈ selected_media.
Proof.
  unfold nearest_unselected. revert m. induction i as [|i IH]; intros m.
  - destruct sorted_media as [|x l]; simpl.
    + split; [done|]. by intros (j & _ & ? & _).
    + rewrite take_0, filter_cons, filter_nil.
      destruct (decide (x ∉ selected_media)) as [Hx|Hx]; simpl.
      * split.
        -- intros [= <-]. exists 0%nat. split_and!; [lia|done|done|intros; lia].
        -- intros (j & Hj & Hm & _). assert (j = 0%nat) as -> by lia.
           simpl in Hm. congruence.
      * split; [done|]. intros (j & Hj & Hm & Hn & _).
        assert (j = 0%nat) as -> by lia. simpl in Hm. injection Hm as <-.
        by destruct Hx.
  - destruct (sorted_media !! S i) as [x|] eqn:Hx.
    + rewrite (take_S_r _ _ _ Hx), filter_app, filter_cons, filter_nil.
      destruct (decide (x ∉ selected_media)) as [Hsel|Hsel].
      * rewrite last_snoc. split.
        -- intros [= <-]. exists (S i). split_and!; [lia|done|done|intros; lia].
        -- intros (j & Hj & Hm & Hn & Hall).
           destruct (decide (j = S i)) as [->|]; [congruence|].
           exfalso. apply Hsel. apply (Hall (S i) x); [lia|done].
      * rewrite app_nil_r, IH. split.
        -- intros (j & Hj & Hm & Hn & Hall). exists j. split_and!; [lia|done|done|].
           intros k y Hk Hy. destruct (decide (k = S i)) as [->|].
           ++ rewrite Hx in Hy. injection Hy as <-.
              by destruct (decide (x ∈ selected_media)).
           ++ apply (Hall k); [lia|done].
        -- intros (j & Hj & Hm & Hn & Hall).
           assert (j ≠ S i).
           { intros ->. rewrite Hx in Hm. injection Hm as <-. by destruct Hsel. }
           exists j. split_and!; [lia|done|done|].
           intros k y Hk. apply Hall. lia.
    + apply lookup_ge_None in Hx.
      rewrite take_ge by lia. rewrite <- (take_ge sorted_media (S i)) at 1 by lia.
      rewrite IH. split.
      * intros (j & Hj & Hm & Hn & Hall). exists j. split_and!; [lia|done|done|].
        intros k y Hk Hy. destruct (decide (k = S i)) as [->|].
        -- apply lookup_lt_Some in Hy. lia.
        -- apply (Hall k); [lia|done].
      * intros (j & Hj & Hm & Hn & Hall).
        assert (j ≠ S i). { intros ->. apply lookup_lt_Some in Hm. lia. }
        exists j. split_and!; [lia|done|done|]. intros k y Hk. apply Hall. lia.
Qed.

Lemma nearest_unselected_None sorted_media selected_media i :
  nearest_unselected sorted_media selected_media i = None ↔
  ∀ k x, (k ≤ i)%nat → sorted_media !! k = Some x → x ∈ selected_media.
Proof.
  unfold nearest_unselected. rewrite last_None. split.
  - intros Hnil k x Hk Hx.
    destruct (decide (x ∈ selected_media)) as [|Hn]; [done|].
    assert (x ∈ filter (λ m, m ∉ selected_media) (take (S i) sorted_media)) as Hin.
    { apply list_elem_of_filter. split; [done|].
      apply list_elem_of_lookup. exists k. rewrite lookup_take_lt by lia. done. }
    rewrite Hnil in Hin. by apply elem_of_nil in Hin.
  - intros Hall.
    destruct (filter _ _) as [|x l] eqn:Hf; [done|].
    assert (x ∈ filter (λ m, m ∉ selected_media) (take (S i) sorted_media)) as Hin.
    { rewrite Hf. left. }
    apply list_elem_of_filter in Hin as [Hn Hin].
    apply list_elem_of_lookup in Hin as [k Hk].
    apply lookup_take_Some in Hk as [Hk ?].
    exfalso. apply Hn. apply (Hall k); [lia|done].
Qed.

Lemma wp_SetFocusedMedia m st Q :
  (∀ focused, m = None → _focused_media st = Some focused →
              focused ∈ _sorted_media st) →
  Q tt (set_last_hit_media m
          (set_focused_media m
             (set_next_best_media_if_focuses_removed (fallback_focus m st) st))) →
  wp (_SetFocusedMedia m) st Q.
Proof.
  intros Hin HQ. unfold _SetFocusedMedia, fallback_focus in *.
  apply wp_bind, wp_get.
  destruct m as [m|].
  - apply wp_bind, wp_modify, wp_bind, wp_modify, wp_modify. exact HQ.
  - destruct (_focused_media st) as [focused|] eqn:Hf.
    + destruct (list_index_is_Some focused (_sorted_media st)) as [i Hi]; [by apply Hin|].
      rewrite Hi in HQ. simpl in HQ.
      apply wp_bind, wp_bind. eapply wp_or_raise; [exact Hi|].
      apply wp_bind. eapply wp_lift.
      { apply next_best_walk_spec. by apply list_index_Some. }
      apply wp_modify, wp_bind, wp_modify, wp_modify. exact HQ.
    + apply wp_bind, wp_modify, wp_bind, wp_modify, wp_modify. exact HQ.
Qed.

Lemma wp_EndShiftSelect st Q :
  Q tt (set_media_added_in_current_shift_select ∅
          (set_shift_select_started_with_this_media None st)) →
  wp _EndShiftSelect st Q.
Proof. auto. Qed.

Lemma wp_StartShiftSelect m st Q :
  Q tt (set_media_added_in_current_shift_select ∅
          (set_shift_select_started_with_this_media (Some m) st)) →
  wp (_StartShiftSelect m) st Q.
Proof. auto. Qed.

(** ** Hits *)

Lemma is_selected_flag_after des sel st st' x :
  _selected st' = set_flags true sel (set_flags false des (_selected st)) →
  is_selected st' x = flag_after des sel st x.
Proof.
  intros Hfl. unfold is_selected, flag_after. rewrite Hfl, !lookup_set_flags.
  by repeat case_decide.
Qed.

Lemma elem_of_flagged_in_sequence st x :
  x ∈ flagged_in_sequence st ↔ x ∈ _sorted_media st ∧ is_selected st x = true.
Proof.
  unfold flagged_in_sequence. rewrite elem_of_list_to_set, list_elem_of_filter. tauto.
Qed.

Lemma selection_consistent_alt st :
  selection_consistent st ↔
  ∀ x, x ∈ _selected_media st ↔ x ∈ _sorted_media st ∧ is_selected st x = true.
Proof.
  unfold selection_consistent. rewrite set_eq.
  by setoid_rewrite elem_of_flagged_in_sequence.
Qed.

(** A deselect/select pass on items of the sequence keeps the selection set
    and the flags in step. *)
Lemma consistent_after_DeselectSelect des sel st st' :
  selection_consistent st →
  _sorted_media st' = _sorted_media st →
  (∀ x, x ∈ sel → x ∈ _sorted_media st) →
  _selected_media st' = (_selected_media st ∖ list_to_set des) ∪ list_to_set sel →
  _selected st' = set_flags true sel (set_flags false des (_selected st)) →
  selection_consistent st'.
Proof.
  rewrite !selection_consistent_alt. intros Hc Hs Hsel Hm Hfl x.
  rewrite (is_selected_flag_after _ _ _ _ _ Hfl), Hs, Hm.
  rewrite elem_of_union, elem_of_difference, !elem_of_list_to_set, Hc.
  unfold flag_after. specialize (Hsel x).
  repeat case_decide; split; try tauto; naive_solver.
Qed.

Lemma wp_hit_plain env m ctrl shift st Q :
  cache_ok st →
  ctrl && negb shift = false →
  shift = false ∨ _shift_select_started_with_this_media st = None →
  (∀ st' des sel,
     (des, sel) = (if is_selected st m then ([], [])
                   else (elements (_selected_media st), [m])) →
     cache_ok st' → layout st' = layout st →
     _sorted_media st' = _sorted_media st →
     _selected_media st' = (_selected_media st ∖ list_to_set des) ∪ list_to_set sel →
     _selected st' = set_flags true sel (set_flags false des (_selected st)) →
     _focused_media st' = Some m → _last_hit_media st' = Some m →
     _next_best_media_if_focuses_removed st' = None →
     _shift_select_started_with_this_media st' = Some m →
     _media_added_in_current_shift_select st' = ∅ →
     Q tt st') →
  wp (hit_media env m ctrl shift) st Q.
Proof.
  intros Hok Hctrl Hshift HQ. unfold hit_media. apply wp_bind, wp_get.
  rewrite Hctrl.
  assert (∀ c : M unit,
    wp c st (λ _ st1, ∃ des sel,
      (des, sel) = (if is_selected st m then ([], [])
                    else (elements (_selected_media st), [m])) ∧
      cache_ok st1 ∧ layout st1 = layout st ∧ focus_state st1 = focus_state st ∧
      _selected_media st1 = (_selected_media st ∖ list_to_set des) ∪ list_to_set sel ∧
      _selected st1 = set_flags true sel (set_flags false des (_selected st))) →
    wp (c ;; _SetFocusedMedia (Some m) ;; _StartShiftSelect m) st Q) as Hrest.
  { intros c Hc. apply wp_bind. eapply wp_mono; [exact Hc|].
    intros [] st1 (des & sel & Hds & Hok1 & Hl1 & Hf1 & Hs1 & Hfl1).
    apply wp_bind, wp_SetFocusedMedia; [done|]. apply wp_StartShiftSelect.
    views. simpl in *.
    eapply HQ; try done; simpl; try done.
    - eapply cache_ok_same; [| |exact Hok1]; done.
    - unfold layout. simpl. congruence. }
  assert (wp (if negb (is_selected st m)
              then _DeselectSelect env (elements (_selected_media st)) [m]
              else _PublishSelectionChange env false) st
            (λ _ st1, ∃ des sel,
      (des, sel) = (if is_selected st m then ([], [])
                    else (elements (_selected_media st), [m])) ∧
      cache_ok st1 ∧ layout st1 = layout st ∧ focus_state st1 = focus_state st ∧
      _selected_media st1 = (_selected_media st ∖ list_to_set des) ∪ list_to_set sel ∧
      _selected st1 = set_flags true sel (set_flags false des (_selected st)))) as Hc.
  { destruct (is_selected st m); simpl.
    - apply wp_PublishSelectionChange. intros st1 Hs Hl Hp.
      exists [], []. split; [done|].
      split; [by eapply cache_ok_same|]. split; [done|].
      views. unfold focus_state. simpl.
      split_and!; [congruence| |congruence].
      simpl. set_solver.
    - apply wp_DeselectSelect; [done|]. intros st1 Hok1 Hl1 Hf1 Hs1 Hfl1.
      by exists (elements (_selected_media st)), [m]. }
  destruct shift, (_shift_select_started_with_this_media st) as [a|] eqn:Ha;
    try (by apply Hrest).
  destruct Hshift; done.
Qed.

Lemma wp_hit_shift env m ctrl st started i j Q :
  cache_ok st →
  _shift_select_started_with_this_media st = Some started →
  list_index started (_sorted_media st) = Some i →
  list_index m (_sorted_media st) = Some j →
  (∀ st',
     cache_ok st' → layout st' = layout st →
     _sorted_media st' = _sorted_media st →
     _selected_media st' =
       (_selected_media st ∖ list_to_set (shift_deselects st i j))
         ∪ list_to_set (shift_selects st i j) →
     _selected st' =
       set_flags true (shift_selects st i j)
         (set_flags false (shift_deselects st i j) (_selected st)) →
     _media_added_in_current_shift_select st' =
       (_media_added_in_current_shift_select st ∖ list_to_set (shift_deselects st i j))
         ∪ list_to_set (shift_selects st i j) →
     _shift_select_started_with_this_media st' = Some started →
     _focused_media st' =
       (if focus_it env (focus_preview_on_shift_click env)
                        (focus_preview_on_shift_click_only_static env) m
        then Some m else _focused_media st) →
     _last_hit_media st' = Some m →
     Q tt st') →
  wp (hit_media env m ctrl true) st Q.
Proof.
  intros Hok Ha Hi Hj HQ. unfold hit_media. apply wp_bind, wp_get.
  rewrite andb_false_r, Ha.
  apply wp_bind. eapply wp_or_raise; [exact Hi|].
  apply wp_bind. eapply wp_or_raise; [exact Hj|].
  assert ((if decide (i < j)%nat
           then list_to_set (slice i (j + 1) (_sorted_media st))
           else list_to_set (slice j (i + 1) (_sorted_media st)))
          = items_between st i j) as ->.
  { unfold items_between. case_decide.
    - by rewrite Nat.min_l, Nat.max_r by lia.
    - by rewrite Nat.min_r, Nat.max_l by lia. }
  fold (shift_deselects st i j). fold (shift_selects st i j).
  apply wp_bind, wp_modify, wp_bind, wp_modify, wp_bind.
  apply wp_DeselectSelect.
  { eapply cache_ok_same; [| |exact Hok]; done. }
  intros st1 Hok1 Hl1 Hf1 Hs1 Hfl1. views. simpl in *.
  destruct (focus_it env _ _ m).
  - apply wp_SetFocusedMedia; [done|].
    eapply HQ; simpl; try done; try congruence.
    + eapply cache_ok_same; [| |exact Hok1]; done.
    + unfold layout. simpl. congruence.
  - apply wp_modify.
    eapply HQ; simpl; try done; try congruence.
    + eapply cache_ok_same; [| |exact Hok1]; done.
    + unfold layout. simpl. congruence.
Qed.

Lemma wp_hit_ctrl env m st Q :
  cache_ok st →
  (∀ focused, _focused_media st = Some focused → focused ∈ _sorted_media st) →
  (∀ st' des sel,
     (des, sel) = (if is_selected st m then ([m], []) else ([], [m])) →
     cache_ok st' → layout st' = layout st →
     _sorted_media st' = _sorted_media st →
     _selected_media st' = (_selected_media st ∖ list_to_set des) ∪ list_to_set sel →
     _selected st' = set_flags true sel (set_flags false des (_selected st)) →
     _media_added_in_current_shift_select st' = ∅ →
     _shift_select_started_with_this_media st' =
       (if is_selected st m then None else Some m) →
     _focused_media st' =
       (if is_selected st m
        then (if decide (_focused_media st = Some m) then None else _focused_media st)
        else if focus_it env (focus_preview_on_ctrl_click env)
                             (focus_preview_on_ctrl_click_only_static env) m
             then Some m else _focused_media st) →
     Q tt st') →
  wp (hit_media env m true false) st Q.
Proof.
  intros Hok Hfoc HQ. unfold hit_media. apply wp_bind, wp_get. simpl.
  destruct (is_selected st m).
  - apply wp_bind, wp_DeselectSelect; [done|].
    intros st1 Hok1 Hl1 Hf1 Hs1 Hfl1. apply wp_bind, wp_get, wp_bind.
    views. destruct (decide (_focused_media st1 = Some m)) as [Hfm|Hfm].
    + apply wp_SetFocusedMedia.
      { intros f _ Hf. replace (_sorted_media st1) with (_sorted_media st) by congruence.
        apply Hfoc. congruence. }
      apply wp_EndShiftSelect.
      eapply (HQ _ [m] []); simpl; try done; try congruence.
      * eapply cache_ok_same; [| |exact Hok1]; done.
      * unfold layout. simpl. congruence.
      * rewrite decide_True; [done|congruence].
    + apply wp_ret, wp_EndShiftSelect.
      eapply (HQ _ [m] []); simpl; try done; try congruence.
      * eapply cache_ok_same; [| |exact Hok1]; done.
      * unfold layout. simpl. congruence.
      * rewrite decide_False; congruence.
  - apply wp_bind, wp_DeselectSelect; [done|].
    intros st1 Hok1 Hl1 Hf1 Hs1 Hfl1. apply wp_bind.
    views. destruct (focus_it env _ _ m).
    + apply wp_SetFocusedMedia; [done|]. apply wp_StartShiftSelect.
      eapply (HQ _ [] [m]); simpl; try done; try congruence.
      * eapply cache_ok_same; [| |exact Hok1]; done.
      * unfold layout. simpl. congruence.
    + apply wp_modify, wp_StartShiftSelect.
      eapply (HQ _ [] [m]); simpl; try done; try congruence.
      * eapply cache_ok_same; [| |exact Hok1]; done.
      * unfold layout. simpl. congruence.
Qed.

(** ** The invariant under hits *)

Lemma elem_of_slice (l : list media) (i j : nat) x :
  x ∈ slice i j l ↔ ∃ k, (i ≤ k < j)%nat ∧ l !! k = Some x.
Proof.
  unfold slice. rewrite list_elem_of_lookup. split.
  - intros (k & Hk). apply lookup_take_Some in Hk as [Hk ?].
    rewrite lookup_drop in Hk. exists (i + k)%nat. split; [lia|done].
  - intros (k & Hk & Hx). exists (k - i)%nat.
    rewrite lookup_take_lt by lia. rewrite lookup_drop.
    by replace (i + (k - i))%nat with k by lia.
Qed.

Lemma elem_of_items_between st i j x :
  x ∈ items_between st i j ↔
  ∃ k, (i `min` j ≤ k ≤ i `max` j)%nat ∧ _sorted_media st !! k = Some x.
Proof.
  unfold items_between. rewrite elem_of_list_to_set, elem_of_slice.
  split; intros (k & ? & ?); exists k; (split; [lia|done]).
Qed.

Lemma items_between_sorted st i j x :
  x ∈ items_between st i j → x ∈ _sorted_media st.
Proof.
  intros (k & _ & Hk)%elem_of_items_between. apply list_elem_of_lookup. eauto.
Qed.

Lemma elem_of_shift_selects st i j x :
  x ∈ shift_selects st i j ↔ x ∈ items_between st i j ∧ is_selected st x = false.
Proof.
  unfold shift_selects. rewrite list_elem_of_filter, elem_of_elements. tauto.
Qed.


Lemma wp_hit_media_ok env m ctrl shift st Q :
  panel_ok st → m ∈ _sorted_media st →
  (∀ st', panel_ok st' → layout st' = layout st →
          _sorted_media st' = _sorted_media st → Q tt st') →
  wp (hit_media env m ctrl shift) st Q.
Proof.
  intros [Hsel Hfoc Hanc Hok] Hm HQ.
  destruct (ctrl && negb shift) eqn:Hctrl.
  - apply andb_true_iff in Hctrl as [-> Hs]. apply negb_true_iff in Hs as ->.
    apply wp_hit_ctrl; [done|done|].
    intros st' des sel Hds Hok' Hl Hs Hsm Hfl Hadd Hanc' Hfoc'.
    apply HQ; [|done|done]. split; [| | |done].
    + eapply consistent_after_DeselectSelect; [done|done| |done|done].
      intros x Hx. destruct (is_selected st m); injection Hds as -> ->.
      * by apply elem_of_nil in Hx.
      * apply list_elem_of_singleton in Hx as ->. done.
    + intros x. rewrite Hfoc', Hs.
      destruct (is_selected st m); [case_decide|destruct (focus_it _ _ _ _)];
        try done; try apply Hfoc. by intros [= <-].
    + intros x. rewrite Hanc', Hs. destruct (is_selected st m); [done|].
      by intros [= <-].
  - destruct shift, (_shift_select_started_with_this_media st) as [a|] eqn:Ha.
    + destruct (list_index_is_Some a (_sorted_media st)) as [i Hi]; [by apply Hanc|].
      destruct (list_index_is_Some m (_sorted_media st)) as [j Hj]; [done|].
      eapply wp_hit_shift; [done..|].
      intros st' Hok' Hl Hs Hsm Hfl Hadd Hanc' Hfoc' Hlast.
      apply HQ; [|done|done]. split; [| | |done].
      * eapply consistent_after_DeselectSelect; [done|done| |done|done].
        intros x [Hx _]%elem_of_shift_selects. by eapply items_between_sorted.
      * intros x. rewrite Hfoc', Hs. destruct (focus_it _ _ _ _); [|apply Hfoc].
        by intros [= <-].
      * intros x. rewrite Hanc', Hs. intros [= <-]. by apply Hanc.
    + apply wp_hit_plain; [done|done|by right|].
      intros st' des sel Hds Hok' Hl Hs Hsm Hfl Hfoc' _ _ Hanc' _.
      apply HQ; [|done|done]. split; [| | |done].
      * eapply consistent_after_DeselectSelect; [done|done| |done|done].
        intros x Hx. destruct (is_selected st m); injection Hds as -> ->.
        -- by apply elem_of_nil in Hx.
        -- apply list_elem_of_singleton in Hx as ->. done.
      * intros x. rewrite Hfoc', Hs. by intros [= <-].
      * intros x. rewrite Hanc', Hs. by intros [= <-].
    + apply wp_hit_plain; [done|done|by left|].
      intros st' des sel Hds Hok' Hl Hs Hsm Hfl Hfoc' _ _ Hanc' _.
      apply HQ; [|done|done]. split; [| | |done].
      * eapply consistent_after_DeselectSelect; [done|done| |done|done].
        intros x Hx. destruct (is_selected st m); injection Hds as -> ->.
        -- by apply elem_of_nil in Hx.
        -- apply list_elem_of_singleton in Hx as ->. done.
      * intros x. rewrite Hfoc', Hs. by intros [= <-].
      * intros x. rewrite Hanc', Hs. by intros [= <-].
    + apply wp_hit_plain; [done|done|by left|].
      intros st' des sel Hds Hok' Hl Hs Hsm Hfl Hfoc' _ _ Hanc' _.
      apply HQ; [|done|done]. split; [| | |done].
      * eapply consistent_after_DeselectSelect; [done|done| |done|done].
        intros x Hx. destruct (is_selected st m); injection Hds as -> ->.
        -- by apply elem_of_nil in Hx.
        -- apply list_elem_of_singleton in Hx as ->. done.
      * intros x. rewrite Hfoc', Hs. by intros [= <-].
      * intros x. rewrite Hanc', Hs. by intros [= <-].
Qed.

(** ** The invariant under select-by-filter and remove *)

Lemma GetMediaCoordinates_pure env m st :
  geom_ok st → ∃ xy, _GetMediaCoordinates env m st = inr (xy, st).
Proof.
  intros [? ?]. unfold _GetMediaCoordinates, bind, get, lift.
  destruct (list_index m (_sorted_media st)) as [i|]; [|by eexists].
  rewrite floordiv_ok, pymod_ok by lia.
  destruct (_GetThumbnailSpanDimensions env). by eexists.
Qed.

Lemma MediaIsVisible_pure env m st :
  geom_ok st → ∃ b, _MediaIsVisible env m st = inr (b, st).
Proof.
  intros Hg. destruct m as [m|]; [|by eexists]. unfold _MediaIsVisible, bind.
  destruct (GetMediaCoordinates_pure env m st Hg) as [[x y] ->].
  destruct (_GetThumbnailSpanDimensions env). by eexists.
Qed.

Lemma wp_ScrollToMedia env m st Q :
  geom_ok st → Q tt st → wp (_ScrollToMedia env m) st Q.
Proof.
  intros Hg HQ. destruct m as [m|]; [|done]. unfold _ScrollToMedia, wp, bind.
  by destruct (GetMediaCoordinates_pure env m st Hg) as [[x y] ->].
Qed.

Lemma wp_Select env matching_media st Q :
  panel_ok st →
  (∀ m, m ∈ matching_media → m ∈ _sorted_media st) →
  (∀ st', panel_ok st' → layout st' = layout st →
          _sorted_media st' = _sorted_media st →
          _selected_media st' = matching_media → Q tt st') →
  wp (_Select env matching_media) st Q.
Proof.
  intros [Hsel Hfoc Hanc Hok] Hmatch HQ. unfold _Select. apply wp_bind, wp_get.
  set (move_focus := match _focused_media st with
                     | Some focused => bool_decide (focused ∈ _selected_media st ∖ matching_media)
                     | None => true end).
  set (started_deselected := match _shift_select_started_with_this_media st with
                             | Some started => bool_decide (started ∈ _selected_media st ∖ matching_media)
                             | None => false end).
  apply wp_bind.
  apply (wp_mono _ _ (λ _ st1,
    cache_ok st1 ∧ layout st1 = layout st ∧
    _sorted_media st1 = _sorted_media st ∧ _selected_media st1 = _selected_media st ∧
    _selected st1 = _selected st ∧ _focused_media st1 = _focused_media st ∧
    (∀ m, _shift_select_started_with_this_media st1 = Some m → m ∈ _sorted_media st))).
  { destruct (move_focus || started_deselected).
    - apply wp_EndShiftSelect. split_and!; try done.
      eapply cache_ok_same; [| |exact Hok]; done.
    - apply wp_ret. by split_and!. }
  intros [] st1 (Hok1 & Hl1 & Hs1 & Hsm1 & Hfl1 & Hf1 & Hanc1).
  apply wp_bind, wp_DeselectSelect; [done|].
  intros st2 Hok2 Hl2 Hf2 Hsm2 Hfl2. views.
  assert (_selected_media st2 = matching_media) as Hsel2.
  { rewrite Hsm2, Hsm1, !list_to_set_elements_L. apply set_eq. intros x.
    rewrite elem_of_union, !elem_of_difference.
    destruct (decide (x ∈ _selected_media st)), (decide (x ∈ matching_media)); tauto. }
  assert (panel_ok st2) as Hpanel2.
  { split; [| | |done].
    - eapply (consistent_after_DeselectSelect
                (elements (_selected_media st ∖ matching_media))
                (elements (matching_media ∖ _selected_media st)) st);
        [done|congruence| | |].
      + intros x. rewrite elem_of_elements, elem_of_difference. intros [? _]. auto.
      + rewrite Hsm2. by rewrite Hsm1.
      + rewrite Hfl2. by rewrite Hfl1.
    - intros x Hx. replace (_sorted_media st2) with (_sorted_media st) by congruence.
      apply Hfoc. congruence.
    - intros x Hx. replace (_sorted_media st2) with (_sorted_media st) by congruence.
      apply Hanc1. congruence. }
  assert (layout st2 = layout st) as Hlay2 by (unfold layout; congruence).
  assert (_sorted_media st2 = _sorted_media st) as Hsort2 by congruence.
  destruct move_focus; [|by apply wp_ret, HQ].
  apply wp_bind, wp_get. case_decide as Hsize.
  - apply wp_SetFocusedMedia; [intros f _; apply Hpanel2|].
    apply HQ; [|done|done|done].
    destruct Hpanel2 as [Hc2 Hfc2 Ha2 Hk2].
    split; [| | |eapply cache_ok_same; [| |exact Hk2]; done].
    + rewrite selection_consistent_alt in *. intros x. by rewrite <- Hc2.
    + done.
    + exact Ha2.
  - apply wp_bind. apply wp_any_M_pure.
    { intros x _. apply MediaIsVisible_pure, Hok2. }
    intros [|]; [by apply wp_ret, HQ|].
    destruct (filter _ _) as [|m l] eqn:Hfilter; [by apply wp_ret, HQ|].
    assert (m ∈ _sorted_media st2 ∧ m ∈ _selected_media st2) as [Hm Hmsel].
    { assert (m ∈ m :: l) as Hin by left. rewrite <- Hfilter in Hin.
      apply list_elem_of_filter in Hin. tauto. }
    apply wp_bind.
    (* the hit found the item selected, and leaves the selection as it is *)
    apply wp_hit_plain; [done|done|by left|].
    intros st3 des sel Hds Hok3 Hl3 Hs3 Hsm3 Hfl3 Hfoc3 _ _ Hanc3 _.
    assert (is_selected st2 m = true) as Hflag.
    { destruct Hpanel2 as [Hc2 _ _ _]. rewrite selection_consistent_alt in Hc2.
      by apply Hc2. }
    rewrite Hflag in Hds. injection Hds as -> ->.
    apply wp_ScrollToMedia; [apply Hok3|].
    apply HQ; [|congruence|congruence|].
    + split; [| | |done].
      * eapply (consistent_after_DeselectSelect [] [] st2);
          [apply Hpanel2|done| |done|done].
        intros x Hx. by apply elem_of_nil in Hx.
      * intros x. rewrite Hfoc3, Hs3. by intros [= <-].
      * intros x. rewrite Hanc3, Hs3. by intros [= <-].
    + rewrite Hsm3. simpl. set_solver.
Qed.

Lemma wp_HitMedia env m ctrl shift st Q :
  panel_ok st → (∀ x, m = Some x → x ∈ _sorted_media st) →
  (∀ st', panel_ok st' → layout st' = layout st →
          _sorted_media st' = _sorted_media st → Q tt st') →
  wp (_HitMedia env m ctrl shift) st Q.
Proof.
  intros Hok Hm HQ. destruct m as [m|]; simpl.
  - apply wp_hit_media_ok; [done|by apply Hm|done].
  - destruct (negb ctrl && negb shift); [|by apply wp_ret, HQ].
    apply wp_bind, wp_Select; [done|set_solver|].
    intros st1 [Hc1 Hf1 Ha1 Hk1] Hl1 Hs1 _.
    apply wp_bind, wp_SetFocusedMedia; [intros f _; apply Hf1|].
    apply wp_EndShiftSelect. apply HQ; [|done|done].
    split; [| | |eapply cache_ok_same; [| |exact Hk1]; done].
    + rewrite selection_consistent_alt in *. intros x. by rewrite <- Hc1.
    + done.
    + done.
Qed.

Lemma wp_RecalculateVirtualSize env st Q :
  geom_ok st → yUnit env ≠ 0 → Q tt st → wp (_RecalculateVirtualSize env) st Q.
Proof.
  intros [? ?] Hy HQ. unfold _RecalculateVirtualSize.
  case_decide; [|done]. unfold wp, bind, get, lift.
  destruct (_GetThumbnailSpanDimensions env).
  rewrite floordiv_ok, pymod_ok by lia. by rewrite pymod_ok by done.
Qed.

Lemma wp_RemoveMediaDirectly env singleton_media collected_media st Q :
  panel_ok st → yUnit env ≠ 0 →
  (∀ st', panel_ok st' → layout st' = layout st →
          _sorted_media st' =
            filter (λ m, m ∉ singleton_media ∪ collected_media) (_sorted_media st) →
          _next_best_media_if_focuses_removed st' =
            match _focused_media st with
            | Some focused =>
                if bool_decide (focused ∈ singleton_media)
                   || bool_decide (focused ∈ collected_media)
                then fallback_focus None st
                else _next_best_media_if_focuses_removed st
            | None => _next_best_media_if_focuses_removed st
            end →
          Q tt st') →
  wp (_RemoveMediaDirectly env singleton_media collected_media) st Q.
Proof.
  intros [Hsel Hfoc Hanc Hok] Hy HQ. unfold _RemoveMediaDirectly.
  apply wp_bind, wp_get. apply wp_bind.
  apply (wp_mono _ _ (λ _ st1,
    layout st1 = layout st ∧ pools st1 = pools st ∧
    _sorted_media st1 = _sorted_media st ∧ _selected_media st1 = _selected_media st ∧
    _selected st1 = _selected st ∧
    (∀ m, _focused_media st1 = Some m →
          _focused_media st = Some m ∧ m ∉ singleton_media ∪ collected_media) ∧
    _next_best_media_if_focuses_removed st1 =
      match _focused_media st with
      | Some focused =>
          if bool_decide (focused ∈ singleton_media)
             || bool_decide (focused ∈ collected_media)
          then fallback_focus None st
          else _next_best_media_if_focuses_removed st
      | None => _next_best_media_if_focuses_removed st
      end)).
  { destruct (_focused_media st) as [f|] eqn:Hf;
      [|apply wp_ret; split_and!; try done; intros m Hm; congruence].
    destruct (bool_decide (f ∈ singleton_media) || bool_decide (f ∈ collected_media))
      eqn:Hrem.
    - apply wp_SetFocusedMedia; [intros x _ Hx; apply Hfoc; congruence|]. simpl.
      split_and!; try done.
    - apply wp_ret. split_and!; try done. intros m Hm. rewrite Hf in Hm.
      injection Hm as <-. split; [done|].
      apply orb_false_iff in Hrem as [Hr1%bool_decide_eq_false Hr2%bool_decide_eq_false].
      by apply not_elem_of_union. }
  intros [] st1 (Hl1 & Hp1 & Hs1 & Hsm1 & Hfl1 & Hf1 & Hnb1).
  apply wp_bind. unfold MediaList_RemoveMediaDirectly.
  apply wp_bind, wp_modify, wp_modify, wp_bind, wp_EndShiftSelect, wp_bind.
  apply wp_RecalculateVirtualSize; [|done|].
  { eapply geom_ok_layout; [|apply Hok]. by rewrite <- Hl1. }
  apply wp_bind. apply wp_DirtyAllPages.
  { eapply geom_ok_layout; [|apply Hok]. by rewrite <- Hl1. }
  { simpl. intros i c. views.
    replace (_clean_canvas_pages st1) with (_clean_canvas_pages st) by congruence.
    apply Hok. }
  apply wp_PublishSelectionChange. intros st2 Hsel2 Hl2 Hp2. views. simpl in *.
  apply HQ; [|unfold layout; congruence|congruence|congruence].
  split.
  - rewrite selection_consistent_alt in *. intros x.
    replace (_selected_media st2) with
      (_selected_media st ∖ singleton_media ∖ collected_media) by congruence.
    replace (_sorted_media st2) with
      (filter (λ m, m ∉ singleton_media ∪ collected_media) (_sorted_media st))
      by congruence.
    replace (is_selected st2 x) with (is_selected st x)
      by (unfold is_selected; congruence).
    rewrite !elem_of_difference, list_elem_of_filter, Hsel, not_elem_of_union. tauto.
  - intros m Hm.
    replace (_sorted_media st2) with
      (filter (λ m, m ∉ singleton_media ∪ collected_media) (_sorted_media st))
      by congruence.
    destruct (Hf1 m) as [Hfm Hnot]; [congruence|].
    apply list_elem_of_filter. split; [done|by apply Hfoc].
  - intros m Hm. congruence.
  - eapply cache_ok_same; [| |apply (cache_ok_dirty_all st1)].
    + unfold layout. simpl. congruence.
    + unfold pools. simpl. congruence.
    + eapply cache_ok_same; [| |exact Hok]; [unfold layout|unfold pools]; congruence.
Qed.

(** ** Resizing *)

Lemma panel_ok_same_selection st st' :
  selection st' = selection st → cache_ok st' → panel_ok st → panel_ok st'.
Proof.
  intros Hs Hok [Hc Hf Ha _]. views. split; [| | |done].
  - rewrite selection_consistent_alt in *. intros x.
    replace (is_selected st' x) with (is_selected st x)
      by (unfold is_selected; congruence).
    replace (_selected_media st') with (_selected_media st) by congruence.
    replace (_sorted_media st') with (_sorted_media st) by congruence. apply Hc.
  - intros m Hm. replace (_sorted_media st') with (_sorted_media st) by congruence.
    apply Hf. congruence.
  - intros m Hm. replace (_sorted_media st') with (_sorted_media st) by congruence.
    apply Ha. congruence.
Qed.

Lemma cache_ok_emptied st' :
  geom_ok st' → _clean_canvas_pages st' = ∅ → _dirty_canvas_pages st' = [] →
  cache_ok st'.
Proof.
  intros Hg Hc Hd. split; [done| | |]; unfold pool; rewrite Hc, ?Hd.
  - intros i c. by rewrite lookup_empty.
  - rewrite map_to_list_empty. simpl. apply NoDup_nil_2.
  - rewrite map_to_list_empty. simpl. by intros c ?%elem_of_nil.
Qed.

Lemma wp_ReinitialisePageCacheIfNeeded env st Q :
  (thumbnail_span env).1 ≠ 0 → (thumbnail_span env).2 ≠ 0 →
  (∀ i c, _clean_canvas_pages st !! i = Some c → 0 ≤ i) →
  (∀ st',
     selection st' = selection st →
     _num_columns st' = Z.max 1 (visible_rect_width env / (thumbnail_span env).1) →
     _num_rows_per_canvas_page st' =
       Z.max 1 (visible_rect_height env / (thumbnail_span env).2 / 2) →
     _num_rows_per_actual_page st' =
       Z.max 1 (visible_rect_height env / (thumbnail_span env).2) →
     _last_size st' = _last_size st →
     _last_device_pixel_ratio st' = _last_device_pixel_ratio st →
     next_canvas st' = next_canvas st →
     (if resize_resets env st
      then _clean_canvas_pages st' = ∅ ∧ _dirty_canvas_pages st' = []
      else _clean_canvas_pages st' = _clean_canvas_pages st
           ∧ _dirty_canvas_pages st' = _dirty_canvas_pages st) →
     Q tt st') →
  wp (_ReinitialisePageCacheIfNeeded env) st Q.
Proof.
  intros Hw Hh Hnn HQ. unfold _ReinitialisePageCacheIfNeeded, resize_resets in *.
  apply wp_bind, wp_get.
  destruct (_last_size st) as [old_width old_height] eqn:Hlast.
  unfold _GetThumbnailSpanDimensions.
  destruct (thumbnail_span env) as [sw sh] eqn:Hspan. simpl in *.
  apply wp_bind. eapply wp_lift; [by apply floordiv_ok|].
  apply wp_bind, wp_modify, wp_bind. eapply wp_lift; [by apply floordiv_ok|].
  apply wp_bind, wp_modify, wp_bind. eapply wp_lift; [by apply floordiv_ok|].
  apply wp_bind, wp_modify, wp_bind, wp_get. simpl.
  set (cols := Z.max 1 (visible_rect_width env / sw)) in *.
  set (rows := Z.max 1 (visible_rect_height env / sh / 2)) in *.
  set (changed := negb (bool_decide (_num_columns st = cols))
                  || negb (bool_decide (_num_rows_per_canvas_page st = rows))) in *.
  destruct changed eqn:Hchanged; simpl.
  - rewrite orb_true_r. simpl.
    apply wp_bind, wp_DirtyAllPages; [unfold geom_ok; simpl; lia|done|].
    unfold _DeleteAllDirtyPages. apply wp_modify. by apply HQ.
  - rewrite orb_false_r.
    destruct (bool_decide (old_width < visible_rect_width env)) eqn:Hwider; simpl.
    + replace (negb (bool_decide (old_width = visible_rect_width env))) with true.
      2:{ apply bool_decide_eq_true in Hwider. symmetry. apply negb_true_iff.
          apply bool_decide_eq_false. lia. }
      simpl.
      apply wp_bind, wp_DirtyAllPages; [unfold geom_ok; simpl; lia|done|].
      unfold _DeleteAllDirtyPages. apply wp_modify. by apply HQ.
    + destruct (negb (bool_decide (old_width = visible_rect_width env))
                || negb (bool_decide (old_height = visible_rect_height env)));
        apply wp_ret; by apply HQ.
Qed.

Lemma wp_EventResize env st Q :
  (thumbnail_span env).1 ≠ 0 → (thumbnail_span env).2 ≠ 0 → yUnit env ≠ 0 →
  (∀ i c, _clean_canvas_pages st !! i = Some c → 0 ≤ i) →
  (∀ st',
     selection st' = selection st →
     _num_columns st' = Z.max 1 (visible_rect_width env / (thumbnail_span env).1) →
     _num_rows_per_canvas_page st' =
       Z.max 1 (visible_rect_height env / (thumbnail_span env).2 / 2) →
     _num_rows_per_actual_page st' =
       Z.max 1 (visible_rect_height env / (thumbnail_span env).2) →
     _last_size st' = (visible_rect_width env, visible_rect_height env) →
     _last_device_pixel_ratio st' = _last_device_pixel_ratio st →
     next_canvas st' = next_canvas st →
     (if resize_resets env st
      then _clean_canvas_pages st' = ∅ ∧ _dirty_canvas_pages st' = []
      else _clean_canvas_pages st' = _clean_canvas_pages st
           ∧ _dirty_canvas_pages st' = _dirty_canvas_pages st) →
     Q tt st') →
  wp (EventResize env) st Q.
Proof.
  intros Hw Hh Hy Hnn HQ. unfold EventResize.
  apply wp_bind, wp_ReinitialisePageCacheIfNeeded; [done..|].
  intros st1 Hs1 Hc1 Hr1 Ha1 Hl1 Hd1 Hn1 Hpools.
  apply wp_bind, wp_RecalculateVirtualSize; [unfold geom_ok; lia|done|].
  apply wp_modify. by apply HQ.
Qed.

Lemma cache_ok_resized env st st' :
  cache_ok st →
  1 ≤ _num_columns st' → 1 ≤ _num_rows_per_canvas_page st' →
  next_canvas st' = next_canvas st →
  (if resize_resets env st
   then _clean_canvas_pages st' = ∅ ∧ _dirty_canvas_pages st' = []
   else _clean_canvas_pages st' = _clean_canvas_pages st
        ∧ _dirty_canvas_pages st' = _dirty_canvas_pages st) →
  cache_ok st'.
Proof.
  intros [Hg Hnn Hnd Hal] Hc Hr Hn Hpools.
  destruct (resize_resets env st); destruct Hpools as [Hcl Hd].
  - by apply cache_ok_emptied.
  - split; [done|..]; unfold pool; rewrite Hcl, ?Hd, ?Hn; done.
Qed.

(** ** The paint pass *)

Lemma wp_position_on_page env thumbnail_index page_index st Q :
  geom_ok st → (∀ xy, Q xy st) →
  wp (position_on_page env thumbnail_index page_index) st Q.
Proof.
  intros [? ?] HQ. unfold position_on_page, wp, bind, get, lift.
  destruct (_GetThumbnailSpanDimensions env).
  rewrite pymod_ok, floordiv_ok by lia. apply HQ.
Qed.

Lemma wp_draw_page_thumbnail env page_index canvas_page page_thumbnail st Q :
  geom_ok st →
  (∀ st', fades_only st st' → Q tt st') →
  wp (draw_page_thumbnail env page_index canvas_page page_thumbnail) st Q.
Proof.
  intros Hg HQ. unfold draw_page_thumbnail. destruct page_thumbnail as [i t].
  destruct (GetDisplayHash env t) as [h|]; [|by apply wp_ret, HQ, fades_only_refl].
  apply wp_bind, wp_get.
  destruct (_ && _); [|by apply wp_ret, HQ, fades_only_refl].
  apply wp_bind, wp_StopFading. intros st1 H1.
  apply wp_bind, wp_position_on_page; [by eapply fades_only_geom|].
  intros [x y]. apply wp_modify, HQ.
  eapply fades_only_trans; [exact H1|]. by repeat split.
Qed.

Lemma wp_DrawCanvasPage env page_index canvas_page st Q :
  geom_ok st → 0 ≤ page_index →
  (∀ st', fades_only st st' → Q tt st') →
  wp (_DrawCanvasPage env page_index canvas_page) st Q.
Proof.
  intros Hg Hp HQ. unfold _DrawCanvasPage.
  apply wp_bind, wp_GetThumbnailsFromPageIndex; [done|done|].
  intros page_thumbnails. eapply wp_mono.
  - apply (wp_for_each (λ st', fades_only st st')); [apply fades_only_refl|].
    intros pt st1 _ H1. apply wp_draw_page_thumbnail; [by eapply fades_only_geom|].
    intros st2 H2. by eapply fades_only_trans.
  - intros [] st' Hf. by apply HQ.
Qed.

Lemma pool_insert_clean st page_index canvas_page :
  _clean_canvas_pages st !! page_index = None →
  (map_to_list (<[page_index := canvas_page]> (_clean_canvas_pages st))).*2
    ≡ₚ canvas_page :: (map_to_list (_clean_canvas_pages st)).*2.
Proof. intros Hn. by rewrite map_to_list_insert. Qed.

Lemma pool_delete_clean st page_index canvas_page :
  _clean_canvas_pages st !! page_index = Some canvas_page →
  (map_to_list (_clean_canvas_pages st)).*2
    ≡ₚ canvas_page :: (map_to_list (delete page_index (_clean_canvas_pages st))).*2.
Proof.
  intros Hc. rewrite <- (insert_delete_id (_clean_canvas_pages st) _ _ Hc) at 1.
  rewrite map_to_list_insert; [done|]. apply lookup_delete_eq.
Qed.

Lemma removelast_last {A} (l : list A) x : last l = Some x → l = removelast l ++ [x].
Proof.
  intros Hl. destruct (decide (l = [])) as [->|Hne]; [done|].
  rewrite (app_removelast_last x Hne) at 1. f_equal. f_equal.
  revert Hl. clear Hne. induction l as [|y [|z l] IH]; simpl in *; [done| |].
  - by intros [= ->].
  - intros Hl. by apply IH.
Qed.

(** Taking a buffer for [page_index]: from the dirty pool, from a clean page
    that is not needed, or a new one. *)
Lemma cache_ok_steal st clean_index canvas_page :
  cache_ok st →
  _clean_canvas_pages st !! clean_index = Some canvas_page →
  cache_ok (set_dirty_canvas_pages (_dirty_canvas_pages st ++ [canvas_page])
              (set_clean_canvas_pages (delete clean_index (_clean_canvas_pages st)) st)).
Proof.
  intros [Hg Hnn Hnd Hal] Hc.
  assert (pool (set_dirty_canvas_pages (_dirty_canvas_pages st ++ [canvas_page])
              (set_clean_canvas_pages (delete clean_index (_clean_canvas_pages st)) st))
          ≡ₚ pool st) as Hperm.
  { unfold pool. simpl. rewrite (pool_delete_clean st _ _ Hc).
    rewrite (Permutation_app_comm (_dirty_canvas_pages st)). simpl.
    by rewrite Permutation_middle. }
  split; [done| | |].
  - simpl. intros i c [_ Hi]%lookup_delete_Some. by eapply Hnn.
  - by rewrite Hperm.
  - intros c. rewrite Hperm. apply Hal.
Qed.

Lemma cache_ok_create st :
  cache_ok st →
  cache_ok (set_dirty_canvas_pages (_dirty_canvas_pages st ++ [next_canvas st])
              (set_next_canvas (S (next_canvas st)) st)).
Proof.
  intros [Hg Hnn Hnd Hal]. split; [done|done| |]; unfold pool in *; simpl.
  - rewrite app_assoc. apply NoDup_app. split; [done|]. split.
    + intros c Hc ->%list_elem_of_singleton. apply Hal in Hc. lia.
    + apply NoDup_singleton.
  - intros c. rewrite app_assoc, elem_of_app, list_elem_of_singleton.
    intros [Hc| ->]; [apply Hal in Hc|]; lia.
Qed.

Lemma cache_ok_draw st page_index canvas_page :
  cache_ok st → 0 ≤ page_index →
  _clean_canvas_pages st !! page_index = None →
  last (_dirty_canvas_pages st) = Some canvas_page →
  cache_ok (set_clean_canvas_pages (<[page_index := canvas_page]> (_clean_canvas_pages st))
              (set_dirty_canvas_pages (removelast (_dirty_canvas_pages st)) st)).
Proof.
  intros [Hg Hnn Hnd Hal] Hp Hc Hlast.
  assert (pool (set_clean_canvas_pages
                  (<[page_index := canvas_page]> (_clean_canvas_pages st))
                  (set_dirty_canvas_pages (removelast (_dirty_canvas_pages st)) st))
          ≡ₚ pool st) as Hperm.
  { unfold pool. simpl. rewrite (pool_insert_clean st _ _ Hc).
    rewrite (removelast_last _ _ Hlast) at 2. simpl.
    rewrite (Permutation_app_comm (removelast _) [canvas_page]). simpl.
    by rewrite Permutation_middle. }
  split; [done| | |].
  - simpl. intros i c [[<- _]|[_ Hi]]%lookup_insert_Some; [done|by eapply Hnn].
  - by rewrite Hperm.
  - intros c. rewrite Hperm. apply Hal.
Qed.

Lemma wp_paint_pages env to_draw page_indices_to_display potential st Q :
  cache_ok st →
  (∀ p, p ∈ to_draw → 0 ≤ p) →
  NoDup potential →
  (∀ p, p ∈ potential → is_Some (_clean_canvas_pages st !! p) ∧ p ∉ to_draw) →
  (∀ st', cache_ok st' → selection st' = selection st → layout st' = layout st →
          (∀ p, p ∈ to_draw → is_Some (_clean_canvas_pages st' !! p)) →
          (∀ p, is_Some (_clean_canvas_pages st !! p) → p ∉ potential →
                is_Some (_clean_canvas_pages st' !! p)) →
          Q tt st') →
  wp (paint_pages env to_draw page_indices_to_display potential) st Q.
Proof.
  revert potential st Q.
  induction to_draw as [|page_index to_draw IH]; intros potential st Q Hok Hnn Hnd Hpot HQ.
  { apply wp_ret, HQ; try done. by intros p ?%elem_of_nil. }
  simpl. apply wp_bind, wp_get. apply wp_bind.
  assert (0 ≤ page_index) as Hp by (apply Hnn; left).
  (* the page is ensured *)
  apply (wp_mono _ _ (λ potential' st1,
    cache_ok st1 ∧ selection st1 = selection st ∧ layout st1 = layout st ∧
    is_Some (_clean_canvas_pages st1 !! page_index) ∧
    NoDup potential' ∧ potential' ⊆ potential ∧
    (∀ p, p ∈ potential' → is_Some (_clean_canvas_pages st1 !! p)) ∧
    (∀ p, is_Some (_clean_canvas_pages st !! p) → p ∉ potential →
          is_Some (_clean_canvas_pages st1 !! p)))).
  { case_decide as Hclean.
    { apply wp_ret. split_and!; try done. intros p Hpin. by apply Hpot. }
    apply eq_None_not_Some in Hclean.
    apply wp_bind.
    apply (wp_mono _ _ (λ potential' st1,
      cache_ok st1 ∧ selection st1 = selection st ∧ layout st1 = layout st ∧
      _clean_canvas_pages st1 !! page_index = None ∧
      _dirty_canvas_pages st1 ≠ [] ∧
      NoDup potential' ∧ potential' ⊆ potential ∧
      (∀ p, p ∈ potential' → is_Some (_clean_canvas_pages st1 !! p)) ∧
      (∀ p, is_Some (_clean_canvas_pages st !! p) → p ∉ potential →
            is_Some (_clean_canvas_pages st1 !! p)))).
    { case_decide as Hdirty.
      - destruct (last potential) as [index_to_steal|] eqn:Hlast.
        + pose proof (removelast_last _ _ Hlast) as Hsplit.
          assert (index_to_steal ∈ potential) as Hin.
          { rewrite Hsplit. apply elem_of_app. right. left. }
          destruct (Hpot _ Hin) as [[c Hc] Hnot].
          apply wp_bind. eapply wp_DirtyPage; [apply Hok|by eapply Hok|exact Hc|].
          apply wp_ret. rewrite Hsplit in Hnd. apply NoDup_app in Hnd as (Hnd1 & Hnd2 & _).
          split_and!; try done.
          * by apply cache_ok_steal.
          * simpl. rewrite lookup_delete_ne; [done|]. intros ->. apply Hnot. left.
          * simpl. by destruct (_dirty_canvas_pages st).
          * rewrite Hsplit at 2. set_solver.
          * simpl. intros p Hpin. rewrite lookup_delete_ne.
            -- apply Hpot. rewrite Hsplit. apply elem_of_app. by left.
            -- intros ->. apply (Hnd2 _ Hpin). left.
          * simpl. intros p Hpc Hpn. rewrite lookup_delete_ne; [done|].
            intros ->. by apply Hpn.
        + apply wp_bind. unfold _CreateNewDirtyPage.
          apply wp_bind, wp_get, wp_bind, wp_modify, wp_modify, wp_ret.
          split_and!; try done.
          * exact (cache_ok_create st Hok).
          * simpl. by destruct (_dirty_canvas_pages st).
          * intros p Hpin. by apply Hpot.
      - apply wp_ret. split_and!; try done.
        + intros Hnil. apply Hdirty. by rewrite Hnil.
        + intros p Hpin. by apply Hpot. }
    intros potential' st1 (Hok1 & Hs1 & Hl1 & Hc1 & Hd1 & Hnd' & Hsub & Hpot' & Hkeep).
    apply wp_bind, wp_get.
    destruct (last (_dirty_canvas_pages st1)) as [canvas_page|] eqn:Hlast.
    2:{ apply last_None in Hlast. done. }
    apply wp_bind. eapply wp_or_raise; [done|].
    apply wp_bind, wp_modify, wp_bind, wp_DrawCanvasPage; [apply Hok1|done|].
    intros st2 (Hs2 & Hl2 & Hp2). apply wp_bind, wp_modify, wp_ret.
    simpl in Hs2, Hl2. unfold pools in Hp2. simpl in Hp2. injection Hp2 as Hcl2 Hd2 Hn2.
    split_and!; try done.
    - eapply cache_ok_same;
        [| |by apply (cache_ok_draw st1 page_index canvas_page)].
      + unfold layout in *. simpl in *. congruence.
      + unfold pools. simpl. congruence.
    - simpl. unfold selection in *. simpl in *. congruence.
    - simpl. unfold layout in *. simpl in *. congruence.
    - simpl. rewrite lookup_insert_eq. by eexists.
    - simpl. intros p Hpin. rewrite Hcl2. destruct (decide (p = page_index)) as [->|].
      + rewrite lookup_insert_eq. by eexists.
      + rewrite lookup_insert_ne by done. by apply Hpot'.
    - simpl. intros p Hpc Hpn. rewrite Hcl2. destruct (decide (p = page_index)) as [->|].
      + rewrite lookup_insert_eq. by eexists.
      + rewrite lookup_insert_ne by done. by apply Hkeep. }
  intros potential' st1 (Hok1 & Hs1 & Hl1 & Hc1 & Hnd' & Hsub & Hpot' & Hkeep).
  apply wp_bind.
  apply (wp_mono _ _ (λ _ st2, fades_only st1 st2)).
  { case_decide; [|by apply wp_ret, fades_only_refl].
    apply wp_bind, wp_get. destruct Hc1 as [c Hc1].
    apply wp_bind. eapply wp_or_raise; [done|].
    destruct (_GetThumbnailSpanDimensions env). apply wp_modify. by repeat split. }
  intros [] st2 (Hs2 & Hl2 & Hp2).
  assert (_clean_canvas_pages st2 = _clean_canvas_pages st1) as Hcl2.
  { unfold pools in Hp2. by injection Hp2. }
  apply IH.
  - by eapply cache_ok_same.
  - intros p Hpin. apply Hnn. by right.
  - done.
  - intros p Hpin. rewrite Hcl2. split; [by apply Hpot'|].
    intros Hp'. apply Hsub in Hpin. apply (Hpot p Hpin). by right.
  - intros st' Hok' Hs' Hl' Hdrawn Hkeep'. apply HQ; try done; try congruence.
    + intros p [->|Hpin]%elem_of_cons; [|by apply Hdrawn].
      apply Hkeep'; [by rewrite Hcl2|].
      intros Hpin%Hsub. apply (Hpot _ Hpin). left.
    + intros p Hpc Hpn. destruct (decide (p ∈ potential')) as [Hin|Hnin].
      * exfalso. apply Hpn. by apply Hsub.
      * apply Hkeep'; [|done]. rewrite Hcl2. by apply Hkeep.
Qed.

Lemma foldr_min_spec x l :
  foldr Z.min x l ∈ x :: l ∧ ∀ y, y ∈ x :: l → foldr Z.min x l ≤ y.
Proof.
  induction l as [|z l [IH1 IH2]]; simpl.
  - split; [left|]. by intros y ->%list_elem_of_singleton.
  - split.
    + destruct (Z.min_spec z (foldr Z.min x l)) as [[_ ->]|[_ ->]]; [set_solver|].
      apply elem_of_cons in IH1 as [->|?]; set_solver.
    + intros y Hy. assert (y = z ∨ y ∈ x :: l) as [->|Hy'] by set_solver; [lia|].
      specialize (IH2 y Hy'). lia.
Qed.

Lemma foldr_max_spec x l :
  foldr Z.max x l ∈ x :: l ∧ ∀ y, y ∈ x :: l → y ≤ foldr Z.max x l.
Proof.
  induction l as [|z l [IH1 IH2]]; simpl.
  - split; [left|]. by intros y ->%list_elem_of_singleton.
  - split.
    + destruct (Z.max_spec z (foldr Z.max x l)) as [[_ ->]|[_ ->]]; [|set_solver].
      apply elem_of_cons in IH1 as [->|?]; set_solver.
    + intros y Hy. assert (y = z ∨ y ∈ x :: l) as [->|Hy'] by set_solver; [lia|].
      specialize (IH2 y Hy'). lia.
Qed.

Lemma py_min_range a b : a < b → py_min (range a b) = Some a.
Proof.
  intros Hab. destruct (range a b) as [|x l] eqn:Hr.
  - assert (a ∈ range a b) as Hin by (apply elem_of_range; lia).
    rewrite Hr in Hin. by apply elem_of_nil in Hin.
  - simpl. f_equal. destruct (foldr_min_spec x l) as [Hin Hle].
    rewrite <- Hr in Hin, Hle. apply elem_of_range in Hin.
    specialize (Hle a). rewrite elem_of_range in Hle. lia.
Qed.

Lemma py_max_range a b : a < b → py_max (range a b) = Some (b - 1).
Proof.
  intros Hab. destruct (range a b) as [|x l] eqn:Hr.
  - assert (a ∈ range a b) as Hin by (apply elem_of_range; lia).
    rewrite Hr in Hin. by apply elem_of_nil in Hin.
  - simpl. f_equal. destruct (foldr_max_spec x l) as [Hin Hle].
    rewrite <- Hr in Hin, Hle. apply elem_of_range in Hin.
    specialize (Hle (b - 1)). rewrite elem_of_range in Hle. lia.
Qed.

Lemma page_indices_to_draw_range a b :
  a < b →
  ∃ l, page_indices_to_draw (range a b) = inr l ∧
       ∀ p, p ∈ l ↔ (a ≤ p < b ∨ (0 < a ∧ p = a - 1) ∨ p = b).
Proof.
  intros Hab. unfold page_indices_to_draw.
  rewrite py_min_range, py_max_range by done. eexists. split; [done|].
  intros p. rewrite merge_sort_Permutation.
  case_decide; rewrite !elem_of_app, ?list_elem_of_singleton, elem_of_range; lia.
Qed.

Lemma GetYStart_nonneg env : env_ok env → 0 ≤ _GetYStart env.
Proof. intros [_ _ ? _ _ _]. unfold _GetYStart. lia. Qed.

Lemma wp_paintEvent env st Q :
  env_ok env → cache_ok st →
  (∀ st', cache_ok st' → selection st' = selection st →
          _num_columns st' = _num_columns st →
          _num_rows_per_canvas_page st' = _num_rows_per_canvas_page st →
          _num_rows_per_actual_page st' = _num_rows_per_actual_page st →
          _last_size st' = _last_size st →
          (∀ p, p ∈ ensured_pages env st → is_Some (_clean_canvas_pages st' !! p)) →
          Q tt st') →
  wp (paintEvent env) st Q.
Proof.
  intros Henv Hok HQ. unfold paintEvent. apply wp_bind, wp_get, wp_bind.
  apply (wp_mono _ _ (λ _ st1,
    cache_ok st1 ∧ selection st1 = selection st ∧
    _num_columns st1 = _num_columns st ∧
    _num_rows_per_canvas_page st1 = _num_rows_per_canvas_page st ∧
    _num_rows_per_actual_page st1 = _num_rows_per_actual_page st ∧
    _last_size st1 = _last_size st)).
  { destruct (negb _); [|by apply wp_ret].
    apply wp_bind, wp_modify, wp_bind, wp_DirtyAllPages; [apply Hok|apply Hok|].
    unfold _DeleteAllDirtyPages. apply wp_modify. split_and!; try done.
    apply cache_ok_emptied; [apply Hok|done|done]. }
  intros [] st1 (Hok1 & Hs1 & Hc1 & Hr1 & Ha1 & Hz1).
  pose proof (GetYStart_nonneg env Henv) as Hy.
  destruct Henv as [Hsw Hsh Hvis _ Hshuffle _].
  destruct (thumbnail_span env) as [sw sh] eqn:Hspan. simpl in *.
  assert (1 ≤ _num_rows_per_canvas_page st1) as Hrows by apply Hok1.
  set (page_height := _num_rows_per_canvas_page st1 * sh).
  assert (0 < page_height) as Hph by (unfold page_height; nia).
  set (first := _GetYStart env / page_height).
  set (last' := (_GetYStart env + visible_rect_height env) / page_height).
  assert (0 ≤ first) as Hfirst by (by apply Z.div_pos).
  assert (first ≤ last') as Hlast by (apply Z.div_le_mono; lia).
  apply wp_bind. unfold _CalculateVisiblePageIndices.
  apply wp_bind, wp_get. unfold _GetThumbnailSpanDimensions. rewrite Hspan.
  fold page_height.
  apply wp_bind. eapply wp_lift; [apply floordiv_ok; lia|].
  apply wp_bind. eapply wp_lift; [apply floordiv_ok; lia|].
  apply wp_ret. fold first last'.
  destruct (page_indices_to_draw_range first (last' + 1)) as (to_draw & Hto & Hin);
    [lia|].
  apply wp_bind. eapply wp_lift; [exact Hto|].
  apply wp_bind, wp_get.
  apply wp_paint_pages.
  - done.
  - intros p. rewrite Hin. lia.
  - rewrite Hshuffle. apply NoDup_filter, NoDup_fst_map_to_list.
  - intros p. rewrite Hshuffle, list_elem_of_filter, list_elem_of_fmap.
    intros [Hnot ([p' c] & -> & Hpc%elem_of_map_to_list)]. split; [by eexists|done].
  - intros st' Hok' Hs' Hl' Hdrawn _. unfold layout in Hl'. injection Hl' as ? ? ? ? ?.
    apply HQ; try done; try congruence.
    intros p. unfold ensured_pages. rewrite elem_of_range, Hspan. simpl.
    rewrite <- Hr1. fold page_height first last'. intros Hp.
    apply Hdrawn, Hin. lia.
Qed.

Lemma wp_MaintainPageCache env st Q :
  cache_ok st →
  (∀ st', cache_ok st' → selection st' = selection st → layout st' = layout st →
          _dirty_canvas_pages st' = [] → Q tt st') →
  wp (MaintainPageCache env) st Q.
Proof.
  intros Hok HQ. unfold MaintainPageCache. apply wp_bind.
  destruct (negb (IsCurrentPage env)).
  - apply wp_DirtyAllPages; [apply Hok|apply Hok|].
    unfold _DeleteAllDirtyPages. apply wp_modify. apply HQ; try done.
    apply cache_ok_emptied; [apply Hok|done|done].
  - apply wp_ret. unfold _DeleteAllDirtyPages. apply wp_modify.
    apply HQ; try done. destruct Hok as [Hg Hnn Hnd Hal].
    split; [done|done| |]; unfold pool in *; simpl.
    + apply NoDup_app in Hnd as (? & _ & _). by rewrite app_nil_r.
    + intros c Hc. apply Hal. rewrite app_nil_r in Hc. apply elem_of_app. by left.
Qed.

(** ** The animation tick *)

Lemma paints_only_refl h st : paints_only h st st.
Proof.
  split; [apply fades_only_refl|]. split; [done|]. exists [].
  split; [by rewrite app_nil_r|]. by intros d ?%elem_of_nil.
Qed.

Lemma paints_only_trans h st1 st2 st3 :
  paints_only h st1 st2 → paints_only h st2 st3 → paints_only h st1 st3.
Proof.
  intros (Hf1 & Hp1 & new1 & Hn1 & Hd1) (Hf2 & Hp2 & new2 & Hn2 & Hd2).
  split; [by eapply fades_only_trans|]. split; [congruence|].
  exists (new1 ++ new2). split; [by rewrite Hn2, Hn1, app_assoc|].
  intros d [?|?]%elem_of_app; auto.
Qed.

Lemma paints_only_clock h st n : paints_only h st (set_clock n st).
Proof.
  split; [by repeat split|]. split; [done|]. exists [].
  split; [by rewrite app_nil_r|]. by intros d ?%elem_of_nil.
Qed.

Lemma paints_only_draw h st on x y img :
  img = Bitmap h ∨ img = AlphaBitmap h →
  paints_only h st (set_painted (painted st ++ [DrawImage on x y img]) st).
Proof.
  intros Himg. split; [by repeat split|]. split; [done|]. eexists.
  split; [done|]. by intros d ->%list_elem_of_singleton.
Qed.

Lemma wp_DrawDue env o st Q :
  (∀ st', fades_only st st' →
          _hashes_to_thumbnails_waiting_to_be_drawn st'
            = _hashes_to_thumbnails_waiting_to_be_drawn st →
          painted st' = painted st →
          Q (due_at env st o) st') →
  wp (DrawDue env o) st Q.
Proof.
  intros HQ. unfold DrawDue, due_at in *.
  destruct (animated o) as [a|]; [|by apply wp_ret, HQ; [apply fades_only_refl|..]].
  unfold _GetNumFramesOutstanding.
  apply wp_bind, wp_bind, wp_GetNowPrecise, wp_ret, wp_ret, HQ; [|done..].
  by repeat split.
Qed.

Lemma wp_DrawToPainter env o x y painter st Q :
  (∀ o' st', paints_only (entry_hash o) st st' → entry_hash o' = entry_hash o →
             Q o' st') →
  wp (DrawToPainter env o x y painter) st Q.
Proof.
  intros HQ. unfold DrawToPainter. destruct (animated o) as [a|].
  - unfold _GetNumFramesOutstanding.
    apply wp_bind, wp_bind, wp_GetNowPrecise, wp_ret.
    set (st1 := set_clock _ st). set (n := Z.min _ _).
    case_decide.
    + apply wp_bind, wp_modify, wp_ret, HQ; [|done].
      eapply paints_only_trans; [apply paints_only_clock|].
      apply paints_only_draw. by left.
    + apply wp_bind. eapply wp_mono.
      * apply (wp_for_each (λ st', paints_only (entry_hash o) st st')).
        { apply paints_only_clock. }
        intros ? st2 _ H2. apply wp_modify.
        eapply paints_only_trans; [exact H2|]. apply paints_only_draw. by right.
      * intros [] st2 H2. by apply wp_ret, HQ.
  - apply wp_bind, wp_modify, wp_ret, HQ; [|done].
    apply paints_only_draw. by left.
Qed.

Lemma wp_TimeHasPassedPrecise env t st Q :
  (∀ b, Q b (set_clock (S (clock st)) st)) → wp (TimeHasPassedPrecise env t) st Q.
Proof.
  intros HQ. unfold TimeHasPassedPrecise.
  apply wp_bind, wp_GetNowPrecise, wp_ret, HQ.
Qed.

(** What one round of the loop does to the entry it visits. *)
Lemma wp_animation_step env loop_should_break_time h painters st o Q :
  geom_ok st →
  _hashes_to_thumbnails_waiting_to_be_drawn st !! h = Some o →
  (∀ r st',
     fades_only st st' →
     (∀ h', h' ≠ h → _hashes_to_thumbnails_waiting_to_be_drawn st' !! h'
                      = _hashes_to_thumbnails_waiting_to_be_drawn st !! h') →
     (∃ new, painted st' = painted st ++ new ∧
             (∀ d, d ∈ new → draws_of (entry_hash o) d) ∧
             (stale st o → new = [])) →
     (stale st o →
      _hashes_to_thumbnails_waiting_to_be_drawn st' =
        if due_at env st o || _draw_complete o
        then delete h (_hashes_to_thumbnails_waiting_to_be_drawn st)
        else _hashes_to_thumbnails_waiting_to_be_drawn st) →
     Q r st') →
  wp (animation_step env loop_should_break_time h painters) st Q.
Proof.
  intros Hg Ho HQ. unfold animation_step.
  apply wp_bind, wp_get. apply wp_bind. eapply wp_or_raise; [exact Ho|].
  apply wp_bind, wp_DrawDue. intros st1 Hf1 Hp1 Hd1.
  apply wp_bind.
  (* the entry is drawn, or found stale, or left for a later tick *)
  apply (wp_mono _ _ (λ r st2,
    fades_only st st2 ∧
    (∀ h', h' ≠ h → _hashes_to_thumbnails_waiting_to_be_drawn st2 !! h'
                     = _hashes_to_thumbnails_waiting_to_be_drawn st !! h') ∧
    (∃ new, painted st2 = painted st ++ new ∧
            (∀ d, d ∈ new → draws_of (entry_hash o) d) ∧
            (stale st o → new = [])) ∧
    (stale st o →
     _hashes_to_thumbnails_waiting_to_be_drawn st2
       = _hashes_to_thumbnails_waiting_to_be_drawn st ∧
     r.1.1 || r.1.2 = due_at env st o || _draw_complete o))).
  { assert (∀ b : bool, b = due_at env st o →
      fades_only st st1 ∧
      (∀ h', h' ≠ h → _hashes_to_thumbnails_waiting_to_be_drawn st1 !! h'
                       = _hashes_to_thumbnails_waiting_to_be_drawn st !! h') ∧
      (∃ new, painted st1 = painted st ++ new ∧
              (∀ d, d ∈ new → draws_of (entry_hash o) d) ∧
              (stale st o → new = [])) ∧
      (stale st o →
       _hashes_to_thumbnails_waiting_to_be_drawn st1
         = _hashes_to_thumbnails_waiting_to_be_drawn st ∧
       DrawComplete o || b = due_at env st o || _draw_complete o)) as Hquiet.
    { intros b ->. split_and!; [done|intros; congruence| |].
      - exists []. split_and!; [by rewrite app_nil_r|by intros d ?%elem_of_nil|done].
      - intros _. split; [done|]. unfold DrawComplete. apply orb_comm. }
    destruct (due_at env st o) eqn:Hdue; [|by apply wp_ret, Hquiet].
    rewrite getitem_nonneg by lia. rewrite Nat2Z.id.
    apply wp_bind, wp_GetPageIndexFromThumbnailIndex; [by eapply fades_only_geom|].
    assert (Z.of_nat (thumbnail_index o)
              / (_num_columns st1 * _num_rows_per_canvas_page st1)
            = page_of st (thumbnail_index o)) as ->.
    { unfold page_of. destruct Hf1 as (_ & Hl & _). unfold layout in Hl.
      injection Hl as -> -> _ _ _. done. }
    case_decide as Hexp; [by apply wp_ret, Hquiet|].
    destruct (_clean_canvas_pages st !! page_of st (thumbnail_index o))
      as [canvas_page|] eqn:Hpage; [|by apply wp_ret, Hquiet].
    assert (¬ stale st o) as Hfresh.
    { intros [?|?]; [done|congruence]. }
    apply wp_bind, wp_position_on_page; [by eapply fades_only_geom|].
    intros [x y].
    set (painters' := match painters !! page_of st (thumbnail_index o) with
                      | Some _ => painters
                      | None => <[page_of st (thumbnail_index o) := canvas_page]> painters
                      end).
    assert (is_Some (painters' !! page_of st (thumbnail_index o))) as [painter Hpainter].
    { unfold painters'. destruct (painters !! _) eqn:Hp; [by rewrite Hp|].
      rewrite lookup_insert_eq. by eexists. }
    apply wp_bind. eapply wp_or_raise; [exact Hpainter|].
    apply wp_bind, wp_DrawToPainter.
    intros o' st2 (Hf2 & Hp2 & new & Hn2 & Hd2) Hh'.
    apply wp_bind, wp_modify, wp_ret. simpl. split_and!.
    - eapply fades_only_trans; [exact Hf1|].
      eapply fades_only_trans; [exact Hf2|]. by repeat split.
    - intros h' Hne. rewrite lookup_insert_ne by done. congruence.
    - exists new. split_and!; [congruence|done|done].
    - done. }
  intros [[draw_complete delete_entry] painters'] st2 (Hf2 & Hp2 & Hnew2 & Hst2).
  apply wp_bind.
  apply (wp_mono _ _ (λ _ st3,
    fades_only st st3 ∧
    (∀ h', h' ≠ h → _hashes_to_thumbnails_waiting_to_be_drawn st3 !! h'
                     = _hashes_to_thumbnails_waiting_to_be_drawn st !! h') ∧
    painted st3 = painted st2 ∧
    (stale st o →
     _hashes_to_thumbnails_waiting_to_be_drawn st3 =
       if due_at env st o || _draw_complete o
       then delete h (_hashes_to_thumbnails_waiting_to_be_drawn st)
       else _hashes_to_thumbnails_waiting_to_be_drawn st))).
  { destruct (draw_complete || delete_entry) eqn:Hdel.
    - apply wp_modify. simpl. split_and!.
      + eapply fades_only_trans; [exact Hf2|]. by repeat split.
      + intros h' Hne. rewrite lookup_delete_ne by done. by apply Hp2.
      + done.
      + intros Hstale. destruct (Hst2 Hstale) as [-> Hr]. simpl in Hr.
        by rewrite <- Hr, Hdel.
    - apply wp_ret. split_and!; try done.
      intros Hstale. destruct (Hst2 Hstale) as [-> Hr]. simpl in Hr.
      by rewrite <- Hr, Hdel. }
  intros [] st3 (Hf3 & Hp3 & Hd3 & Hst3).
  apply wp_bind, wp_TimeHasPassedPrecise. intros stop. apply wp_ret.
  apply HQ.
  - eapply fades_only_trans; [exact Hf3|]. by repeat split.
  - done.
  - simpl. rewrite Hd3. done.
  - done.
Qed.

Lemma stale_fades_only st st' o : fades_only st st' → stale st' o ↔ stale st o.
Proof.
  intros (Hs & Hl & Hp). unfold stale, page_of.
  unfold selection in Hs. unfold layout in Hl. unfold pools in Hp.
  injection Hs as -> _ _ _ _ _ _ _. injection Hl as -> -> _ _ _.
  injection Hp as -> _ _. done.
Qed.

Lemma wp_animation_loop env loop_should_break_time hashes painters st0 st Q :
  geom_ok st0 → tick_result st0 st → NoDup hashes →
  (∀ h, h ∈ hashes →
        is_Some (_hashes_to_thumbnails_waiting_to_be_drawn st0 !! h) ∧
        _hashes_to_thumbnails_waiting_to_be_drawn st !! h
          = _hashes_to_thumbnails_waiting_to_be_drawn st0 !! h) →
  (∀ st', tick_result st0 st' → Q tt st') →
  wp (animation_loop env loop_should_break_time hashes painters) st Q.
Proof.
  intros Hg. revert painters st.
  induction hashes as [|h hashes IH]; intros painters st Hres Hnd Hin HQ; simpl.
  { by apply wp_ret, HQ. }
  apply NoDup_cons in Hnd as [Hh Hnd].
  destruct (Hin h) as [[o Ho0] Ho]; [left|]. rewrite Ho0 in Ho.
  destruct Hres as (Hf & new & Hnew & Hdraws).
  apply wp_bind. eapply wp_animation_step; [by eapply fades_only_geom|exact Ho|].
  intros [painters' stop] st1 Hf1 Hother (new1 & Hnew1 & Hd1 & Hstale1) _.
  assert (tick_result st0 st1) as Hres1.
  { split; [by eapply fades_only_trans|].
    exists (new ++ new1). split; [by rewrite Hnew1, Hnew, app_assoc|].
    intros d [Hd|Hd]%elem_of_app; [by apply Hdraws|].
    exists h, o. split_and!; [done| |by apply Hd1].
    intros Hst. rewrite <- (stale_fades_only st0 st) in Hst by done.
    rewrite (Hstale1 Hst) in Hd. by apply elem_of_nil in Hd. }
  destruct stop; [by apply wp_ret, HQ|].
  apply IH; [done|done| |done].
  intros h' Hh'. destruct (Hin h') as [? ?]; [by right|]. split; [done|].
  rewrite Hother; [done|]. intros ->. done.
Qed.

Lemma wp_TIMERAnimationUpdate env st Q :
  env_ok env → geom_ok st →
  (∀ st', tick_result st st' → Q tt st') →
  wp (TIMERAnimationUpdate env) st Q.
Proof.
  intros Henv Hg HQ. unfold TIMERAnimationUpdate.
  apply wp_bind, wp_GetNowPrecise, wp_bind, wp_get.
  set (st1 := set_clock _ st).
  assert (fades_only st st1) as Hf1 by (by repeat split).
  eapply (wp_animation_loop _ _ _ _ st).
  - done.
  - split; [done|]. exists []. split; [by rewrite app_nil_r|].
    by intros d ?%elem_of_nil.
  - rewrite (iterate_perm env Henv). apply NoDup_fst_map_to_list.
  - intros h. rewrite (iterate_perm env Henv), list_elem_of_fmap.
    intros ([h' o] & -> & Hho%elem_of_map_to_list). simpl in *. split; [by eexists|done].
  - done.
Qed.

(** ** Every handler keeps the panel in order *)

Lemma cache_ok_fades_only st st' : fades_only st st' → cache_ok st → cache_ok st'.
Proof. intros (_ & Hl & Hp). by apply cache_ok_same. Qed.

(** ** Hit-testing *)

Lemma wp_GetThumbnailUnderMouse env x y st Q :
  (thumbnail_span env).1 ≠ 0 → (thumbnail_span env).2 ≠ 0 →
  (∀ r,
     (misses env st x y → r = None) →
     (¬ misses env st x y →
      0 ≤ thumbnail_index_at env st x y < Z.of_nat (length (_sorted_media st)) ∧
      r = _sorted_media st !! Z.to_nat (thumbnail_index_at env st x y) ∧ is_Some r) →
     Q r st) →
  wp (_GetThumbnailUnderMouse env x y) st Q.
Proof.
  intros Hx Hy HQ.
  unfold _GetThumbnailUnderMouse, _GetThumbnailSpanDimensions.
  unfold misses, in_dead_zone, thumbnail_index_at, column_at in HQ.
  destruct (thumbnail_span env) as [sx sy]. simpl in *.
  apply wp_bind, wp_get.
  apply wp_bind. eapply wp_lift; [by apply pymod_ok|].
  apply wp_bind. eapply wp_lift; [by apply pymod_ok|].
  destruct (_ || _ || _ || _) eqn:Hdead.
  { apply wp_ret, HQ; [done|]. intros Hn. exfalso. apply Hn. left.
    repeat (apply orb_true_iff in Hdead as [Hdead|Hdead]);
      apply bool_decide_eq_true in Hdead; tauto. }
  repeat (apply orb_false_iff in Hdead as [Hdead ?]).
  repeat match goal with H : bool_decide _ = false |- _ =>
    apply bool_decide_eq_false in H end.
  apply wp_bind. eapply wp_lift; [by apply floordiv_ok|].
  apply wp_bind. eapply wp_lift; [by apply floordiv_ok|].
  destruct (decide (_num_columns st ≤ x / sx));
    [apply wp_ret, HQ; [done|tauto]|].
  destruct (decide (_num_columns st * (y / sy) + x / sx < 0));
    [apply wp_ret, HQ; [done|tauto]|].
  destruct (decide (Z.of_nat (length (_sorted_media st))
                    ≤ _num_columns st * (y / sy) + x / sx));
    [apply wp_ret, HQ; [done|tauto]|].
  destruct (getitem_in_range (_sorted_media st) (_num_columns st * (y / sy) + x / sx))
    as [m Hm]; [lia|].
  apply wp_bind. eapply wp_or_raise; [exact Hm|]. apply wp_ret, HQ.
  - intros Hmiss. exfalso. lia.
  - intros _. rewrite getitem_nonneg in Hm by lia. rewrite Hm. split; [lia|done].
Qed.

(** ** Every handler keeps the panel in order *)

Lemma new_panel_ok media_results dpr :
  panel_ok (new_MediaPanelThumbnails media_results dpr).
Proof.
  split; simpl; try done.
  - apply selection_consistent_alt. intros x. simpl. unfold is_selected. simpl.
    rewrite lookup_empty. simpl. set_solver.
  - apply cache_ok_emptied; [unfold geom_ok; simpl; lia|done|done].
Qed.

Lemma wp_handle env ev st Q :
  env_ok env → panel_ok st → event_ok st ev →
  (∀ st', panel_ok st' → Q tt st') →
  wp (handle env ev) st Q.
Proof.
  intros Henv Hok Hev HQ. destruct ev; simpl in *.
  - unfold mousePressEvent.
    apply wp_bind, wp_GetThumbnailUnderMouse.
    { pose proof (span_width_pos env Henv). lia. }
    { pose proof (span_height_pos env Henv). lia. }
    intros thumb Hmiss Hhit.
    destruct (negb (right_button && bool_decide (thumb = None)));
      [|by apply wp_ret, HQ].
    apply wp_HitMedia; [done| |by intros; apply HQ].
    intros m ->. destruct Hhit as (_ & Hm & _); [by intros ?%Hmiss|].
    apply list_elem_of_lookup. eauto.
  - apply wp_HitMedia; [done| |by intros; apply HQ]. by intros x ->.
  - apply wp_Select; [done|done|by intros; apply HQ].
  - apply wp_RemoveMediaDirectly; [done|apply Henv|by intros; apply HQ].
  - apply wp_EventResize.
    { pose proof (span_width_pos env Henv). lia. }
    { pose proof (span_height_pos env Henv). lia. }
    { apply Henv. }
    { apply Hok. }
    intros st' Hs Hc Hr Ha Hl Hd Hn Hpools. apply HQ.
    eapply panel_ok_same_selection; [done| |done].
    eapply cache_ok_resized; [apply Hok|lia|lia|done|done].
  - apply wp_paintEvent; [done|apply Hok|].
    intros st' Hok' Hs _ _ _ _ _. apply HQ. by eapply panel_ok_same_selection.
  - apply wp_MaintainPageCache; [apply Hok|].
    intros st' Hok' Hs _ _. apply HQ. by eapply panel_ok_same_selection.
  - apply wp_FadeThumbnails; [apply Hok|].
    intros st' Hs _ Hok'. apply HQ. by eapply panel_ok_same_selection.
  - apply wp_TIMERAnimationUpdate; [done|apply Hok|].
    intros st' [(Hs & Hl & Hp) _]. apply HQ.
    eapply panel_ok_same_selection; [done| |done].
    eapply cache_ok_same; [done|done|apply Hok].
Qed.

Lemma reachable_panel_ok st : reachable st → panel_ok st.
Proof.
  induction 1 as [media_results dpr|env ev st st' _ IH Henv Hev Hrun].
  - apply new_panel_ok.
  - pose proof (wp_handle env ev st (λ _ st', panel_ok st') Henv IH Hev) as Hwp.
    unfold wp in Hwp. rewrite Hrun in Hwp. auto.
Qed.

(** * The properties of the panel *)

Lemma example_env_ok : env_ok example_env.
Proof. split; simpl; try done; lia. Qed.

Lemma reachable_after env evs st st' :
  reachable st → env_ok env →
  Forall (λ ev, ∀ st, event_ok st ev) evs →
  after env evs st = Some st' → reachable st'.
Proof.
  intros Hreach Henv Hevs. revert st Hreach. unfold after.
  induction Hevs as [|ev evs Hev _ IH]; intros st Hreach; simpl.
  - by intros [= <-].
  - unfold bind. destruct (handle env ev st) as [e|[[] st1]] eqn:Hrun; [done|].
    apply IH. by eapply reachable_handle.
Qed.

(** C1. At all times the selection set is the set of the items of the
    sequence whose selected flag is true: it is so in every reachable state,
    every event handler (a hit, a select-by-filter and a remove among them)
    returns and leaves it so, and a deselect/select pass changes the set and
    the flags of the same items in the same way. *)
Theorem selection_set_mirrors_flags env ev st :
  reachable st → env_ok env → event_ok st ev →
  _selected_media st = flagged_in_sequence st
  ∧ (∃ st', handle env ev st = inr (tt, st')
            ∧ _selected_media st' = flagged_in_sequence st')
  ∧ ∀ media_to_deselect media_to_select,
      ∃ st', _DeselectSelect env media_to_deselect media_to_select st = inr (tt, st')
             ∧ _selected_media st' =
                 (_selected_media st ∖ list_to_set media_to_deselect)
                   ∪ list_to_set media_to_select
             ∧ ∀ x, is_selected st' x
                    = flag_after media_to_deselect media_to_select st x.
Proof.
  intros Hreach%reachable_panel_ok Henv Hev. split_and!.
  - apply Hreach.
  - apply (wp_returns_unit _ _
             (λ _ st', _selected_media st' = flagged_in_sequence st')).
    apply wp_handle; [done..|]. intros st' Hok. apply Hok.
  - intros des sel.
    apply (wp_returns_unit _ _
             (λ _ st', _selected_media st' =
                         (_selected_media st ∖ list_to_set des) ∪ list_to_set sel
                       ∧ ∀ x, is_selected st' x = flag_after des sel st x)).
    apply wp_DeselectSelect; [apply Hreach|].
    intros st' _ _ _ Hsm Hfl. split; [done|].
    intros x. by apply is_selected_flag_after.
Qed.

Lemma example_selected_reachable : reachable example_selected.
Proof.
  eapply (reachable_after example_env example_clicks example_panel).
  - apply reachable_new.
  - apply example_env_ok.
  - by repeat constructor.
  - vm_compute; reflexivity.
Qed.

Lemma example_selected_sorted :
  _sorted_media example_selected = [10; 11; 12; 13; 14]%nat.
Proof. vm_compute. reflexivity. Qed.

Lemma example_selected_ok : panel_ok example_selected.
Proof. apply reachable_panel_ok, example_selected_reachable. Qed.

Lemma example_item_in_sequence (m : nat) :
  bool_decide (m ∈ [10; 11; 12; 13; 14]%nat) = true →
  m ∈ _sorted_media example_selected.
Proof. rewrite example_selected_sorted. apply bool_decide_eq_true. Qed.




Lemma selection_set_mirrors_flags_witness :
  reachable example_selected ∧ env_ok example_env
  ∧ event_ok example_selected (SelectByFilter {[10; 11]}%nat)
  ∧ ∃ st', handle example_env (SelectByFilter {[10; 11]}%nat) example_selected
             = inr (tt, st')
           ∧ _selected_media st' = flagged_in_sequence st'.
Proof.
  assert (event_ok example_selected (SelectByFilter {[10; 11]}%nat)) as Hev.
  { intros m. simpl.
    replace (_sorted_media example_selected) with [10; 11; 12; 13; 14]%nat
      by (vm_compute; reflexivity).
    set_solver. }
  split_and!; [apply example_selected_reachable|apply example_env_ok|exact Hev|].
  apply (selection_set_mirrors_flags example_env (SelectByFilter {[10; 11]}%nat)
           example_selected example_selected_reachable example_env_ok Hev).
Defined.

(** C3, as stated, fails: with items 11 and 13 selected, a plain click on 11
    leaves 13 selected. *)
Lemma plain_click_counterexample :
  reachable example_selected
  ∧ ∃ st', _HitMedia example_env (Some 11%nat) false false example_selected
             = inr (tt, st')
           ∧ 13%nat ∈ _selected_media st'
           ∧ _selected_media st' ≠ {[11%nat]}.
Proof.
  split; [apply example_selected_reachable|].
  eexists. split; [vm_compute; reflexivity|].
  split.
  - vm_compute. reflexivity.
  - intros Heq. assert (13%nat ∈ ({[11%nat]} : gset nat)) as H13; [|set_solver].
    rewrite <- Heq. vm_compute. reflexivity.
Qed.

(** C3, amended. A plain click (no ctrl, no shift) on an item of the sequence
    that is not selected replaces the selection with the singleton of that
    item; on an item that is already selected it leaves the selection as it
    is. In both cases it focuses the item and starts a new shift anchor, with
    an empty working set, at it. *)
Theorem plain_click env m st :
  panel_ok st → m ∈ _sorted_media st →
  ∃ st', _HitMedia env (Some m) false false st = inr (tt, st')
         ∧ _selected_media st' = (if is_selected st m then _selected_media st else {[m]})
         ∧ flagged_in_sequence st' = _selected_media st'
         ∧ _focused_media st' = Some m
         ∧ _shift_select_started_with_this_media st' = Some m
         ∧ _media_added_in_current_shift_select st' = ∅.
Proof.
  intros Hok Hm. simpl.
  apply (wp_returns_unit _ _ (λ _ st',
    _selected_media st' = (if is_selected st m then _selected_media st else {[m]})
    ∧ flagged_in_sequence st' = _selected_media st'
    ∧ _focused_media st' = Some m
    ∧ _shift_select_started_with_this_media st' = Some m
    ∧ _media_added_in_current_shift_select st' = ∅)).
  apply wp_hit_plain; [apply Hok|done|by left|].
  intros st' des sel Hds Hok' Hl Hs Hsm Hfl Hfoc _ _ Hanc Hadd.
  split_and!; try done.
  - rewrite Hsm. destruct (is_selected st m); injection Hds as -> ->; simpl.
    + set_solver.
    + rewrite list_to_set_elements_L. set_solver.
  - symmetry. eapply (consistent_after_DeselectSelect des sel st);
      [apply Hok|done| |done|done].
    intros x Hx. destruct (is_selected st m); injection Hds as -> ->.
    + by apply elem_of_nil in Hx.
    + by apply list_elem_of_singleton in Hx as ->.
Qed.

Lemma plain_click_witness :
  panel_ok example_selected ∧ 12%nat ∈ _sorted_media example_selected
  ∧ ∃ st', _HitMedia example_env (Some 12%nat) false false example_selected
             = inr (tt, st')
           ∧ _selected_media st'
             = (if is_selected example_selected 12%nat
                then _selected_media example_selected else {[12%nat]})
           ∧ flagged_in_sequence st' = _selected_media st'
           ∧ _focused_media st' = Some 12%nat
           ∧ _shift_select_started_with_this_media st' = Some 12%nat
           ∧ _media_added_in_current_shift_select st' = ∅.
Proof.
  refine (conj example_selected_ok (conj (example_item_in_sequence 12%nat eq_refl) _)).
  exact (plain_click example_env 12%nat example_selected example_selected_ok
           (example_item_in_sequence 12%nat eq_refl)).
Defined.






(** The gesture of the witness, run: anchor at 13 with 11 and 13 selected
    beforehand; shift-click on 10 selects 10 to 13; shift-click on 12 then
    deselects 10, which the gesture had added, and keeps 11, which it had
    not. *)
Example shift_click_shorter_range :
  ∃ st', (shift_clicks example_env [(10%nat, false); (12%nat, false)]) example_selected
           = inr (tt, st')
         ∧ elements (_selected_media st') = [12; 13; 11]%nat
         ∧ elements (_media_added_in_current_shift_select st') = [12]%nat.
Proof. eexists. split_and!; vm_compute; reflexivity. Qed.

(** C5. When the focus is cleared while an item of the sequence is focused,
    and so when the focused item is removed, the cached fallback focus is the
    nearest item at or before the old focus index that is not in the
    selection set, and it is null when every item up to that index is
    selected. *)
Theorem fallback_focus_is_nearest_unselected st focused i :
  _focused_media st = Some focused →
  list_index focused (_sorted_media st) = Some i →
  (∃ st', _SetFocusedMedia None st = inr (tt, st')
          ∧ _focused_media st' = None
          ∧ _next_best_media_if_focuses_removed st'
            = nearest_unselected (_sorted_media st) (_selected_media st) i)
  ∧ (∀ env singleton_media collected_media,
       panel_ok st → yUnit env ≠ 0 →
       focused ∈ singleton_media ∪ collected_media →
       ∃ st', _RemoveMediaDirectly env singleton_media collected_media st
                = inr (tt, st')
              ∧ _next_best_media_if_focuses_removed st'
                = nearest_unselected (_sorted_media st) (_selected_media st) i)
  ∧ (∀ m, nearest_unselected (_sorted_media st) (_selected_media st) i = Some m ↔
          ∃ j, (j ≤ i)%nat ∧ _sorted_media st !! j = Some m
               ∧ (m ∉ _selected_media st)
               ∧ ∀ k x, (j < k ≤ i)%nat → _sorted_media st !! k = Some x →
                        x ∈ _selected_media st)
  ∧ (nearest_unselected (_sorted_media st) (_selected_media st) i = None ↔
     ∀ k x, (k ≤ i)%nat → _sorted_media st !! k = Some x → x ∈ _selected_media st).
Proof.
  intros Hfoc Hi.
  assert (fallback_focus None st
          = nearest_unselected (_sorted_media st) (_selected_media st) i) as Hfb.
  { unfold fallback_focus. by rewrite Hfoc, Hi. }
  assert (focused ∈ _sorted_media st) as Hin.
  { apply list_elem_of_lookup. eexists. by apply list_index_Some. }
  split_and!.
  - apply (wp_returns_unit _ _ (λ _ st',
      _focused_media st' = None
      ∧ _next_best_media_if_focuses_removed st'
        = nearest_unselected (_sorted_media st) (_selected_media st) i)).
    apply wp_SetFocusedMedia; [intros f _ Hf; congruence|]. by simpl.
  - intros env singleton_media collected_media Hok Hy Hrem.
    apply (wp_returns_unit _ _ (λ _ st',
      _next_best_media_if_focuses_removed st'
        = nearest_unselected (_sorted_media st) (_selected_media st) i)).
    apply wp_RemoveMediaDirectly; [done|done|].
    intros st' _ _ _ Hnb. rewrite Hnb, Hfoc, Hfb.
    apply elem_of_union in Hrem as [Hrem|Hrem].
    + by rewrite (bool_decide_eq_true_2 _ Hrem).
    + by rewrite (bool_decide_eq_true_2 _ Hrem), orb_true_r.
  - intros m. apply nearest_unselected_Some.
  - apply nearest_unselected_None.
Qed.

(** The example of the specification: in the sequence A, B, C with A and B
    selected and B focused, removing B leaves no fallback focus. *)
Example fallback_focus_A_B_C :
  let A := 1%nat in let B := 2%nat in let C := 3%nat in
  let st := set_focused_media (Some B)
              (set_selected (<[A := true]> (<[B := true]> ∅))
                 (set_selected_media {[A; B]}
                    (new_MediaPanelThumbnails [A; B; C] 1))) in
  ∃ st', _RemoveMediaDirectly example_env {[B]} ∅ st = inr (tt, st')
         ∧ _sorted_media st' = [A; C]
         ∧ _next_best_media_if_focuses_removed st' = None.
Proof. eexists. split_and!; vm_compute; reflexivity. Qed.

Lemma example_focused_reachable : reachable example_focused.
Proof.
  eapply (reachable_after example_env
            (example_clicks ++ [MousePress 75 75 false false false]) example_panel).
  - apply reachable_new.
  - apply example_env_ok.
  - by repeat constructor.
  - vm_compute; reflexivity.
Qed.

Lemma example_focused_focus : _focused_media example_focused = Some 13%nat.
Proof. vm_compute. reflexivity. Qed.

Lemma example_focused_index :
  list_index 13%nat (_sorted_media example_focused) = Some 3%nat.
Proof. vm_compute. reflexivity. Qed.

Lemma fallback_focus_is_nearest_unselected_witness :
  _focused_media example_focused = Some 13%nat
  ∧ list_index 13%nat (_sorted_media example_focused) = Some 3%nat
  ∧ ∃ st', _SetFocusedMedia None example_focused = inr (tt, st')
           ∧ _focused_media st' = None
           ∧ _next_best_media_if_focuses_removed st'
             = nearest_unselected (_sorted_media example_focused)
                 (_selected_media example_focused) 3.
Proof.
  refine (conj example_focused_focus (conj example_focused_index _)).
  exact (proj1 (fallback_focus_is_nearest_unselected example_focused 13%nat 3%nat
                  example_focused_focus example_focused_index)).
Defined.

(** In the witness the walk steps over 13, which is selected, and stops at
    12. *)
Example fallback_focus_steps_back :
  nearest_unselected (_sorted_media example_focused)
    (_selected_media example_focused) 3 = Some 12%nat.
Proof. vm_compute. reflexivity. Qed.

(** C6. For every viewport size and every thumbnail span that is not zero,
    the geometry recomputation returns with
    columns = max(1, width // span_width),
    rows_per_canvas_page = max(1, (height // span_height) // 2) and
    rows_per_actual_page = max(1, height // span_height). *)
Theorem geometry_recomputation env st :
  (thumbnail_span env).1 ≠ 0 → (thumbnail_span env).2 ≠ 0 →
  (∀ i c, _clean_canvas_pages st !! i = Some c → 0 ≤ i) →
  ∃ st', _ReinitialisePageCacheIfNeeded env st = inr (tt, st')
         ∧ _num_columns st'
           = Z.max 1 (visible_rect_width env / (thumbnail_span env).1)
         ∧ _num_rows_per_canvas_page st'
           = Z.max 1 (visible_rect_height env / (thumbnail_span env).2 / 2)
         ∧ _num_rows_per_actual_page st'
           = Z.max 1 (visible_rect_height env / (thumbnail_span env).2).
Proof.
  intros Hw Hh Hnn.
  apply (wp_returns_unit _ _ (λ _ st',
    _num_columns st' = Z.max 1 (visible_rect_width env / (thumbnail_span env).1)
    ∧ _num_rows_per_canvas_page st'
      = Z.max 1 (visible_rect_height env / (thumbnail_span env).2 / 2)
    ∧ _num_rows_per_actual_page st'
      = Z.max 1 (visible_rect_height env / (thumbnail_span env).2))).
  apply wp_ReinitialisePageCacheIfNeeded; [done..|].
  by intros st' _ Hc Hr Ha _ _ _ _.
Qed.

Lemma example_selected_nonneg :
  ∀ i c, _clean_canvas_pages example_selected !! i = Some c → 0 ≤ i.
Proof. apply example_selected_ok. Qed.

Lemma geometry_recomputation_witness :
  (thumbnail_span (example_env_sized 330 270)).1 ≠ 0
  ∧ (thumbnail_span (example_env_sized 330 270)).2 ≠ 0
  ∧ (∀ i c, _clean_canvas_pages example_selected !! i = Some c → 0 ≤ i)
  ∧ ∃ st', _ReinitialisePageCacheIfNeeded (example_env_sized 330 270) example_selected
             = inr (tt, st')
           ∧ _num_columns st' = Z.max 1 (330 / 50)
           ∧ _num_rows_per_canvas_page st' = Z.max 1 (270 / 50 / 2)
           ∧ _num_rows_per_actual_page st' = Z.max 1 (270 / 50).
Proof.
  assert ((50 : Z) ≠ 0) as H50 by lia.
  refine (conj H50 (conj H50 (conj example_selected_nonneg _))).
  exact (geometry_recomputation (example_env_sized 330 270) example_selected
           H50 H50 example_selected_nonneg).
Defined.

(** With a span of zero the recomputation raises. *)
Example geometry_recomputation_zero_span :
  ∀ st, _ReinitialisePageCacheIfNeeded
          {| visible_rect_y := 0; visible_rect_width := 100;
             visible_rect_height := 100; virtual_height := 100;
             thumbnail_span := (0, 0); thumbnail_margin := 0; yUnit := 1;
             device_pixel_ratio := 1;
             focus_preview_on_ctrl_click := false;
             focus_preview_on_ctrl_click_only_static := false;
             focus_preview_on_shift_click := false;
             focus_preview_on_shift_click_only_static := false;
             fade_thumbnails := false; IsCurrentPage := true;
             HasThumbnailCached := λ _, true; GetDisplayHash := λ _, None;
             DurationIsNone := λ _, true; GetNowPrecise_at := λ _, 0%Q;
             shuffle := λ l, l; IterateListRandomlyAndFast := λ l, l |} st
        = inl ZeroDivisionError.
Proof. intros st. unfold _ReinitialisePageCacheIfNeeded, bind, get. by destruct (_last_size st). Qed.

Lemma example_env_hidden_ok : env_ok example_env_hidden.
Proof. split; simpl; try done; lia. Qed.

Lemma example_dirty_reachable : reachable example_dirty.
Proof.
  eapply (reachable_after example_env_hidden [ThumbnailsAvailable [10%nat]]
            example_selected).
  - apply example_selected_reachable.
  - apply example_env_hidden_ok.
  - by repeat constructor.
  - vm_compute; reflexivity.
Qed.

(** C7, as stated, fails: the viewport grows from 100 by 100 to 100 by 110,
    which changes neither the columns nor the rows of a canvas page, and the
    four buffers of the dirty pool stay. *)
Lemma resize_taller_counterexample :
  reachable example_dirty
  ∧ (_last_size example_dirty).2 < visible_rect_height (example_env_sized 100 110)
  ∧ ∃ st', EventResize (example_env_sized 100 110) example_dirty = inr (tt, st')
           ∧ _dirty_canvas_pages example_dirty = [3; 2; 1; 0]%nat
           ∧ _dirty_canvas_pages st' = [3; 2; 1; 0]%nat.
Proof.
  split; [apply example_dirty_reachable|].
  split; [vm_compute; reflexivity|].
  eexists. split_and!; vm_compute; reflexivity.
Qed.

(** C7, amended. On a resize event: if the recomputed column count differs
    from the old one, the clean pool is emptied; if the column count and the
    rows per canvas page are unchanged and the viewport did not get wider,
    both pools are left as they are; and when the viewport got wider, the
    clean pool is emptied and the dirty buffers are discarded. *)
Theorem resize_invalidation env st :
  (thumbnail_span env).1 ≠ 0 → (thumbnail_span env).2 ≠ 0 → yUnit env ≠ 0 →
  (∀ i c, _clean_canvas_pages st !! i = Some c → 0 ≤ i) →
  ∃ st', EventResize env st = inr (tt, st')
         ∧ (_num_columns st' ≠ _num_columns st → _clean_canvas_pages st' = ∅)
         ∧ (_num_columns st' = _num_columns st →
            _num_rows_per_canvas_page st' = _num_rows_per_canvas_page st →
            visible_rect_width env ≤ (_last_size st).1 →
            _clean_canvas_pages st' = _clean_canvas_pages st
            ∧ _dirty_canvas_pages st' = _dirty_canvas_pages st)
         ∧ ((_last_size st).1 < visible_rect_width env →
            _clean_canvas_pages st' = ∅ ∧ _dirty_canvas_pages st' = []).
Proof.
  intros Hw Hh Hy Hnn.
  apply (wp_returns_unit _ _ (λ _ st',
    (_num_columns st' ≠ _num_columns st → _clean_canvas_pages st' = ∅)
    ∧ (_num_columns st' = _num_columns st →
       _num_rows_per_canvas_page st' = _num_rows_per_canvas_page st →
       visible_rect_width env ≤ (_last_size st).1 →
       _clean_canvas_pages st' = _clean_canvas_pages st
       ∧ _dirty_canvas_pages st' = _dirty_canvas_pages st)
    ∧ ((_last_size st).1 < visible_rect_width env →
       _clean_canvas_pages st' = ∅ ∧ _dirty_canvas_pages st' = []))).
  apply wp_EventResize; [done..|].
  intros st' _ Hc Hr _ _ _ _ Hpools. unfold resize_resets in Hpools.
  destruct (thumbnail_span env) as [sw sh]. simpl in *.
  rewrite <- Hc, <- Hr in Hpools. split_and!.
  - intros Hne. rewrite (bool_decide_eq_false_2 (_num_columns st = _num_columns st'))
      in Hpools by congruence. simpl in Hpools. apply Hpools.
  - intros Hc' Hr' Hwide.
    rewrite (bool_decide_eq_true_2 (_num_columns st = _num_columns st')),
      (bool_decide_eq_true_2 (_num_rows_per_canvas_page st = _num_rows_per_canvas_page st')),
      (bool_decide_eq_false_2 ((_last_size st).1 < visible_rect_width env))
      in Hpools by (congruence || lia).
    exact Hpools.
  - intros Hwide.
    rewrite (bool_decide_eq_true_2 ((_last_size st).1 < visible_rect_width env)),
      orb_true_r in Hpools by done.
    exact Hpools.
Qed.

Lemma example_dirty_nonneg :
  ∀ i c, _clean_canvas_pages example_dirty !! i = Some c → 0 ≤ i.
Proof. apply (reachable_panel_ok _ example_dirty_reachable). Qed.

Lemma resize_invalidation_witness :
  (thumbnail_span (example_env_sized 160 100)).1 ≠ 0
  ∧ (thumbnail_span (example_env_sized 160 100)).2 ≠ 0
  ∧ yUnit (example_env_sized 160 100) ≠ 0
  ∧ (∀ i c, _clean_canvas_pages example_dirty !! i = Some c → 0 ≤ i)
  ∧ ∃ st', EventResize (example_env_sized 160 100) example_dirty = inr (tt, st')
           ∧ (_num_columns st' ≠ _num_columns example_dirty →
              _clean_canvas_pages st' = ∅)
           ∧ (_num_columns st' = _num_columns example_dirty →
              _num_rows_per_canvas_page st' = _num_rows_per_canvas_page example_dirty →
              visible_rect_width (example_env_sized 160 100)
                ≤ (_last_size example_dirty).1 →
              _clean_canvas_pages st' = _clean_canvas_pages example_dirty
              ∧ _dirty_canvas_pages st' = _dirty_canvas_pages example_dirty)
           ∧ ((_last_size example_dirty).1
                < visible_rect_width (example_env_sized 160 100) →
              _clean_canvas_pages st' = ∅ ∧ _dirty_canvas_pages st' = []).
Proof.
  assert ((50 : Z) ≠ 0) as H50 by lia.
  refine (conj H50 (conj H50 (conj H50 (conj example_dirty_nonneg _)))).
  exact (resize_invalidation (example_env_sized 160 100) example_dirty
           H50 H50 H50 example_dirty_nonneg).
Defined.

(** C10. Hit-testing returns, with no item or with the item of the sequence
    at the index of the cell under the mouse, an index that is in range; it
    answers no item on the margin around a cell, in a column at or beyond the
    column count, and for an index that is negative or at or beyond the
    length of the sequence. *)
Theorem hit_test_in_range env st x y :
  (thumbnail_span env).1 ≠ 0 → (thumbnail_span env).2 ≠ 0 →
  ∃ r, _GetThumbnailUnderMouse env x y st = inr (r, st)
       ∧ (in_dead_zone env x y → r = None)
       ∧ (_num_columns st ≤ column_at env x → r = None)
       ∧ (thumbnail_index_at env st x y < 0 → r = None)
       ∧ (Z.of_nat (length (_sorted_media st)) ≤ thumbnail_index_at env st x y →
          r = None)
       ∧ ∀ m, r = Some m →
              0 ≤ thumbnail_index_at env st x y < Z.of_nat (length (_sorted_media st))
              ∧ _sorted_media st !! Z.to_nat (thumbnail_index_at env st x y) = Some m
              ∧ m ∈ _sorted_media st.
Proof.
  intros Hw Hh.
  pose proof (wp_GetThumbnailUnderMouse env x y st (λ r st',
    st' = st
    ∧ (misses env st x y → r = None)
    ∧ (¬ misses env st x y →
       0 ≤ thumbnail_index_at env st x y < Z.of_nat (length (_sorted_media st))
       ∧ r = _sorted_media st !! Z.to_nat (thumbnail_index_at env st x y)
       ∧ is_Some r)) Hw Hh) as Hwp.
  apply wp_returns in Hwp as (r & st' & Hrun & -> & Hmiss & Hhit); [|by intros].
  exists r. unfold misses in *. split_and!; try done; try (intros; apply Hmiss; tauto).
  intros m ->.
  destruct Hhit as (Hrange & Hm & _).
  { intros Hm. by specialize (Hmiss Hm). }
  split_and!; [lia|lia|done|]. apply list_elem_of_lookup. eauto.
Qed.

Lemma hit_test_in_range_witness :
  (thumbnail_span example_env).1 ≠ 0 ∧ (thumbnail_span example_env).2 ≠ 0
  ∧ ∃ r, _GetThumbnailUnderMouse example_env 75 75 example_selected
           = inr (r, example_selected)
         ∧ (in_dead_zone example_env 75 75 → r = None)
         ∧ (_num_columns example_selected ≤ column_at example_env 75 → r = None)
         ∧ (thumbnail_index_at example_env example_selected 75 75 < 0 → r = None)
         ∧ (Z.of_nat (length (_sorted_media example_selected))
              ≤ thumbnail_index_at example_env example_selected 75 75 → r = None)
         ∧ ∀ m, r = Some m →
                0 ≤ thumbnail_index_at example_env example_selected 75 75
                  < Z.of_nat (length (_sorted_media example_selected))
                ∧ _sorted_media example_selected
                    !! Z.to_nat (thumbnail_index_at example_env example_selected 75 75)
                  = Some m
                ∧ m ∈ _sorted_media example_selected.
Proof.
  assert ((50 : Z) ≠ 0) as H50 by lia.
  refine (conj H50 (conj H50 _)).
  exact (hit_test_in_range example_env example_selected 75 75 H50 H50).
Defined.

(** The mouse in the cell of item 13, on a margin, right of the last column,
    below the last row, and left of the grid, where the column index is -1
    and the cell found is the last one of the row above. *)
Example hit_test_examples :
  _GetThumbnailUnderMouse example_env 75 75 example_selected
    = inr (Some 13%nat, example_selected)
  ∧ _GetThumbnailUnderMouse example_env 51 75 example_selected
    = inr (None, example_selected)
  ∧ _GetThumbnailUnderMouse example_env 125 25 example_selected
    = inr (None, example_selected)
  ∧ _GetThumbnailUnderMouse example_env 75 125 example_selected
    = inr (None, example_selected)
  ∧ _GetThumbnailUnderMouse example_env (-25) 75 example_selected
    = inr (Some 11%nat, example_selected).
Proof. split_and!; vm_compute; reflexivity. Qed.

(** ** Making draw objects *)

Lemma frames_of_a_fade : Z.max (float_floordiv FADE_DURATION_S FRAME_DURATION_60FPS) 1 = 30.
Proof. vm_compute. reflexivity. Qed.

Lemma fades_in_fades_only env st st' t h :
  fades_only st st' → fades_in env st' t h ↔ fades_in env st t h.
Proof.
  intros (Hs & Hl & Hp). unfold fades_in, page_of.
  unfold selection in Hs. unfold layout in Hl. unfold pools in Hp.
  injection Hs as -> _ _ _ _ _ _ _. injection Hl as -> -> _ _ _.
  injection Hp as -> _ _. done.
Qed.

(** What [_FadeThumbnails] does with one thumbnail. *)
Lemma wp_fade_thumbnail_entry env t st Q :
  geom_ok st →
  (∀ st', fades_only st st' →
          (∃ h o, fades_in env st t h ∧ made_for env o ∧
                  _hashes_to_thumbnails_waiting_to_be_drawn st'
                  = <[h := o]> (_hashes_to_thumbnails_waiting_to_be_drawn st))
          ∨ ((∀ h, ¬ fades_in env st t h) ∧
             _hashes_to_thumbnails_waiting_to_be_drawn st'
             = _hashes_to_thumbnails_waiting_to_be_drawn st) →
          Q tt st') →
  wp (fade_thumbnail env t) st Q.
Proof.
  intros Hg HQ. unfold fade_thumbnail.
  destruct (GetDisplayHash env t) as [h|] eqn:Hh.
  2:{ apply wp_ret, HQ; [apply fades_only_refl|]. right. split; [|done].
      intros h [Hh' _]. congruence. }
  apply wp_bind, wp_get.
  destruct (list_index t (_sorted_media st)) as [index|] eqn:Hindex.
  2:{ apply wp_ret, HQ; [apply fades_only_refl|]. right. split; [|done].
      intros h' (_ & i & Hi & _). congruence. }
  apply wp_bind, wp_GetPageIndexFromThumbnailIndex; [done|].
  fold (page_of st index).
  destruct (decide (is_Some (_clean_canvas_pages st !! page_of st index)))
    as [Hclean|Hclean].
  2:{ apply wp_ret, HQ; [apply fades_only_refl|]. right. split; [|done].
      intros h' (_ & i & Hi & Hc). congruence. }
  assert (fades_in env st t h) as Hin by (split; eauto).
  apply wp_bind, wp_modify, wp_bind.
  (* _StopFading and the insertion amount to the insertion *)
  unfold _StopFading. apply wp_bind, wp_get.
  assert (∀ st1 o,
    fades_only st st1 → made_for env o →
    delete h (_hashes_to_thumbnails_waiting_to_be_drawn st)
      = _hashes_to_thumbnails_waiting_to_be_drawn st1
    ∨ _hashes_to_thumbnails_waiting_to_be_drawn st
      = _hashes_to_thumbnails_waiting_to_be_drawn st1 →
    Q tt (set_hashes_to_thumbnails_waiting_to_be_drawn
            (<[h := o]> (_hashes_to_thumbnails_waiting_to_be_drawn st1)) st1)) as Hend.
  { intros st1 o Hf Ho Hpend. apply HQ.
    - eapply fades_only_trans; [exact Hf|]. by repeat split.
    - left. exists h, o. split_and!; [done|done|]. simpl.
      destruct Hpend as [<-|<-]; [|done]. apply insert_delete_eq. }
  assert (∀ st1,
    fades_only st st1 →
    delete h (_hashes_to_thumbnails_waiting_to_be_drawn st)
      = _hashes_to_thumbnails_waiting_to_be_drawn st1
    ∨ _hashes_to_thumbnails_waiting_to_be_drawn st
      = _hashes_to_thumbnails_waiting_to_be_drawn st1 →
    wp (thumbnail_draw_object ←
          (if fade_thumbnails env
           then new_ThumbnailWaitingToBeDrawnAnimated env h t index
           else ret (new_ThumbnailWaitingToBeDrawn h t index));
        modify (λ st, set_hashes_to_thumbnails_waiting_to_be_drawn
                        (<[h := thumbnail_draw_object]>
                           (_hashes_to_thumbnails_waiting_to_be_drawn st)) st))
       st1 Q) as Hmake.
  { intros st1 Hf Hpend. apply wp_bind. unfold made_for in Hend.
    destruct (fade_thumbnails env).
    - unfold new_ThumbnailWaitingToBeDrawnAnimated.
      apply wp_bind, wp_GetNowPrecise, wp_ret, wp_modify.
      apply (Hend (set_clock (S (clock st1)) st1)).
      + eapply fades_only_trans; [exact Hf|]. by repeat split.
      + split; [done|]. eexists. split; [done|]. split; [done|]. apply frames_of_a_fade.
      + exact Hpend.
    - apply wp_ret, wp_modify. by apply Hend. }
  destruct (decide (is_Some (_ !! h))).
  - apply wp_modify. apply Hmake; [by repeat split|]. by left.
  - apply wp_ret. apply Hmake; [by repeat split|]. by right.
Qed.

Lemma wp_fade_thumbnails env thumbnails st0 st Q :
  geom_ok st0 → fades_only st0 st →
  (∀ st',
     fades_only st0 st' →
     (∀ h o, _hashes_to_thumbnails_waiting_to_be_drawn st' !! h = Some o →
             _hashes_to_thumbnails_waiting_to_be_drawn st !! h = Some o
             ∨ made_for env o) →
     (∀ h, is_Some (_hashes_to_thumbnails_waiting_to_be_drawn st !! h) →
           is_Some (_hashes_to_thumbnails_waiting_to_be_drawn st' !! h)) →
     (∀ t h, t ∈ thumbnails → fades_in env st0 t h →
             ∃ o, _hashes_to_thumbnails_waiting_to_be_drawn st' !! h = Some o
                  ∧ made_for env o) →
     Q tt st') →
  wp (for_each thumbnails (fade_thumbnail env)) st Q.
Proof.
  intros Hg. revert st Q.
  induction thumbnails as [|t thumbnails IH]; intros st Q Hf HQ; simpl.
  { apply wp_ret, HQ; try done; [by left|]. by intros t h ?%elem_of_nil. }
  apply wp_bind, wp_fade_thumbnail_entry; [by eapply fades_only_geom|].
  intros st1 Hf1 Hstep.
  assert (fades_only st0 st1) as Hf01 by (by eapply fades_only_trans).
  assert (∀ h o, _hashes_to_thumbnails_waiting_to_be_drawn st1 !! h = Some o →
                 _hashes_to_thumbnails_waiting_to_be_drawn st !! h = Some o
                 ∨ made_for env o) as Hold.
  { intros h o Ho. destruct Hstep as [(h' & o' & Hin & Ho' & Heq)|[_ Heq]].
    - rewrite Heq in Ho. apply lookup_insert_Some in Ho as [[<- <-]|[_ Ho]]; auto.
    - left. by rewrite <- Heq. }
  assert (∀ h, is_Some (_hashes_to_thumbnails_waiting_to_be_drawn st !! h) →
               is_Some (_hashes_to_thumbnails_waiting_to_be_drawn st1 !! h)) as Hdom.
  { intros h Hh. destruct Hstep as [(h' & o' & Hin & Ho' & ->)|[_ ->]]; [|done].
    destruct (decide (h' = h)) as [->|];
      [rewrite lookup_insert_eq; by eexists|by rewrite lookup_insert_ne]. }
  apply IH; [done|].
  intros st' Hf' Hold' Hdom' Hnew'. apply HQ; [done| | |].
  - intros h o Ho. destruct (Hold' h o Ho) as [Ho1|?]; [|by right]. by apply Hold.
  - intros h Hh. by apply Hdom', Hdom.
  - intros t' h [->|Hin]%elem_of_cons Hfi; [|by eapply Hnew'].
    apply (fades_in_fades_only env st0 st) in Hfi; [|done].
    destruct Hstep as [(h' & o & Hin & Ho & Heq)|[Hnone _]]; [|by destruct (Hnone h)].
    assert (h' = h) as -> by (destruct Hin, Hfi; congruence).
    destruct (Hdom' h) as [o' Ho']; [rewrite Heq, lookup_insert_eq; by eexists|].
    exists o'. split; [done|].
    destruct (Hold' h o' Ho') as [Ho1|?]; [|done].
    rewrite Heq, lookup_insert_eq in Ho1. by injection Ho1 as <-.
Qed.

(** C9. The draw object made for a thumbnail that becomes available has
    [max( 1, round( 0.5 / frame_duration ) )] frames to draw, which at the
    60 Hz frame period is 30, when fading is on; when fading is off it is of
    the plain class, which is always due and completes in one draw of the
    full-opacity bitmap. *)
Theorem fade_frame_budget env thumbnails st :
  geom_ok st → IsCurrentPage env = true →
  Z.max 1 (py_round (FADE_DURATION_S / FRAME_DURATION_60FPS)) = 30
  ∧ (∃ st', _FadeThumbnails env thumbnails st = inr (tt, st')
            ∧ (∀ t h, t ∈ thumbnails → fades_in env st t h →
                      ∃ o, _hashes_to_thumbnails_waiting_to_be_drawn st' !! h = Some o
                           ∧ made_for env o)
            ∧ (∀ h o, _hashes_to_thumbnails_waiting_to_be_drawn st' !! h = Some o →
                      _hashes_to_thumbnails_waiting_to_be_drawn st !! h = Some o
                      ∨ made_for env o))
  ∧ (∀ o x y painter st1,
       animated o = None →
       DrawDue env o st1 = inr (true, st1)
       ∧ ∃ o', DrawToPainter env o x y painter st1
                 = inr (o', set_painted
                              (painted st1 ++ [DrawImage painter x y (Bitmap (entry_hash o))])
                              st1)
               ∧ DrawComplete o' = true).
Proof.
  intros Hg Hcur. split_and!.
  - vm_compute. reflexivity.
  - apply (wp_returns_unit _ _ (λ _ st',
      (∀ t h, t ∈ thumbnails → fades_in env st t h →
              ∃ o, _hashes_to_thumbnails_waiting_to_be_drawn st' !! h = Some o
                   ∧ made_for env o)
      ∧ (∀ h o, _hashes_to_thumbnails_waiting_to_be_drawn st' !! h = Some o →
                _hashes_to_thumbnails_waiting_to_be_drawn st !! h = Some o
                ∨ made_for env o))).
    unfold _FadeThumbnails. case_decide as Hlen.
    { destruct thumbnails; [|done]. apply wp_ret. split; [|by left].
      by intros t h ?%elem_of_nil. }
    rewrite Hcur. simpl. apply wp_bind, wp_GetNowPrecise.
    apply (wp_fade_thumbnails env thumbnails st); [done|by repeat split|].
    intros st' _ Hold _ Hnew. split; [done|]. intros h o Ho.
    destruct (Hold h o Ho); auto.
  - intros o x y painter st1 Hplain. unfold DrawDue, DrawToPainter. rewrite Hplain.
    split; [done|]. by eexists.
Qed.

Lemma example_selected_geom : geom_ok example_selected.
Proof. apply example_selected_ok. Qed.

Lemma fade_frame_budget_witness :
  geom_ok example_selected ∧ IsCurrentPage example_env = true
  ∧ ∃ st', _FadeThumbnails example_env [10; 12]%nat example_selected = inr (tt, st')
           ∧ (∀ t h, t ∈ [10; 12]%nat → fades_in example_env example_selected t h →
                     ∃ o, _hashes_to_thumbnails_waiting_to_be_drawn st' !! h = Some o
                          ∧ made_for example_env o)
           ∧ (∀ h o, _hashes_to_thumbnails_waiting_to_be_drawn st' !! h = Some o →
                     _hashes_to_thumbnails_waiting_to_be_drawn example_selected !! h
                       = Some o
                     ∨ made_for example_env o).
Proof.
  refine (conj example_selected_geom (conj eq_refl _)).
  exact (proj1 (proj2 (fade_frame_budget example_env [10; 12]%nat example_selected
                         example_selected_geom eq_refl))).
Defined.

(** The draw object the witness makes for item 12. *)
Example fade_frame_budget_example :
  ∃ st' o, _FadeThumbnails example_env [10; 12]%nat example_selected = inr (tt, st')
           ∧ _hashes_to_thumbnails_waiting_to_be_drawn st' !! 12%N = Some o
           ∧ thumbnail o = 12%nat ∧ thumbnail_index o = 2%nat
           ∧ (num_frames_to_draw <$> animated o) = Some 30.
Proof. do 2 eexists. split_and!; vm_compute; reflexivity. Qed.

(** ** Stale entries of the pending map *)

Lemma draws_of_inj h h' d : draws_of h d → draws_of h' d → h = h'.
Proof. intros [?|?] [?|?]; congruence. Qed.

(** The loop leaves a stale entry where it is, or deletes it. *)
Lemma wp_animation_loop_stale env loop_should_break_time hashes painters st0 st h o Q :
  geom_ok st0 → fades_only st0 st → stale st0 o → NoDup hashes →
  (∀ h', h' ∈ hashes →
         is_Some (_hashes_to_thumbnails_waiting_to_be_drawn st !! h')) →
  (h ∈ hashes → _hashes_to_thumbnails_waiting_to_be_drawn st !! h = Some o) →
  _hashes_to_thumbnails_waiting_to_be_drawn st !! h = Some o
  ∨ _hashes_to_thumbnails_waiting_to_be_drawn st !! h = None →
  (∀ st', _hashes_to_thumbnails_waiting_to_be_drawn st' !! h = Some o
          ∨ _hashes_to_thumbnails_waiting_to_be_drawn st' !! h = None → Q tt st') →
  wp (animation_loop env loop_should_break_time hashes painters) st Q.
Proof.
  intros Hg. revert painters st.
  induction hashes as [|h1 hashes IH];
    intros painters st Hf Hst Hnd Hin Hh Hcur HQ; simpl.
  { by apply wp_ret, HQ. }
  apply NoDup_cons in Hnd as [Hh1 Hnd].
  destruct (Hin h1) as [o1 Ho1]; [left|].
  apply wp_bind. eapply wp_animation_step; [by eapply fades_only_geom|exact Ho1|].
  intros [painters' stop] st1 Hf1 Hother _ Hstale1.
  assert (_hashes_to_thumbnails_waiting_to_be_drawn st1 !! h = Some o
          ∨ _hashes_to_thumbnails_waiting_to_be_drawn st1 !! h = None) as Hcur1.
  { destruct (decide (h = h1)) as [->|Hne]; [|by rewrite Hother].
    rewrite Hh in Ho1 by left. injection Ho1 as <-.
    rewrite Hstale1 by (by apply (stale_fades_only st0 st)).
    destruct (_ || _); [right; apply lookup_delete_eq|by left; apply Hh; left]. }
  destruct stop; [by apply wp_ret, HQ|].
  apply IH; [by eapply fades_only_trans|done|done| | |done|done].
  - intros h' Hh'. rewrite Hother; [apply Hin; by right|]. by intros ->.
  - intros Hh'. rewrite Hother; [apply Hh; by right|]. by intros ->.
Qed.

Lemma example_removed_reachable : reachable example_removed.
Proof.
  eapply (reachable_after example_env [RemoveMedia {[11%nat]} ∅] example_selected).
  - apply example_selected_reachable.
  - apply example_env_ok.
  - by repeat constructor.
  - vm_compute; reflexivity.
Qed.

Lemma example_removed_keyed : pending_keyed example_removed.
Proof.
  change (map_Forall (λ h o, entry_hash o = h)
            (_hashes_to_thumbnails_waiting_to_be_drawn example_removed)).
  apply map_Forall_to_list. vm_compute. by repeat constructor.
Qed.

(** C8, as stated, fails: item 11 is removed right after the fade of item 13
    was filed; the removal sends every canvas page to the dirty pool and
    moves item 14 to position 3, which the entry of item 13 remembers. The
    tick that follows, a few milliseconds later, finds the entry not yet due
    for its first frame, and leaves it in the pending map. *)
Lemma stale_entry_counterexample :
  reachable example_removed
  ∧ ∃ o st',
      _hashes_to_thumbnails_waiting_to_be_drawn example_removed !! 13%N = Some o
      ∧ _sorted_media example_removed !! thumbnail_index o ≠ Some (thumbnail o)
      ∧ _clean_canvas_pages example_removed
          !! page_of example_removed (thumbnail_index o) = None
      ∧ TIMERAnimationUpdate example_env example_removed = inr (tt, st')
      ∧ _hashes_to_thumbnails_waiting_to_be_drawn st' !! 13%N = Some o.
Proof.
  split; [apply example_removed_reachable|].
  do 2 eexists. split; [vm_compute; reflexivity|].
  split; [vm_compute; intros [=]|].
  split_and!; vm_compute; reflexivity.
Qed.

(** C8, amended. During an animation tick no draw call is made for a pending
    fade entry whose covering page is no longer in the clean pool, or whose
    remembered index no longer holds its item in the sorted sequence, and the
    tick leaves the entry as it was or removes it. The round of the loop that
    visits the entry removes it when the entry is due for a frame, and leaves
    it for a later tick when it is not. *)
Theorem stale_entry_is_not_drawn env st h o :
  env_ok env → geom_ok st → pending_keyed st →
  _hashes_to_thumbnails_waiting_to_be_drawn st !! h = Some o →
  stale st o →
  (∃ st', TIMERAnimationUpdate env st = inr (tt, st')
          ∧ (∃ new, painted st' = painted st ++ new ∧ ∀ d, d ∈ new → ¬ draws_of h d)
          ∧ (_hashes_to_thumbnails_waiting_to_be_drawn st' !! h = Some o
             ∨ _hashes_to_thumbnails_waiting_to_be_drawn st' !! h = None))
  ∧ (∀ loop_should_break_time page_indices_to_painters,
       ∃ r st', animation_step env loop_should_break_time h page_indices_to_painters st
                  = inr (r, st')
                ∧ painted st' = painted st
                ∧ _hashes_to_thumbnails_waiting_to_be_drawn st'
                  = if due_at env st o || _draw_complete o
                    then delete h (_hashes_to_thumbnails_waiting_to_be_drawn st)
                    else _hashes_to_thumbnails_waiting_to_be_drawn st).
Proof.
  intros Henv Hg Hkeyed Ho Hst. split.
  - apply (wp_returns_unit _ _ (λ _ st',
      (∃ new, painted st' = painted st ++ new ∧ ∀ d, d ∈ new → ¬ draws_of h d)
      ∧ (_hashes_to_thumbnails_waiting_to_be_drawn st' !! h = Some o
         ∨ _hashes_to_thumbnails_waiting_to_be_drawn st' !! h = None))).
    apply wp_conj.
    + apply wp_TIMERAnimationUpdate; [done|done|].
      intros st' (_ & new & Hnew & Hdraws). exists new. split; [done|].
      intros d Hd Hdh. destruct (Hdraws d Hd) as (h' & o' & Ho' & Hfresh & Hdo').
      pose proof (Hkeyed h' o' Ho') as Hk.
      assert (h' = h) as -> by (rewrite <- Hk; by eapply draws_of_inj).
      rewrite Ho in Ho'. injection Ho' as <-. done.
    + unfold TIMERAnimationUpdate.
      apply wp_bind, wp_GetNowPrecise, wp_bind, wp_get.
      eapply (wp_animation_loop_stale _ _ _ _ st); [done|by repeat split|exact Hst| | | | |].
      * rewrite (iterate_perm env Henv). apply NoDup_fst_map_to_list.
      * intros h'. rewrite (iterate_perm env Henv), list_elem_of_fmap.
        intros ([h'' o''] & -> & Hho%elem_of_map_to_list). by eexists.
      * done.
      * by left.
      * done.
  - intros loop_should_break_time painters.
    apply (wp_returns _ _ (λ _ st',
      painted st' = painted st
      ∧ _hashes_to_thumbnails_waiting_to_be_drawn st'
        = if due_at env st o || _draw_complete o
          then delete h (_hashes_to_thumbnails_waiting_to_be_drawn st)
          else _hashes_to_thumbnails_waiting_to_be_drawn st)).
    eapply wp_animation_step; [done|exact Ho|].
    intros r st' _ _ (new & Hnew & _ & Hnone) Hdel. split; [|by apply Hdel].
    by rewrite Hnew, (Hnone Hst), app_nil_r.
Qed.

Lemma example_removed_geom : geom_ok example_removed.
Proof. apply reachable_panel_ok, example_removed_reachable. Qed.

Lemma example_entry_pending :
  _hashes_to_thumbnails_waiting_to_be_drawn example_removed !! 13%N = Some example_entry.
Proof. vm_compute. reflexivity. Qed.

Lemma example_entry_stale : stale example_removed example_entry.
Proof. right. vm_compute. reflexivity. Qed.

Lemma stale_entry_is_not_drawn_witness :
  env_ok example_env ∧ geom_ok example_removed ∧ pending_keyed example_removed
  ∧ _hashes_to_thumbnails_waiting_to_be_drawn example_removed !! 13%N
    = Some example_entry
  ∧ stale example_removed example_entry
  ∧ (∃ st', TIMERAnimationUpdate example_env example_removed = inr (tt, st')
            ∧ (∃ new, painted st' = painted example_removed ++ new
                      ∧ ∀ d, d ∈ new → ¬ draws_of 13%N d)
            ∧ (_hashes_to_thumbnails_waiting_to_be_drawn st' !! 13%N = Some example_entry
               ∨ _hashes_to_thumbnails_waiting_to_be_drawn st' !! 13%N = None)).
Proof.
  refine (conj example_env_ok (conj example_removed_geom (conj example_removed_keyed
            (conj example_entry_pending (conj example_entry_stale _))))).
  exact (proj1 (stale_entry_is_not_drawn example_env example_removed 13%N example_entry
                  example_env_ok example_removed_geom example_removed_keyed
                  example_entry_pending example_entry_stale)).
Defined.

(** The round that visits the entry of the witness 20 ms after it was filed
    finds it due and removes it; no draw call is made. *)
Example stale_entry_removed_when_due :
  ∃ r st', animation_step example_env 1 13%N ∅ (set_clock 23 example_removed)
             = inr (r, st')
           ∧ painted st' = painted example_removed
           ∧ _hashes_to_thumbnails_waiting_to_be_drawn st' !! 13%N = None
           ∧ is_Some (_hashes_to_thumbnails_waiting_to_be_drawn st' !! 11%N).
Proof. do 2 eexists. split_and!; [vm_compute; reflexivity..|]. vm_compute. by eexists. Qed.

(** ** The two pools of the page cache *)

Lemma clean_not_dirty st page_index canvas_page :
  NoDup (pool st) →
  _clean_canvas_pages st !! page_index = Some canvas_page →
  canvas_page ∉ _dirty_canvas_pages st.
Proof.
  unfold pool. intros (_ & Hnot & _)%NoDup_app Hc. apply Hnot.
  apply list_elem_of_fmap. exists (page_index, canvas_page).
  split; [done|]. by apply elem_of_map_to_list.
Qed.

(** C2. Between operations no canvas buffer is held twice by the two pools:
    the buffer of a page of the clean pool is not in the dirty pool, to which
    [_DirtyPage] moves it; and the paint pass returns with every page it
    ensures, the visible ones and one on either side, in the clean pool. *)
Theorem page_in_one_pool env st :
  reachable st → env_ok env →
  NoDup (pool st)
  ∧ (∀ page_index canvas_page,
       _clean_canvas_pages st !! page_index = Some canvas_page →
       (canvas_page ∉ _dirty_canvas_pages st)
       ∧ ∃ st', _DirtyPage page_index st = inr (tt, st')
                ∧ _clean_canvas_pages st' !! page_index = None
                ∧ _dirty_canvas_pages st' = _dirty_canvas_pages st ++ [canvas_page])
  ∧ ∃ st', paintEvent env st = inr (tt, st')
           ∧ (∀ page_index, page_index ∈ ensured_pages env st →
                            is_Some (_clean_canvas_pages st' !! page_index))
           ∧ NoDup (pool st')
           ∧ (∀ page_index canvas_page,
                _clean_canvas_pages st' !! page_index = Some canvas_page →
                canvas_page ∉ _dirty_canvas_pages st').
Proof.
  intros Hreach Henv.
  pose proof (panel_cache _ (reachable_panel_ok st Hreach)) as Hok.
  split_and!.
  - apply Hok.
  - intros page_index canvas_page Hc. split.
    { eapply clean_not_dirty; [apply Hok|done]. }
    apply (wp_returns_unit _ _ (λ _ st',
      _clean_canvas_pages st' !! page_index = None
      ∧ _dirty_canvas_pages st' = _dirty_canvas_pages st ++ [canvas_page])).
    eapply wp_DirtyPage; [apply Hok|by eapply (cache_nonneg _ Hok)|done|].
    simpl. split; [apply lookup_delete_eq|done].
  - apply (wp_returns_unit _ _ (λ _ st',
      (∀ page_index, page_index ∈ ensured_pages env st →
                     is_Some (_clean_canvas_pages st' !! page_index))
      ∧ NoDup (pool st')
      ∧ (∀ page_index canvas_page,
           _clean_canvas_pages st' !! page_index = Some canvas_page →
           canvas_page ∉ _dirty_canvas_pages st'))).
    apply wp_paintEvent; [done|done|].
    intros st' Hok' _ _ _ _ _ Hens. split_and!; [done|apply Hok'|].
    intros page_index canvas_page. apply clean_not_dirty, Hok'.
Qed.

Lemma page_in_one_pool_witness :
  reachable example_dirty ∧ env_ok example_env
  ∧ ∃ st', paintEvent example_env example_dirty = inr (tt, st')
           ∧ (∀ page_index, page_index ∈ ensured_pages example_env example_dirty →
                            is_Some (_clean_canvas_pages st' !! page_index))
           ∧ NoDup (pool st')
           ∧ (∀ page_index canvas_page,
                _clean_canvas_pages st' !! page_index = Some canvas_page →
                canvas_page ∉ _dirty_canvas_pages st').
Proof.
  refine (conj example_dirty_reachable (conj example_env_ok _)).
  exact (proj2 (proj2 (page_in_one_pool example_env example_dirty
                         example_dirty_reachable example_env_ok))).
Defined.

(** The paint pass of the witness: the viewport shows pages 0 to 2, and
    page 3 is drawn ahead; the four dirty buffers become their clean
    pages. *)
Example page_in_one_pool_example :
  ensured_pages example_env example_dirty = [0; 1; 2; 3]
  ∧ _clean_canvas_pages example_dirty = ∅
  ∧ _dirty_canvas_pages example_dirty = [3; 2; 1; 0]%nat
  ∧ ∃ st', paintEvent example_env example_dirty = inr (tt, st')
           ∧ _clean_canvas_pages st'
             = {[ 0 := 0%nat; 1 := 1%nat; 2 := 2%nat; 3 := 3%nat ]}
           ∧ _dirty_canvas_pages st' = [].
Proof.
  split_and!; [vm_compute; reflexivity..|].
  eexists. split_and!; vm_compute; reflexivity.
Qed.

(** * Further properties of the panel *)

Lemma wp_eq {A} (c : M A) st a st0 :
  wp c st (λ r st', r = a ∧ st' = st0) → c st = inr (a, st0).
Proof. unfold wp. destruct (c st) as [e|[r st']]; [done|]. by intros [-> ->]. Qed.

(** ** The grid *)

Lemma cell_offset (k span off : Z) :
  0 ≤ off < span → (k * span + off) mod span = off ∧ (k * span + off) / span = k.
Proof.
  intros Hoff. split.
  - rewrite Z.add_comm, Z_mod_plus_full. by apply Z.mod_small.
  - rewrite Z.add_comm, Z_div_plus_full by lia. rewrite Z.div_small by done. lia.
Qed.

(** X1. Hit-testing inverts [_GetMediaCoordinates]: a mouse position inside
    the cell of an item of the sequence, off its margins, is answered with
    that item. *)
Theorem hit_test_finds_media env st m i dx dy :
  1 ≤ _num_columns st →
  0 ≤ thumbnail_margin env →
  list_index m (_sorted_media st) = Some i →
  0 < dx → dx ≤ (thumbnail_span env).1 - 2 * thumbnail_margin env →
  dx < (thumbnail_span env).1 - thumbnail_margin env →
  0 < dy → dy ≤ (thumbnail_span env).2 - 2 * thumbnail_margin env →
  dy < (thumbnail_span env).2 - thumbnail_margin env →
  ∃ x y, _GetMediaCoordinates env m st = inr ((x, y), st)
         ∧ _GetThumbnailUnderMouse env (x + dx) (y + dy) st = inr (Some m, st).
Proof.
  intros Hc Hmg Hi Hdx1 Hdx2 Hdx3 Hdy1 Hdy2 Hdy3.
  pose proof (list_index_Some _ _ _ Hi) as Hm.
  pose proof (lookup_lt_Some _ _ _ Hm) as Hlen.
  unfold _GetMediaCoordinates, _GetThumbnailSpanDimensions.
  destruct (thumbnail_span env) as [sw sh] eqn:Hspan. simpl in *.
  exists (Z.of_nat i mod _num_columns st * sw + thumbnail_margin env),
         (Z.of_nat i / _num_columns st * sh + thumbnail_margin env).
  split.
  { unfold bind, get. rewrite Hi. unfold lift.
    rewrite floordiv_ok, pymod_ok by lia. done. }
  pose proof (Z.mod_pos_bound (Z.of_nat i) (_num_columns st)) as Hcol.
  pose proof (Z.div_mod (Z.of_nat i) (_num_columns st)) as Hdm.
  pose proof (Z.div_pos (Z.of_nat i) (_num_columns st)) as Hrow.
  destruct (cell_offset (Z.of_nat i mod _num_columns st) sw (thumbnail_margin env + dx))
    as [Hxm Hxd]; [lia|].
  destruct (cell_offset (Z.of_nat i / _num_columns st) sh (thumbnail_margin env + dy))
    as [Hym Hyd]; [lia|].
  rewrite <- !Z.add_assoc.
  apply wp_eq, wp_GetThumbnailUnderMouse; rewrite ?Hspan; simpl; [lia|lia|].
  unfold misses, in_dead_zone, thumbnail_index_at, column_at. rewrite Hspan. simpl.
  rewrite Hxm, Hym, Hxd, Hyd.
  replace (_num_columns st * (Z.of_nat i / _num_columns st)
           + Z.of_nat i mod _num_columns st) with (Z.of_nat i) by lia.
  intros r _ Hhit. split; [|done].
  destruct Hhit as (_ & -> & _); [lia|]. by rewrite Nat2Z.id.
Qed.

Lemma map_M_getitem (sorted_media : list media) (l : list Z) st :
  (∀ i, i ∈ l → 0 ≤ i < Z.of_nat (length sorted_media)) →
  ∃ r, map_M (λ index, m ← or_raise IndexError (getitem sorted_media index);
                       ret (index, m)) l st = inr (r, st)
       ∧ r.*1 = l
       ∧ ∀ i m, (i, m) ∈ r → sorted_media !! Z.to_nat i = Some m.
Proof.
  induction l as [|i l IH]; intros Hl; simpl.
  { exists []. split_and!; [done..|]. by intros i m ?%elem_of_nil. }
  destruct IH as (r & Hr & Hfst & Hin); [intros j Hj; apply Hl; by right|].
  destruct (getitem_in_range sorted_media i) as [m Hm]; [apply Hl; by left|].
  exists ((i, m) :: r). unfold bind at 1 2. rewrite Hm. simpl.
  unfold bind at 1. rewrite Hr. split_and!; [done|by f_equal|].
  intros j x [[= -> ->]|Hjx]%elem_of_cons; [|by apply Hin].
  rewrite getitem_nonneg in Hm; [done|]. apply Hl. by left.
Qed.

(** X2. The thumbnails [_GetThumbnailsFromPageIndex] lists for a page are,
    in index order, the items of the sequence whose index
    [_GetPageIndexFromThumbnailIndex] sends to that page. *)
Theorem page_thumbnails_partition st page_index :
  geom_ok st → 0 ≤ page_index →
  ∃ l, _GetThumbnailsFromPageIndex page_index st = inr (l, st)
       ∧ Sorted Z.lt l.*1
       ∧ ∀ i m, (i, m) ∈ l ↔
                0 ≤ i ∧ _sorted_media st !! Z.to_nat i = Some m
                ∧ _GetPageIndexFromThumbnailIndex i st = inr (page_index, st).
Proof.
  intros [Hc Hr] Hp.
  set (per := _num_columns st * _num_rows_per_canvas_page st).
  assert (1 ≤ per) as Hper by (unfold per; nia).
  set (len := Z.of_nat (length (_sorted_media st))).
  assert (∀ i, _GetPageIndexFromThumbnailIndex i st = inr (i / per, st)) as Hpage.
  { intros i. unfold _GetPageIndexFromThumbnailIndex, bind, get, lift. fold per.
    by rewrite floordiv_ok by lia. }
  unfold _GetThumbnailsFromPageIndex. unfold bind at 1. unfold get at 1.
  fold per len.
  assert (∀ i, 0 ≤ i → i / per = page_index ↔ per * page_index ≤ i < per * page_index + per)
    as Hdiv.
  { intros i Hi. split.
    - intros <-. pose proof (Z.mul_div_le i per). pose proof (Z.mul_succ_div_gt i per). lia.
    - intros Hb. symmetry. apply (Z.div_unique i per page_index (i - per * page_index)); lia. }
  case_decide as Hstart.
  - destruct (map_M_getitem (_sorted_media st)
                (range (per * page_index) (Z.min len (per * page_index + per))) st)
      as (r & Hrun & Hfst & Hin).
    { intros i Hi%elem_of_range. fold len. nia. }
    exists r. split; [done|]. split.
    { rewrite Hfst. unfold range. generalize (Z.to_nat (Z.min len (per * page_index + per)
                                                          - per * page_index)).
      intros n. generalize 0%nat. induction n as [|n IH]; intros k; simpl; [constructor|].
      constructor; [apply IH|]. destruct n; simpl; constructor. lia. }
    intros i m. rewrite Hpage. split.
    + intros Him. pose proof (Hin i m Him) as Hlook.
      assert (i ∈ r.*1) as Hi by (apply list_elem_of_fmap; by exists (i, m)).
      rewrite Hfst in Hi. apply elem_of_range in Hi.
      assert (0 ≤ i) by nia. split_and!; [done|done|]. f_equal. f_equal. apply Hdiv; lia.
    + intros (Hi & Hlook & [= Hpg]).
      apply Hdiv in Hpg; [|done].
      pose proof (lookup_lt_Some _ _ _ Hlook) as Hlt.
      assert (i ∈ r.*1) as Hir.
      { rewrite Hfst. apply elem_of_range. fold len. unfold len. lia. }
      apply list_elem_of_fmap in Hir as ([i' m'] & -> & Hir). simpl.
      pose proof (Hin _ _ Hir) as Hlook'. simpl in *. congruence.
  - exists []. split; [done|]. split; [constructor|].
    intros i m. rewrite Hpage. split; [by intros ?%elem_of_nil|].
    intros (Hi & Hlook & [= Hpg]). apply Hdiv in Hpg; [|done].
    pose proof (lookup_lt_Some _ _ _ Hlook) as Hlt. fold len in Hstart. unfold len in *. lia.
Qed.

Lemma CalculateVisiblePageIndices_range env st :
  env_ok env → geom_ok st →
  _CalculateVisiblePageIndices env st
  = inr (range (_GetYStart env
                / (_num_rows_per_canvas_page st * (thumbnail_span env).2))
               ((_GetYStart env + visible_rect_height env)
                / (_num_rows_per_canvas_page st * (thumbnail_span env).2) + 1), st).
Proof.
  intros Henv [_ Hr]. pose proof (GetYStart_nonneg env Henv) as Hy.
  destruct Henv as [_ Hsh Hvis _ _ _].
  unfold _CalculateVisiblePageIndices, _GetThumbnailSpanDimensions.
  destruct (thumbnail_span env) as [sw sh]. simpl in *.
  unfold bind, get, lift. by rewrite !floordiv_ok by nia.
Qed.

(** X3. [_CalculateVisiblePageIndices] lists, in ascending order and with no
    negative index, exactly the canvas pages that hold a row from the top of
    the viewport, [_GetYStart], to [_GetYStart + height], both ends counted:
    the pages the viewport shows and the page of the row just below it, which
    is one page more when that row begins a page. *)
Theorem visible_pages_cover_viewport env st :
  env_ok env → geom_ok st →
  ∃ l, _CalculateVisiblePageIndices env st = inr (l, st)
       ∧ l ≠ []
       ∧ Sorted Z.lt l
       ∧ ∀ page_index,
           page_index ∈ l ↔
           0 ≤ page_index
           ∧ ∃ y, _GetYStart env ≤ y ≤ _GetYStart env + visible_rect_height env
                  ∧ y / (_num_rows_per_canvas_page st * (thumbnail_span env).2)
                    = page_index.
Proof.
  intros Henv [_ Hr]. pose proof (GetYStart_nonneg env Henv) as Hy.
  destruct Henv as [_ Hsh Hvis _ _ _].
  unfold _CalculateVisiblePageIndices, _GetThumbnailSpanDimensions.
  destruct (thumbnail_span env) as [sw sh]. simpl in *.
  set (ph := _num_rows_per_canvas_page st * sh).
  assert (0 < ph) as Hph by (unfold ph; nia).
  set (y0 := _GetYStart env) in *. set (h := visible_rect_height env) in *.
  assert (0 ≤ y0 / ph) as Hfirst by (apply Z.div_pos; lia).
  assert (y0 / ph ≤ (y0 + h) / ph) as Hlast by (apply Z.div_le_mono; lia).
  exists (range (y0 / ph) ((y0 + h) / ph + 1)). split.
  { unfold bind, get, lift. fold ph. by rewrite !floordiv_ok by lia. }
  split.
  { intros Hnil. assert (y0 / ph ∈ range (y0 / ph) ((y0 + h) / ph + 1)) as Hin
      by (apply elem_of_range; lia).
    rewrite Hnil in Hin. by apply elem_of_nil in Hin. }
  split.
  { unfold range. generalize (Z.to_nat ((y0 + h) / ph + 1 - y0 / ph)). intros n.
    generalize 0%nat. induction n as [|n IH]; intros k; simpl; [constructor|].
    constructor; [apply IH|]. destruct n; simpl; constructor. lia. }
  intros p. rewrite elem_of_range. split.
  - intros Hp. split; [lia|]. exists (Z.max y0 (p * ph)).
    pose proof (Z.mul_div_le y0 ph). pose proof (Z.mul_succ_div_gt y0 ph).
    pose proof (Z.mul_div_le (y0 + h) ph).
    destruct (decide (p = y0 / ph)) as [->|Hne].
    + rewrite Z.max_l by lia. lia.
    + rewrite Z.max_r by nia. split; [nia|]. by apply Z.div_mul; lia.
  - intros (Hp & y & Hy' & <-). split.
    + apply Z.div_le_mono; lia.
    + assert (y / ph ≤ (y0 + h) / ph) by (apply Z.div_le_mono; lia). lia.
Qed.

(** X4. The virtual size [_RecalculateVirtualSize] gives the scrolled widget
    is as wide as the viewport and at least as high; every row of the grid
    fits in it; and its height is the height of the viewport or a multiple of
    the scroll step. With an empty viewport there is no resize. *)
Theorem virtual_size_fits_grid env st :
  1 ≤ _num_columns st → 0 < (thumbnail_span env).2 → 0 < yUnit env →
  (¬ (0 < visible_rect_width env ∧ 0 < visible_rect_height env) →
   recalculated_virtual_size env st = inr (None, st))
  ∧ (0 < visible_rect_width env → 0 < visible_rect_height env →
     ∃ virtual_height,
       recalculated_virtual_size env st
         = inr (Some (visible_rect_width env, virtual_height), st)
       ∧ visible_rect_height env ≤ virtual_height
       ∧ (∀ i m, _sorted_media st !! i = Some m →
                 (Z.of_nat i / _num_columns st + 1) * (thumbnail_span env).2
                   ≤ virtual_height)
       ∧ (virtual_height = visible_rect_height env
          ∨ virtual_height mod yUnit env = 0)).
Proof.
  intros Hc Hsh Hy. unfold recalculated_virtual_size, _GetThumbnailSpanDimensions.
  destruct (thumbnail_span env) as [sw sh]. simpl in *. split.
  { intros Hno. by rewrite decide_False. }
  intros Hw Hh. rewrite decide_True by done.
  set (len := Z.of_nat (length (_sorted_media st))).
  set (c := _num_columns st) in *.
  set (rows := Z.max 1 (len / c) + (if decide (0 < len mod c) then 1 else 0)).
  set (vh := rows * sh).
  set (vh' := if decide (0 < vh mod yUnit env) then vh + (yUnit env - vh mod yUnit env)
              else vh).
  exists (Z.max vh' (visible_rect_height env)). split.
  { unfold bind, get, lift. fold len c. by rewrite !floordiv_ok, !pymod_ok by lia. }
  pose proof (Z.mod_pos_bound vh (yUnit env) Hy) as Hex.
  assert (vh ≤ vh') as Hvh by (unfold vh'; case_decide; lia).
  split; [lia|]. split.
  - intros i m Hi%lookup_lt_Some.
    assert (Z.of_nat i / c + 1 ≤ rows) as Hrows.
    { pose proof (Z.div_mod len c). pose proof (Z.mod_pos_bound len c).
      assert (Z.of_nat i / c ≤ len / c) by (apply Z.div_le_mono; unfold len; lia).
      unfold rows. case_decide.
      - lia.
      - assert (len = c * (len / c)) as Hlen by lia.
        assert (Z.of_nat i / c < len / c); [|lia].
        apply Z.div_lt_upper_bound; [lia|]. unfold len in *. lia. }
    nia.
  - destruct (Z.max_spec vh' (visible_rect_height env)) as [[_ ->]|[_ ->]]; [by left|].
    right. unfold vh'. case_decide as Hpos.
    + replace (vh + (yUnit env - vh mod yUnit env))
        with (vh mod yUnit env + (vh / yUnit env + 1) * yUnit env - vh mod yUnit env).
      * replace (vh mod yUnit env + (vh / yUnit env + 1) * yUnit env - vh mod yUnit env)
          with ((vh / yUnit env + 1) * yUnit env) by lia.
        apply Z_mod_mult.
      * pose proof (Z.div_mod vh (yUnit env)). lia.
    + lia.
Qed.

(** ** The page cache *)

(** The state [_DirtyAllPages] leaves, with the buffers in the order of the
    map. *)
Lemma DirtyAllPages_state st :
  geom_ok st → (∀ i c, _clean_canvas_pages st !! i = Some c → 0 ≤ i) →
  _DirtyAllPages st
  = inr (tt, set_dirty_canvas_pages
               (_dirty_canvas_pages st ++ (map_to_list (_clean_canvas_pages st)).*2)
               (set_clean_canvas_pages ∅ st)).
Proof. intros Hg Hnn. apply wp_eq, wp_DirtyAllPages; done. Qed.

(** X5. [_DirtyAllPages] empties the clean pool and appends its buffers, in
    some order, to the dirty pool: no buffer is lost or made, and nothing
    else of the panel changes. [RedrawAllThumbnails] and
    [_NotifyThumbnailsHaveMoved] do the same, and [_UpdateBackgroundColour]
    leaves both pools empty. *)
Theorem dirty_all_pages_keeps_buffers st :
  geom_ok st → (∀ i c, _clean_canvas_pages st !! i = Some c → 0 ≤ i) →
  ∃ st', _DirtyAllPages st = inr (tt, st')
         ∧ all_pages_dirtied st st'
         ∧ pool st' ≡ₚ pool st
         ∧ RedrawAllThumbnails st = inr (tt, st')
         ∧ _NotifyThumbnailsHaveMoved st = inr (tt, st')
         ∧ _UpdateBackgroundColour st
           = inr (tt, set_dirty_canvas_pages [] (set_clean_canvas_pages ∅ st)).
Proof.
  intros Hg Hnn. pose proof (DirtyAllPages_state st Hg Hnn) as Hrun.
  eexists. split_and!; [exact Hrun| | |exact Hrun|exact Hrun|].
  - by exists (map_to_list (_clean_canvas_pages st)).*2.
  - unfold pool. simpl. rewrite map_to_list_empty. simpl. apply Permutation_app_comm.
  - unfold _UpdateBackgroundColour, bind. by rewrite Hrun.
Qed.

(** X6. On a memory maintenance pulse the dirty buffers are freed; the clean
    pages stay when the page is the one showing, and are freed too when it is
    not. Nothing else of the panel changes. *)
Theorem maintenance_frees_buffers env st :
  geom_ok st → (∀ i c, _clean_canvas_pages st !! i = Some c → 0 ≤ i) →
  MaintainPageCache env st
  = inr (tt, if IsCurrentPage env then set_dirty_canvas_pages [] st
             else set_dirty_canvas_pages [] (set_clean_canvas_pages ∅ st)).
Proof.
  intros Hg Hnn. unfold MaintainPageCache.
  destruct (IsCurrentPage env); simpl; [done|].
  unfold bind. by rewrite (DirtyAllPages_state st Hg Hnn).
Qed.

(** The state [_ReinitialisePageCacheIfNeeded] leaves. *)
Lemma ReinitialisePageCacheIfNeeded_state env st :
  (thumbnail_span env).1 ≠ 0 → (thumbnail_span env).2 ≠ 0 →
  (∀ i c, _clean_canvas_pages st !! i = Some c → 0 ≤ i) →
  let st1 :=
    set_num_columns (Z.max 1 (visible_rect_width env / (thumbnail_span env).1))
      (set_num_rows_per_canvas_page
         (Z.max 1 (visible_rect_height env / (thumbnail_span env).2 / 2))
         (set_num_rows_per_actual_page
            (Z.max 1 (visible_rect_height env / (thumbnail_span env).2)) st)) in
  _ReinitialisePageCacheIfNeeded env st
  = inr (tt, if resize_resets env st
             then set_dirty_canvas_pages [] (set_clean_canvas_pages ∅ st1)
             else st1).
Proof.
  intros Hw Hh Hnn st1. unfold _ReinitialisePageCacheIfNeeded, resize_resets.
  unfold _GetThumbnailSpanDimensions. subst st1.
  destruct (thumbnail_span env) as [sw sh]. simpl in *.
  destruct (_last_size st) as [old_width old_height] eqn:Hsize.
  unfold bind at 1. unfold get at 1. rewrite Hsize.
  unfold bind at 1. unfold lift at 1. rewrite floordiv_ok by done.
  unfold bind at 1. unfold modify at 1.
  unfold bind at 1. unfold lift at 1. rewrite floordiv_ok by done.
  unfold bind at 1. unfold modify at 1.
  unfold bind at 1. unfold lift at 1. rewrite floordiv_ok by done.
  unfold bind at 1. unfold modify at 1.
  unfold bind at 1. unfold get at 1. simpl.
  set (st1 := set_num_columns _ _).
  assert (geom_ok st1) as Hg1 by (split; simpl; lia).
  pose proof (DirtyAllPages_state st1 Hg1 Hnn) as Hrun.
  set (layout_changed :=
         negb (bool_decide (_num_columns st = Z.max 1 (visible_rect_width env / sw)))
         || negb (bool_decide (_num_rows_per_canvas_page st
                               = Z.max 1 (visible_rect_height env / sh / 2)))).
  set (wider := bool_decide (old_width < visible_rect_width env)).
  destruct (layout_changed || wider) eqn:Hreset.
  - assert (negb (bool_decide (old_width = visible_rect_width env))
            || negb (bool_decide (old_height = visible_rect_height env))
            || layout_changed = true) as ->.
    { destruct layout_changed; [by rewrite orb_true_r|]. simpl in Hreset.
      unfold wider in Hreset. apply bool_decide_eq_true in Hreset.
      rewrite (bool_decide_eq_false_2 (old_width = _)) by lia. done. }
    unfold bind. by rewrite Hrun.
  - by destruct (_ || _ || layout_changed).
Qed.

(** X7. [ThumbnailsReset] forgets every pending and every finished fade,
    recomputes the layout from the viewport, and leaves no page in the clean
    pool; the selection and the focus stay as they were. *)
Theorem thumbnails_reset_clears_fades env st :
  (thumbnail_span env).1 ≠ 0 → (thumbnail_span env).2 ≠ 0 → yUnit env ≠ 0 →
  (∀ i c, _clean_canvas_pages st !! i = Some c → 0 ≤ i) →
  ∃ st', ThumbnailsReset env st = inr (tt, st')
         ∧ _hashes_to_thumbnails_waiting_to_be_drawn st' = ∅
         ∧ _hashes_faded st' = ∅
         ∧ _clean_canvas_pages st' = ∅
         ∧ _num_columns st' = Z.max 1 (visible_rect_width env / (thumbnail_span env).1)
         ∧ _num_rows_per_canvas_page st'
           = Z.max 1 (visible_rect_height env / (thumbnail_span env).2 / 2)
         ∧ selection st' = selection st
         ∧ painted st' = painted st.
Proof.
  intros Hw Hh Hy Hnn. unfold ThumbnailsReset.
  unfold bind at 1. unfold modify at 1. unfold bind at 1. unfold modify at 1.
  set (st0 := set_hashes_faded ∅ _).
  unfold bind at 1.
  rewrite (ReinitialisePageCacheIfNeeded_state env st0) by done.
  set (st1 := if resize_resets env st0 then _ else _).
  assert (_hashes_to_thumbnails_waiting_to_be_drawn st1 = ∅ ∧ _hashes_faded st1 = ∅
          ∧ _num_columns st1 = Z.max 1 (visible_rect_width env / (thumbnail_span env).1)
          ∧ _num_rows_per_canvas_page st1
            = Z.max 1 (visible_rect_height env / (thumbnail_span env).2 / 2)
          ∧ selection st1 = selection st ∧ painted st1 = painted st
          ∧ ∀ i c, _clean_canvas_pages st1 !! i = Some c → 0 ≤ i)
    as (Hp1 & Hf1 & Hc1 & Hr1 & Hs1 & Hd1 & Hnn1).
  { unfold st1. destruct (resize_resets env st0); simpl; split_and!; done. }
  assert (geom_ok st1) as Hg1 by (split; lia).
  unfold bind at 1.
  assert (_RecalculateVirtualSize env st1 = inr (tt, st1)) as ->
    by (apply wp_eq, wp_RecalculateVirtualSize; done).
  unfold RedrawAllThumbnails. rewrite (DirtyAllPages_state st1 Hg1 Hnn1).
  eexists. split; [done|]. simpl. by split_and!.
Qed.

Lemma paint_pages_clean env to_draw page_indices_to_display potential st :
  (∀ p, p ∈ to_draw → is_Some (_clean_canvas_pages st !! p)) →
  paint_pages env to_draw page_indices_to_display potential st
  = inr (tt, set_painted
               (painted st
                ++ omap (shows_page env st)
                        (filter (λ p, p ∈ page_indices_to_display) to_draw))
               st).
Proof.
  revert st. induction to_draw as [|p to_draw IH]; intros st Hclean; simpl.
  { unfold ret. rewrite app_nil_r. by destruct st. }
  destruct (Hclean p) as [c Hc]; [left|].
  unfold bind at 1. unfold get at 1.
  rewrite decide_True by (by eexists). unfold bind at 1. unfold ret at 1.
  unfold bind at 1.
  destruct (decide (p ∈ page_indices_to_display)) as [Hp|Hp].
  - rewrite filter_cons_True by done. simpl.
    unfold bind at 1. unfold get at 1. unfold bind at 1. rewrite Hc. simpl.
    assert (shows_page env st p
            = Some (DrawImage None 0
                      (_num_rows_per_canvas_page st * (thumbnail_span env).2 * p)
                      (CanvasImage c))) as ->.
    { unfold shows_page. by rewrite Hc. }
    unfold _GetThumbnailSpanDimensions.
    destruct (thumbnail_span env) as [sw sh] eqn:Hspan.
    unfold drawImage, modify. rewrite IH.
    + simpl. rewrite <- app_assoc. unfold shows_page. rewrite Hspan. reflexivity.
    + intros q Hq. simpl. apply Hclean. by right.
  - rewrite filter_cons_False by done. unfold ret at 1. apply IH.
    intros q Hq. apply Hclean. by right.
Qed.

Lemma range_sorted a b : Sorted Z.le (range a b).
Proof.
  unfold range. generalize (Z.to_nat (b - a)). intros n.
  generalize 0%nat. induction n as [|n IH]; intros k; simpl; [constructor|].
  constructor; [apply IH|]. destruct n; simpl; constructor. lia.
Qed.

Lemma StronglySorted_filter {A} (R : relation A) (P : A → Prop)
    `{∀ x, Decision (P x)} (l : list A) :
  StronglySorted R l → StronglySorted R (filter P l).
Proof.
  induction 1 as [|x l Hl IH Hx]; [constructor|].
  rewrite filter_cons. case_decide; [|done].
  constructor; [done|]. rewrite Forall_forall in Hx |- *.
  intros y [_ Hy]%list_elem_of_filter. by apply Hx.
Qed.

Lemma filter_all {A} (P : A → Prop) `{∀ x, Decision (P x)} (l : list A) :
  (∀ x, x ∈ l → P x) → filter P l = l.
Proof.
  induction l as [|x l IH]; intros Hl; [done|].
  rewrite filter_cons_True by (apply Hl; left). f_equal. apply IH.
  intros y Hy. apply Hl. by right.
Qed.

Lemma filter_none {A} (P : A → Prop) `{∀ x, Decision (P x)} (l : list A) :
  (∀ x, x ∈ l → ¬ P x) → filter P l = [].
Proof.
  induction l as [|x l IH]; intros Hl; [done|].
  rewrite filter_cons_False by (apply Hl; left). apply IH.
  intros y Hy. apply Hl. by right.
Qed.

(** The pages of a paint pass that are on display come in the order of the
    display. *)
Lemma page_indices_to_draw_display a b l :
  a < b → page_indices_to_draw (range a b) = inr l →
  filter (λ p, p ∈ range a b) l = range a b.
Proof.
  intros Hab. unfold page_indices_to_draw.
  rewrite py_min_range, py_max_range by done. intros [= <-].
  apply (StronglySorted_unique Z.le).
  - apply StronglySorted_filter, StronglySorted_merge_sort; apply _.
  - apply Sorted_StronglySorted; [apply _|apply range_sorted].
  - rewrite merge_sort_Permutation, filter_app.
    rewrite (filter_none _ [b - 1 + 1]), app_nil_r.
    2:{ intros x ->%list_elem_of_singleton. rewrite elem_of_range. lia. }
    case_decide; rewrite ?filter_app, (filter_all _ (range a b)) by done; [|done].
    rewrite filter_none, app_nil_r; [done|].
    intros x ->%list_elem_of_singleton. rewrite elem_of_range. lia.
Qed.

(** X8. A paint pass that finds the device pixel ratio unchanged and every
    page it ensures in the clean pool renders no page again: it leaves the
    panel as it is but for one [drawImage] call on the widget for each
    visible page, in page order, of the page's buffer at the page's place. *)
Theorem repaint_renders_nothing env st :
  env_ok env → geom_ok st →
  Qeq_bool (device_pixel_ratio env) (_last_device_pixel_ratio st) = true →
  (∀ page_index, page_index ∈ ensured_pages env st →
                 is_Some (_clean_canvas_pages st !! page_index)) →
  ∃ visible,
    _CalculateVisiblePageIndices env st = inr (visible, st)
    ∧ paintEvent env st
      = inr (tt, set_painted (painted st ++ omap (shows_page env st) visible) st)
    ∧ length (omap (shows_page env st) visible) = length visible.
Proof.
  intros Henv Hg Hdpr Hens.
  pose proof (CalculateVisiblePageIndices_range env st Henv Hg) as Hvis.
  eexists. split; [exact Hvis|].
  pose proof (GetYStart_nonneg env Henv) as Hy.
  pose proof Henv as [_ Hsh Hvish _ Hshuffle _]. destruct Hg as [_ Hr].
  unfold ensured_pages in Hens.
  set (ph := _num_rows_per_canvas_page st * (thumbnail_span env).2) in *.
  assert (0 < ph) as Hph by (unfold ph; nia).
  set (first := _GetYStart env / ph) in *.
  set (last' := (_GetYStart env + visible_rect_height env) / ph) in *.
  assert (0 ≤ first) as Hfirst by (by apply Z.div_pos).
  assert (first ≤ last') as Hlast by (apply Z.div_le_mono; lia).
  destruct (page_indices_to_draw_range first (last' + 1)) as (to_draw & Hto & Hin); [lia|].
  split.
  - unfold paintEvent. unfold bind at 1. unfold get at 1. rewrite Hdpr. simpl.
    unfold bind at 1. unfold ret at 1. unfold bind at 1. rewrite Hvis.
    unfold bind at 1. unfold lift at 1. rewrite Hto.
    unfold bind at 1. unfold get at 1.
    rewrite paint_pages_clean.
    + by rewrite (page_indices_to_draw_display first (last' + 1) to_draw) by (lia || done).
    + intros p Hp. apply Hens, elem_of_range. apply Hin in Hp. lia.
  - clear Hvis.
    assert (∀ p, p ∈ range first (last' + 1) → is_Some (_clean_canvas_pages st !! p))
      as Hclean.
    { intros p Hp%elem_of_range. apply Hens, elem_of_range. lia. }
    clear Hto Hin.
    induction (range first (last' + 1)) as [|p l IH]; [done|].
    destruct (Hclean p) as [c Hc]; [left|]. cbn [omap list_omap].
    unfold shows_page at 1. rewrite Hc. simpl. f_equal. apply IH.
    intros q Hq. apply Hclean. by right.
Qed.

(** ** Fades *)

Lemma for_each_drawImage {A} (l : list A) on x y img st :
  for_each l (λ _, drawImage on x y img) st
  = inr (tt, set_painted (painted st ++ replicate (length l) (DrawImage on x y img)) st).
Proof.
  revert st. induction l as [|z l IH]; intros st; simpl.
  { unfold ret. rewrite app_nil_r. by destruct st. }
  unfold bind, drawImage, modify. rewrite IH. simpl. by rewrite <- app_assoc.
Qed.

(** Frame counts in binary64: [1.0 / 60] is the frame period of the model,
    a fade from 0.1 to 0.6 has run for 30 frame periods, and one from 0.003
    to 0.019666666666666666 for one. *)
Example frames_in_binary64 :
  round_binary64 (1 # 60) = FRAME_DURATION_60FPS
  ∧ float_floordiv (float_sub (6 # 10) (1 # 10)) FRAME_DURATION_60FPS = 30
  ∧ float_floordiv (float_sub (19666666666666666 # 1000000000000000000) (3 # 1000))
                   FRAME_DURATION_60FPS = 1.
Proof. split_and!; vm_compute; reflexivity. Qed.

(** X9. A draw of an animated draw object, at a reading of the clock not
    before the start of the fade, brings the frames drawn to the frame
    periods gone by since the start added to those drawn before, capped at
    the frames to draw. Short of the cap it paints the translucent bitmap
    once for each frame it adds; at the cap it paints the full bitmap once
    and the object is complete. The object stays in order. *)
Theorem fade_draws_within_budget env o a x y painter st :
  animated o = Some a → fade_ok o → 0 ≤ frames_since env st a →
  ∃ o' a',
    animated o' = Some a' ∧ fade_ok o'
    ∧ entry_hash o' = entry_hash o ∧ thumbnail o' = thumbnail o
    ∧ thumbnail_index o' = thumbnail_index o
    ∧ num_frames_to_draw a' = num_frames_to_draw a
    ∧ num_frames_drawn a'
      = Z.min (num_frames_to_draw a) (num_frames_drawn a + frames_since env st a)
    ∧ DrawToPainter env o x y painter st
      = inr (o', set_painted
                   (painted st ++
                    if DrawComplete o'
                    then [DrawImage painter x y (Bitmap (entry_hash o))]
                    else replicate (Z.to_nat (num_frames_drawn a' - num_frames_drawn a))
                                   (DrawImage painter x y (AlphaBitmap (entry_hash o))))
                   (set_clock (S (clock st)) st)).
Proof.
  intros Ha Hok Hfs. unfold fade_ok in Hok. rewrite Ha in Hok.
  destruct Hok as [Hdrawn Hcomplete].
  unfold DrawToPainter, _GetNumFramesOutstanding. rewrite Ha.
  unfold bind at 1. unfold bind at 1. unfold GetNowPrecise at 1.
  unfold bind at 1. unfold get at 1. unfold bind at 1. unfold modify at 1.
  unfold ret at 1. unfold ret at 1.
  remember (float_floordiv (float_sub (GetNowPrecise_at env (clock st))
                                      (animation_started_precise a))
                           FRAME_DURATION_60FPS) as fs eqn:Efs in *.
  clear Efs.
  set (n := Z.min fs (num_frames_to_draw a - num_frames_drawn a)).
  case_decide as Hcap.
  - set (a' := {| num_frames_drawn := num_frames_to_draw a;
                  num_frames_to_draw := num_frames_to_draw a;
                  animation_started_precise := animation_started_precise a |}).
    exists {| entry_hash := entry_hash o; thumbnail := thumbnail o;
              thumbnail_index := thumbnail_index o; _draw_complete := true;
              animated := Some a' |}, a'.
    split_and!; [done| |done|done|done|done| |].
    + unfold fade_ok. simpl. split; [lia|done].
    + simpl. lia.
    + unfold bind, drawImage, modify, ret. simpl. done.
  - assert (n = fs) as Hn by lia.
    set (a' := {| num_frames_drawn := num_frames_drawn a + n;
                  num_frames_to_draw := num_frames_to_draw a;
                  animation_started_precise := animation_started_precise a |}).
    exists {| entry_hash := entry_hash o; thumbnail := thumbnail o;
              thumbnail_index := thumbnail_index o; _draw_complete := _draw_complete o;
              animated := Some a' |}, a'.
    assert (_draw_complete o = false) as Hnot.
    { destruct (_draw_complete o); [|done]. destruct Hcomplete as [Hc _].
      specialize (Hc eq_refl). lia. }
    split_and!; [done| |done|done|done|done| |].
    + unfold fade_ok. simpl. split; [lia|]. rewrite Hnot. split; [done|lia].
    + simpl. lia.
    + unfold bind at 1. rewrite for_each_drawImage. unfold ret. simpl.
      rewrite Hnot, length_seq. simpl.
      by replace (num_frames_drawn a + n - num_frames_drawn a) with n by lia.
Qed.

(** X10. Thumbnails that arrive while the page is hidden start no fade and
    mark nothing as faded: every clean page goes to the dirty pool instead,
    to be drawn when the page shows again, and nothing else changes. An empty
    delivery changes nothing. *)
Theorem hidden_page_starts_no_fade env thumbnails st :
  geom_ok st → (∀ i c, _clean_canvas_pages st !! i = Some c → 0 ≤ i) →
  WaterfallThumbnails env [] st = inr (tt, st)
  ∧ (IsCurrentPage env = false → thumbnails ≠ [] →
     ∃ st', WaterfallThumbnails env thumbnails st = inr (tt, st')
            ∧ all_pages_dirtied st st').
Proof.
  intros Hg Hnn. split; [done|]. intros Hhidden Hne.
  unfold WaterfallThumbnails, _FadeThumbnails. rewrite Hhidden. simpl.
  rewrite decide_False by (by destruct thumbnails).
  rewrite (DirtyAllPages_state st Hg Hnn). eexists. split; [done|].
  by exists (map_to_list (_clean_canvas_pages st)).*2.
Qed.

(** The state in which [DrawDue] leaves the clock. *)
Lemma DrawDue_state env o st :
  DrawDue env o st
  = inr (due_at env st o,
         match animated o with Some _ => set_clock (S (clock st)) st | None => st end).
Proof. unfold DrawDue, due_at. by destruct (animated o). Qed.

Lemma DrawToPainter_returns env o x y painter st :
  ∃ o' st', DrawToPainter env o x y painter st = inr (o', st')
            ∧ paints_only (entry_hash o) st st'
            ∧ (∀ d, d ∈ drop (length (painted st)) (painted st') →
                    target d = painter ∧ draw_x d = x ∧ draw_y d = y).
Proof.
  unfold DrawToPainter. destruct (animated o) as [a|].
  - unfold _GetNumFramesOutstanding.
    unfold bind at 1. unfold bind at 1. unfold GetNowPrecise at 1.
    unfold bind at 1. unfold get at 1. unfold bind at 1. unfold modify at 1.
    unfold ret at 1. unfold ret at 1.
    remember (float_floordiv (float_sub (GetNowPrecise_at env (clock st))
                                        (animation_started_precise a))
                             FRAME_DURATION_60FPS) as fs eqn:Efs in *.
    clear Efs.
    case_decide.
    + eexists _, _. split; [done|]. split.
      * eapply (paints_only_trans _ _ (set_clock (S (clock st)) st));
          [apply paints_only_clock|].
        apply (paints_only_draw _ (set_clock (S (clock st)) st)). by left.
      * simpl. rewrite drop_app_length. by intros d ->%list_elem_of_singleton.
    + unfold bind at 1. rewrite for_each_drawImage. eexists _, _. split; [done|].
      simpl. split.
      * split; [by repeat split|]. split; [done|]. eexists. split; [done|].
        intros d [-> _]%elem_of_replicate. by right.
      * rewrite drop_app_length. by intros d [-> _]%elem_of_replicate.
  - eexists _, _. split; [done|]. simpl. split.
    + apply paints_only_draw. by left.
    + rewrite drop_app_length. by intros d ->%list_elem_of_singleton.
Qed.

(** X11. The round of the animation tick that visits a pending entry that is
    due, still holds its item at its index, and has its page in the clean
    pool, draws it with [DrawToPainter] on the buffer of that page at the
    place of its cell; it takes the entry off the pending map when that
    completes the draw, and files the drawn object otherwise. Selection,
    layout and pools are left alone. *)
Theorem due_entry_is_drawn env loop_should_break_time h page_indices_to_painters st o
    canvas_page :
  geom_ok st →
  _hashes_to_thumbnails_waiting_to_be_drawn st !! h = Some o →
  _sorted_media st !! thumbnail_index o = Some (thumbnail o) →
  _clean_canvas_pages st !! page_of st (thumbnail_index o) = Some canvas_page →
  (∀ p c, page_indices_to_painters !! p = Some c → _clean_canvas_pages st !! p = Some c) →
  due_at env st o = true →
  let x := Z.of_nat (thumbnail_index o) mod _num_columns st * (thumbnail_span env).1
           + thumbnail_margin env in
  let y := (Z.of_nat (thumbnail_index o) / _num_columns st
            - page_of st (thumbnail_index o) * _num_rows_per_canvas_page st)
           * (thumbnail_span env).2 + thumbnail_margin env in
  let st1 := match animated o with
             | Some _ => set_clock (S (clock st)) st
             | None => st
             end in
  ∃ r st' o' st2,
    animation_step env loop_should_break_time h page_indices_to_painters st = inr (r, st')
    ∧ DrawToPainter env o x y (Some canvas_page) st1 = inr (o', st2)
    ∧ painted st' = painted st2
    ∧ _hashes_to_thumbnails_waiting_to_be_drawn st'
      = (if DrawComplete o'
         then delete h (_hashes_to_thumbnails_waiting_to_be_drawn st)
         else <[h := o']> (_hashes_to_thumbnails_waiting_to_be_drawn st))
    ∧ fades_only st st'.
Proof.
  intros Hg Ho Hitem Hpage Hpainters Hdue x y st1.
  destruct (DrawToPainter_returns env o x y (Some canvas_page) st1)
    as (o' & st2 & Hdraw & (Hf2 & Hp2 & _) & _).
  assert (fades_only st st1) as Hf1 by (unfold st1; destruct (animated o); by repeat split).
  assert (_hashes_to_thumbnails_waiting_to_be_drawn st1
          = _hashes_to_thumbnails_waiting_to_be_drawn st) as Hp1
    by (unfold st1; by destruct (animated o)).
  pose proof Hf1 as (_ & [= Hc1 Hr1 _ _ _] & _).
  pose proof Hg as [Hc Hr].
  unfold animation_step.
  unfold bind at 1. unfold get at 1. unfold bind at 1. rewrite Ho. unfold or_raise, ret at 1.
  unfold bind at 1. rewrite DrawDue_state, Hdue. fold st1.
  rewrite getitem_nonneg by lia. rewrite Nat2Z.id, Hitem.
  unfold bind at 1. unfold bind at 1.
  unfold _GetPageIndexFromThumbnailIndex at 1. unfold bind at 1. unfold get at 1.
  unfold lift at 1. rewrite floordiv_ok by (rewrite Hc1, Hr1; nia).
  rewrite Hc1, Hr1. fold (page_of st (thumbnail_index o)).
  rewrite decide_False by (intros Hne; by apply Hne).
  rewrite Hpage.
  unfold bind at 1. unfold position_on_page at 1, _GetThumbnailSpanDimensions.
  unfold bind at 1. unfold get at 1.
  destruct (thumbnail_span env) as [sw sh] eqn:Hspan.
  unfold bind at 1. unfold lift at 1. rewrite pymod_ok by lia.
  unfold bind at 1. unfold lift at 1. rewrite floordiv_ok by lia.
  unfold ret at 1. rewrite Hc1, Hr1. simpl in x, y. fold x y.
  set (painters' := match page_indices_to_painters !! page_of st (thumbnail_index o) with
                    | Some _ => page_indices_to_painters
                    | None => <[page_of st (thumbnail_index o) := canvas_page]>
                                page_indices_to_painters
                    end).
  assert (painters' !! page_of st (thumbnail_index o) = Some canvas_page) as Hpainter.
  { unfold painters'.
    destruct (page_indices_to_painters !! _) as [c|] eqn:Hp.
    - rewrite Hp. f_equal. apply Hpainters in Hp. congruence.
    - apply lookup_insert_eq. }
  unfold bind at 1. rewrite Hpainter. unfold ret at 1.
  unfold bind at 1. rewrite Hdraw.
  unfold bind at 1. unfold modify at 1. unfold ret at 1.
  rewrite orb_false_r.
  pose proof (fades_only_trans _ _ _ Hf1 Hf2) as Hf.
  unfold TimeHasPassedPrecise, GetNowPrecise, DrawComplete.
  destruct (_draw_complete o') eqn:Hdc.
  - eexists _, _, o', st2. split; [reflexivity|]. simpl. rewrite Hdc.
    split_and!; [done|done| |].
    + by rewrite delete_insert_eq, Hp2, Hp1.
    + eapply fades_only_trans; [exact Hf|]. by repeat split.
  - eexists _, _, o', st2. split; [reflexivity|]. simpl. rewrite Hdc.
    split_and!; [done|done| |].
    + by rewrite Hp2, Hp1.
    + eapply fades_only_trans; [exact Hf|]. by repeat split.
Qed.

(** The loop of the tick files nothing under a new hash. *)
Lemma wp_animation_loop_dom env loop_should_break_time hashes painters st0 st Q :
  geom_ok st0 → fades_only st0 st → NoDup hashes →
  (∀ h, h ∈ hashes → is_Some (_hashes_to_thumbnails_waiting_to_be_drawn st !! h)) →
  (∀ h, is_Some (_hashes_to_thumbnails_waiting_to_be_drawn st !! h) →
        is_Some (_hashes_to_thumbnails_waiting_to_be_drawn st0 !! h)) →
  (∀ st', (∀ h, is_Some (_hashes_to_thumbnails_waiting_to_be_drawn st' !! h) →
                is_Some (_hashes_to_thumbnails_waiting_to_be_drawn st0 !! h)) →
          Q tt st') →
  wp (animation_loop env loop_should_break_time hashes painters) st Q.
Proof.
  intros Hg. revert painters st.
  induction hashes as [|h1 hashes IH]; intros painters st Hf Hnd Hin Hdom HQ; simpl.
  { by apply wp_ret, HQ. }
  apply NoDup_cons in Hnd as [Hh1 Hnd].
  destruct (Hin h1) as [o1 Ho1]; [left|].
  apply wp_bind. eapply wp_animation_step; [by eapply fades_only_geom|exact Ho1|].
  intros [painters' stop] st1 Hf1 Hother _ _.
  assert (∀ h, is_Some (_hashes_to_thumbnails_waiting_to_be_drawn st1 !! h) →
               is_Some (_hashes_to_thumbnails_waiting_to_be_drawn st0 !! h)) as Hdom1.
  { intros h Hh. apply Hdom. destruct (decide (h = h1)) as [->|Hne]; [by eexists|].
    by rewrite <- Hother. }
  destruct stop; [by apply wp_ret, HQ|].
  apply IH; [by eapply fades_only_trans|done| |done|done].
  intros h Hh. rewrite Hother; [apply Hin; by right|]. by intros ->.
Qed.

(** X12. An animation tick returns, and only fades: the selection, the focus,
    the layout and the two pools are as before; no entry is filed in the
    pending map under a hash that was not pending; and every draw call it
    makes paints the bitmap of an entry that was pending, held its item at
    its index and had its page in the clean pool. *)
Theorem tick_only_fades env st :
  env_ok env → geom_ok st →
  ∃ st', TIMERAnimationUpdate env st = inr (tt, st')
         ∧ selection st' = selection st ∧ layout st' = layout st
         ∧ pools st' = pools st
         ∧ (∀ h, is_Some (_hashes_to_thumbnails_waiting_to_be_drawn st' !! h) →
                 is_Some (_hashes_to_thumbnails_waiting_to_be_drawn st !! h))
         ∧ ∃ new, painted st' = painted st ++ new
                  ∧ ∀ d, d ∈ new →
                         ∃ h o, _hashes_to_thumbnails_waiting_to_be_drawn st !! h = Some o
                                ∧ _sorted_media st !! thumbnail_index o
                                  = Some (thumbnail o)
                                ∧ is_Some (_clean_canvas_pages st
                                             !! page_of st (thumbnail_index o))
                                ∧ draws_of (entry_hash o) d.
Proof.
  intros Henv Hg.
  apply (wp_returns_unit _ _ (λ _ st',
    selection st' = selection st ∧ layout st' = layout st ∧ pools st' = pools st
    ∧ (∀ h, is_Some (_hashes_to_thumbnails_waiting_to_be_drawn st' !! h) →
            is_Some (_hashes_to_thumbnails_waiting_to_be_drawn st !! h))
    ∧ ∃ new, painted st' = painted st ++ new
             ∧ ∀ d, d ∈ new →
                    ∃ h o, _hashes_to_thumbnails_waiting_to_be_drawn st !! h = Some o
                           ∧ _sorted_media st !! thumbnail_index o = Some (thumbnail o)
                           ∧ is_Some (_clean_canvas_pages st
                                        !! page_of st (thumbnail_index o))
                           ∧ draws_of (entry_hash o) d)).
  eapply wp_mono.
  { apply wp_conj.
    - apply (wp_TIMERAnimationUpdate env st (λ _ st', tick_result st st')); done.
    - unfold TIMERAnimationUpdate.
      apply wp_bind, wp_GetNowPrecise, wp_bind, wp_get.
      apply (wp_animation_loop_dom _ _ _ _ st _
               (λ _ st', ∀ h, is_Some (_hashes_to_thumbnails_waiting_to_be_drawn st' !! h) →
                              is_Some (_hashes_to_thumbnails_waiting_to_be_drawn st !! h)));
        [done|by repeat split| | |done|done].
      + rewrite (iterate_perm env Henv). apply NoDup_fst_map_to_list.
      + intros h. rewrite (iterate_perm env Henv), list_elem_of_fmap.
        intros ([h' o] & -> & Hho%elem_of_map_to_list). by eexists. }
  intros [] st' [((Hs & Hl & Hp) & new & Hnew & Hdraws) Hdom].
  split_and!; [done..|]. exists new. split; [done|].
  intros d Hd. destruct (Hdraws d Hd) as (h & o & Ho & Hfresh & Hdo).
  exists h, o. split_and!; [done| | |done].
  - destruct (decide (_sorted_media st !! thumbnail_index o = Some (thumbnail o)));
      [done|]. exfalso. apply Hfresh. by left.
  - destruct (_clean_canvas_pages st !! page_of st (thumbnail_index o)) eqn:Hc;
      [by eexists|]. exfalso. apply Hfresh. by right.
Qed.

(** ** Selection and focus *)

Lemma wp_plain_hit_and_scroll env m st Q :
  panel_ok st → m ∈ _sorted_media st →
  (∀ st', panel_ok st' → layout st' = layout st → plainly_hit st m st' → Q tt st') →
  wp (_HitMedia env (Some m) false false ;; _ScrollToMedia env (Some m)) st Q.
Proof.
  intros Hok Hm HQ. apply wp_bind. unfold _HitMedia.
  eapply wp_mono.
  { apply wp_conj.
    - apply (wp_hit_media_ok env m false false st
               (λ _ st', panel_ok st' ∧ layout st' = layout st)); [done|done|].
      by intros st' ? ? _.
    - apply (wp_hit_plain env m false false st (λ _ st', plainly_hit st m st'));
        [apply Hok|done|by left|].
      intros st' des sel Hds _ _ Hs Hsm _ Hfoc Hlast _ Hanc Hadd.
      split_and!; try done. rewrite Hsm.
      destruct (is_selected st m); injection Hds as -> ->; simpl.
      + set_solver.
      + rewrite list_to_set_elements_L. set_solver. }
  intros [] st' [[Hok' Hl] Hhit].
  apply wp_ScrollToMedia; [apply Hok'|]. by apply HQ.
Qed.

Lemma getitem_last (l : list media) : getitem l (-1) = last l.
Proof.
  unfold getitem. rewrite decide_False by lia. rewrite last_lookup.
  destruct l as [|x l]; simpl; [done|].
  rewrite decide_True by lia. f_equal. lia.
Qed.

(** X13. The Home and End keys, without shift, leave an empty panel alone
    and otherwise hit the first and the last item of the sequence: the item
    is focused, starts a new shift gesture, and becomes the only selected
    item unless it was selected already. *)
Theorem home_and_end_keys env st :
  panel_ok st →
  (_sorted_media st = [] →
   _ScrollHome env false st = inr (tt, st) ∧ _ScrollEnd env false st = inr (tt, st))
  ∧ (∀ home_media, head (_sorted_media st) = Some home_media →
       ∃ st', _ScrollHome env false st = inr (tt, st')
              ∧ plainly_hit st home_media st' ∧ panel_ok st')
  ∧ (∀ end_media, last (_sorted_media st) = Some end_media →
       ∃ st', _ScrollEnd env false st = inr (tt, st')
              ∧ plainly_hit st end_media st' ∧ panel_ok st').
Proof.
  intros Hok. split_and!.
  - intros Hnil. unfold _ScrollHome, _ScrollEnd, bind, get. by rewrite Hnil.
  - intros m Hm.
    apply (wp_returns_unit _ _ (λ _ st', plainly_hit st m st' ∧ panel_ok st')).
    unfold _ScrollHome. apply wp_bind, wp_get.
    destruct (_sorted_media st) as [|x l] eqn:Hs; [done|]. injection Hm as ->.
    rewrite decide_True by (simpl; lia).
    apply wp_bind. eapply wp_or_raise; [done|].
    apply wp_plain_hit_and_scroll; [done|rewrite Hs; left|]. by intros st' ? _ ?.
  - intros m Hm.
    apply (wp_returns_unit _ _ (λ _ st', plainly_hit st m st' ∧ panel_ok st')).
    unfold _ScrollEnd. apply wp_bind, wp_get.
    assert (m ∈ _sorted_media st) as Hin.
    { rewrite last_lookup in Hm. by eapply list_elem_of_lookup_2. }
    rewrite decide_True by (destruct (_sorted_media st); [by apply elem_of_nil in Hin|simpl; lia]).
    apply wp_bind. eapply wp_or_raise; [by rewrite getitem_last|].
    apply wp_plain_hit_and_scroll; [done|done|]. by intros st' ? _ ?.
Qed.

Lemma clamp_position_spec (len : nat) (i : Z) :
  (0 < len)%nat →
  (if decide (i < 0) then 0
   else if decide (Z.of_nat len - 1 < i) then Z.of_nat len - 1 else i)
  = clamp_position len i
  ∧ 0 ≤ clamp_position len i < Z.of_nat len.
Proof. intros Hlen. unfold clamp_position. repeat case_decide; lia. Qed.

(** The move of [_MoveThumbnailFocus], once it has an item to start from. *)
Lemma wp_move_from env rows columns st i Q :
  panel_ok st → (i < length (_sorted_media st))%nat →
  (∀ st' new_media,
     _sorted_media st
       !! Z.to_nat (clamp_position (length (_sorted_media st))
                      (Z.of_nat i + columns + _num_columns st * rows))
     = Some new_media →
     plainly_hit st new_media st' → panel_ok st' → Q tt st') →
  wp (new_media ←
        or_raise IndexError
          (getitem (_sorted_media st)
             (if decide (Z.of_nat i + columns + _num_columns st * rows < 0) then 0
              else if decide (Z.of_nat (length (_sorted_media st)) - 1
                              < Z.of_nat i + columns + _num_columns st * rows)
                   then Z.of_nat (length (_sorted_media st)) - 1
                   else Z.of_nat i + columns + _num_columns st * rows));
      _HitMedia env (Some new_media) false false ;;
      _ScrollToMedia env (Some new_media)) st Q.
Proof.
  intros Hok Hi HQ.
  destruct (clamp_position_spec (length (_sorted_media st))
              (Z.of_nat i + columns + _num_columns st * rows)) as [-> Hrange]; [lia|].
  rewrite getitem_nonneg by lia.
  destruct (lookup_lt_is_Some_2 (_sorted_media st)
              (Z.to_nat (clamp_position (length (_sorted_media st))
                           (Z.of_nat i + columns + _num_columns st * rows))))
    as [new_media Hnew]; [lia|].
  apply wp_bind. eapply wp_or_raise; [exact Hnew|].
  apply wp_plain_hit_and_scroll; [done|by eapply list_elem_of_lookup_2|].
  intros st' Hok' _ Hhit. by eapply HQ.
Qed.

(** X14. An arrow or page key, without shift, hits the item [columns] places
    and [rows] rows of the grid from the item last hit, stopping at the two
    ends of the sequence. With nothing hit but a fallback focus cached, the
    move starts from the fallback, and a move to the left lands on the
    fallback itself. When the item last hit has left the sequence the focus
    is cleared, and an empty panel with nothing to start from is left
    alone. *)
Theorem arrow_keys_move_focus env rows columns st :
  panel_ok st →
  (∀ m i,
     _last_hit_media st = Some m → list_index m (_sorted_media st) = Some i →
     ∃ st' new_media,
       _MoveThumbnailFocus env rows columns false st = inr (tt, st')
       ∧ _sorted_media st
           !! Z.to_nat (clamp_position (length (_sorted_media st))
                          (Z.of_nat i + columns + _num_columns st * rows))
         = Some new_media
       ∧ plainly_hit st new_media st' ∧ panel_ok st')
  ∧ (∀ m i,
       _last_hit_media st = None →
       _next_best_media_if_focuses_removed st = Some m →
       list_index m (_sorted_media st) = Some i →
       ∃ st' new_media,
         _MoveThumbnailFocus env rows columns false st = inr (tt, st')
         ∧ _sorted_media st
             !! Z.to_nat (clamp_position (length (_sorted_media st))
                            (Z.of_nat i + (if decide (columns = -1) then 0 else columns)
                             + _num_columns st * rows))
           = Some new_media
         ∧ plainly_hit st new_media st' ∧ panel_ok st')
  ∧ (∀ m, _last_hit_media st = Some m → m ∉ _sorted_media st →
          ∃ st', _MoveThumbnailFocus env rows columns false st = inr (tt, st')
                 ∧ _focused_media st' = None ∧ _last_hit_media st' = None
                 ∧ _selected_media st' = _selected_media st)
  ∧ (_last_hit_media st = None → _next_best_media_if_focuses_removed st = None →
     _sorted_media st = [] →
     _MoveThumbnailFocus env rows columns false st = inr (tt, st)).
Proof.
  intros Hok. split_and!.
  - intros m i Hlast Hi.
    assert (wp (_MoveThumbnailFocus env rows columns false) st (λ _ st',
              ∃ new_media,
                _sorted_media st
                  !! Z.to_nat (clamp_position (length (_sorted_media st))
                                 (Z.of_nat i + columns + _num_columns st * rows))
                = Some new_media
                ∧ plainly_hit st new_media st' ∧ panel_ok st')) as Hwp.
    { unfold _MoveThumbnailFocus. apply wp_bind, wp_get. rewrite Hlast.
      apply wp_bind, wp_ret. rewrite Hi.
      apply wp_move_from; [done|by eapply lookup_lt_Some, list_index_Some|]. eauto. }
    apply wp_returns_unit in Hwp as (st' & Hrun & new_media & Hw). eauto.
  - intros m i Hlast Hbest Hi.
    assert (wp (_MoveThumbnailFocus env rows columns false) st (λ _ st',
              ∃ new_media,
                _sorted_media st
                  !! Z.to_nat (clamp_position (length (_sorted_media st))
                                 (Z.of_nat i
                                  + (if decide (columns = -1) then 0 else columns)
                                  + _num_columns st * rows))
                = Some new_media
                ∧ plainly_hit st new_media st' ∧ panel_ok st')) as Hwp.
    { unfold _MoveThumbnailFocus. apply wp_bind, wp_get. rewrite Hlast, Hbest.
      apply wp_bind, wp_ret. rewrite Hi.
      apply wp_move_from; [done|by eapply lookup_lt_Some, list_index_Some|]. eauto. }
    apply wp_returns_unit in Hwp as (st' & Hrun & new_media & Hw). eauto.
  - intros m Hlast Hm.
    apply (wp_returns_unit _ _ (λ _ st',
      _focused_media st' = None ∧ _last_hit_media st' = None
      ∧ _selected_media st' = _selected_media st)).
    unfold _MoveThumbnailFocus. apply wp_bind, wp_get. rewrite Hlast.
    apply wp_bind, wp_ret.
    destruct (list_index m (_sorted_media st)) as [i|] eqn:Hi.
    { exfalso. apply Hm. by eapply list_elem_of_lookup_2, list_index_Some. }
    apply wp_SetFocusedMedia; [|done].
    intros focused _ Hf. by apply (panel_focus _ Hok).
  - intros Hlast Hbest Hnil. unfold _MoveThumbnailFocus, bind, get.
    by rewrite Hlast, Hbest, Hnil.
Qed.

(** X15. A ctrl-click on an item of the sequence toggles that item and no
    other: a selected item leaves the selection, loses the focus if it had
    it, and ends the shift gesture; an unselected item joins the selection
    and becomes the anchor of a new shift gesture. *)
Theorem ctrl_click_toggles env m st :
  panel_ok st → m ∈ _sorted_media st →
  ∃ st', _HitMedia env (Some m) true false st = inr (tt, st')
         ∧ _sorted_media st' = _sorted_media st
         ∧ _selected_media st'
           = (if is_selected st m then _selected_media st ∖ {[m]}
              else _selected_media st ∪ {[m]})
         ∧ (∀ x, is_selected st' x
                 = if decide (x = m) then negb (is_selected st m) else is_selected st x)
         ∧ _shift_select_started_with_this_media st'
           = (if is_selected st m then None else Some m)
         ∧ _media_added_in_current_shift_select st' = ∅
         ∧ (is_selected st m = true → _focused_media st = Some m →
            _focused_media st' = None)
         ∧ (_focused_media st ≠ Some m →
            focus_preview_on_ctrl_click env = false →
            _focused_media st' = _focused_media st).
Proof.
  intros Hok Hm. unfold _HitMedia.
  apply (wp_returns_unit _ _ (λ _ st',
    _sorted_media st' = _sorted_media st
    ∧ _selected_media st'
      = (if is_selected st m then _selected_media st ∖ {[m]}
         else _selected_media st ∪ {[m]})
    ∧ (∀ x, is_selected st' x
            = if decide (x = m) then negb (is_selected st m) else is_selected st x)
    ∧ _shift_select_started_with_this_media st'
      = (if is_selected st m then None else Some m)
    ∧ _media_added_in_current_shift_select st' = ∅
    ∧ (is_selected st m = true → _focused_media st = Some m →
       _focused_media st' = None)
    ∧ (_focused_media st ≠ Some m →
       focus_preview_on_ctrl_click env = false →
       _focused_media st' = _focused_media st))).
  apply wp_hit_ctrl; [apply Hok|apply (panel_focus _ Hok)|].
  intros st' des sel Hds _ _ Hs Hsm Hfl Hadd Hanc Hfoc.
  split_and!; try done.
  - rewrite Hsm. destruct (is_selected st m); injection Hds as -> ->; simpl; set_solver.
  - intros x. rewrite (is_selected_flag_after des sel st st' x Hfl). unfold flag_after.
    destruct (is_selected st m) eqn:Hsel; injection Hds as -> ->;
      repeat case_decide; simplify_eq; try done; set_solver.
  - intros Hsel Hf. rewrite Hfoc, Hsel. by rewrite decide_True.
  - intros Hf Hopt. rewrite Hfoc. unfold focus_it. rewrite Hopt.
    destruct (is_selected st m); [by rewrite decide_False|done].
Qed.

(** X16. A hit on the whitespace of the grid with neither ctrl nor shift
    deselects everything, clears the focus and ends the shift gesture; with
    ctrl or shift held it changes nothing. A press of the right button on
    whitespace hits nothing: it records where and when the press was made,
    in the drag fields, and changes nothing else. *)
Theorem whitespace_click_deselects_all env st :
  panel_ok st →
  (∃ st', _HitMedia env None false false st = inr (tt, st')
          ∧ _sorted_media st' = _sorted_media st
          ∧ _selected_media st' = ∅
          ∧ (∀ x, x ∈ _sorted_media st → is_selected st' x = false)
          ∧ _focused_media st' = None
          ∧ _shift_select_started_with_this_media st' = None
          ∧ _media_added_in_current_shift_select st' = ∅)
  ∧ (∀ ctrl shift, ctrl || shift = true →
                   _HitMedia env None ctrl shift st = inr (tt, st))
  ∧ (∀ cursor_pos now_ms x y ctrl shift drag,
       _GetThumbnailUnderMouse env x y st = inr (None, st) →
       InnerWidget_mousePressEvent env cursor_pos now_ms x y true ctrl shift (st, drag)
       = inr (tt, (st, {| _drag_init_coordinates := Some cursor_pos;
                          _drag_click_timestamp_ms := now_ms;
                          _drag_prefire_event_count :=
                            _drag_prefire_event_count drag |}))).
Proof.
  intros Hok. split_and!.
  - apply (wp_returns_unit _ _ (λ _ st',
      _sorted_media st' = _sorted_media st
      ∧ _selected_media st' = ∅
      ∧ (∀ x, x ∈ _sorted_media st → is_selected st' x = false)
      ∧ _focused_media st' = None
      ∧ _shift_select_started_with_this_media st' = None
      ∧ _media_added_in_current_shift_select st' = ∅)).
    unfold _HitMedia. simpl. apply wp_bind.
    apply wp_Select; [done|by intros m ?%elem_of_empty|].
    intros st1 Hok1 _ Hs1 Hsel1.
    apply wp_bind, wp_SetFocusedMedia.
    { intros focused _ Hf. by apply (panel_focus _ Hok1). }
    apply wp_EndShiftSelect. simpl. split_and!; try done.
    intros x Hx. destruct (is_selected st1 x) eqn:Hflag; [|done]. exfalso.
    pose proof (proj1 (selection_consistent_alt st1) (panel_selection _ Hok1) x) as Hiff.
    rewrite Hsel1, Hs1 in Hiff. apply (not_elem_of_empty (C := gset media) x).
    by apply Hiff.
  - intros ctrl shift Hmod. unfold _HitMedia.
    by destruct ctrl, shift.
  - intros cursor_pos now_ms x y ctrl shift drag Hmiss.
    unfold InnerWidget_mousePressEvent, mousePressEvent, bind. simpl.
    by rewrite Hmiss.
Qed.

(** X17. Selecting by a filter makes the selection exactly the items the
    filter matches: they are the selection set, and the selected flag of an
    item of the sequence tells whether it matches. The sequence and the
    layout stay as they are. *)
Theorem select_by_filter_is_exact env matching_media st :
  panel_ok st → (∀ m, m ∈ matching_media → m ∈ _sorted_media st) →
  ∃ st', _Select env matching_media st = inr (tt, st')
         ∧ _selected_media st' = matching_media
         ∧ (∀ x, x ∈ _sorted_media st →
                 is_selected st' x = bool_decide (x ∈ matching_media))
         ∧ _sorted_media st' = _sorted_media st
         ∧ layout st' = layout st
         ∧ panel_ok st'.
Proof.
  intros Hok Hin.
  apply (wp_returns_unit _ _ (λ _ st',
    _selected_media st' = matching_media
    ∧ (∀ x, x ∈ _sorted_media st →
            is_selected st' x = bool_decide (x ∈ matching_media))
    ∧ _sorted_media st' = _sorted_media st
    ∧ layout st' = layout st
    ∧ panel_ok st')).
  apply wp_Select; [done|done|].
  intros st' Hok' Hl Hs Hsel. split_and!; try done.
  intros x Hx.
  pose proof (proj1 (selection_consistent_alt st') (panel_selection _ Hok') x) as Hiff.
  rewrite Hsel, Hs in Hiff.
  destruct (is_selected st' x) eqn:Hflag.
  - symmetry. apply bool_decide_eq_true. by apply Hiff.
  - symmetry. apply bool_decide_eq_false. intros Hx'. apply Hiff in Hx' as [_ ?]. done.
Qed.

Lemma wp_PublishSelectionChange_state env tags_changed st Q :
  Q tt st →
  (∀ b, Q tt (set_had_changes_to_tag_presentation_while_hidden b st)) →
  wp (_PublishSelectionChange env tags_changed) st Q.
Proof.
  intros HQ HQ'. unfold _PublishSelectionChange. apply wp_bind, wp_get.
  destruct (IsCurrentPage env), tags_changed,
    (_had_changes_to_tag_presentation_while_hidden st); simpl;
    (by apply wp_modify, HQ') || by apply wp_ret.
Qed.

(** The state [_RemoveMediaDirectly] leaves, with the buffers of the dirty
    pool in the order of the map. *)
Lemma RemoveMediaDirectly_state env singleton_media collected_media st :
  panel_ok st → yUnit env ≠ 0 →
  ∃ st', _RemoveMediaDirectly env singleton_media collected_media st = inr (tt, st')
         ∧ _focused_media st'
           = match _focused_media st with
             | Some focused =>
                 if bool_decide (focused ∈ singleton_media ∪ collected_media)
                 then None else Some focused
             | None => None
             end
         ∧ _shift_select_started_with_this_media st' = None
         ∧ _media_added_in_current_shift_select st' = ∅
         ∧ _clean_canvas_pages st' = ∅
         ∧ _dirty_canvas_pages st'
           = _dirty_canvas_pages st ++ (map_to_list (_clean_canvas_pages st)).*2
         ∧ _hashes_to_thumbnails_waiting_to_be_drawn st'
           = _hashes_to_thumbnails_waiting_to_be_drawn st
         ∧ _hashes_faded st' = _hashes_faded st.
Proof.
  intros Hok Hy.
  pose proof (panel_cache _ Hok) as [Hg Hnn _ _].
  apply (wp_returns_unit _ _ (λ _ st',
    _focused_media st'
    = match _focused_media st with
      | Some focused =>
          if bool_decide (focused ∈ singleton_media ∪ collected_media)
          then None else Some focused
      | None => None
      end
    ∧ _shift_select_started_with_this_media st' = None
    ∧ _media_added_in_current_shift_select st' = ∅
    ∧ _clean_canvas_pages st' = ∅
    ∧ _dirty_canvas_pages st'
      = _dirty_canvas_pages st ++ (map_to_list (_clean_canvas_pages st)).*2
    ∧ _hashes_to_thumbnails_waiting_to_be_drawn st'
      = _hashes_to_thumbnails_waiting_to_be_drawn st
    ∧ _hashes_faded st' = _hashes_faded st)).
  unfold _RemoveMediaDirectly. apply wp_bind, wp_get. apply wp_bind.
  apply (wp_mono _ _ (λ _ st1,
    geom_ok st1 ∧ pools st1 = pools st
    ∧ _focused_media st1
      = match _focused_media st with
        | Some focused =>
            if bool_decide (focused ∈ singleton_media ∪ collected_media)
            then None else Some focused
        | None => None
        end
    ∧ _hashes_to_thumbnails_waiting_to_be_drawn st1
      = _hashes_to_thumbnails_waiting_to_be_drawn st
    ∧ _hashes_faded st1 = _hashes_faded st)).
  { destruct (_focused_media st) as [focused|] eqn:Hfoc; [|by apply wp_ret].
    assert (bool_decide (focused ∈ singleton_media)
            || bool_decide (focused ∈ collected_media)
            = bool_decide (focused ∈ singleton_media ∪ collected_media)) as ->.
    { apply eq_true_iff_eq. rewrite orb_true_iff, !bool_decide_eq_true. set_solver. }
    destruct (bool_decide _); [|by apply wp_ret].
    apply wp_SetFocusedMedia; [|done].
    intros f _ Hf. apply (panel_focus _ Hok). congruence. }
  intros [] st1 (Hg1 & Hp1 & Hf1 & Hpend1 & Hfaded1).
  injection Hp1 as Hclean1 Hdirty1 _.
  apply wp_bind. unfold MediaList_RemoveMediaDirectly.
  apply wp_bind, wp_modify, wp_modify.
  apply wp_bind, wp_EndShiftSelect.
  apply wp_bind, wp_RecalculateVirtualSize; [done|done|].
  apply wp_bind, wp_DirtyAllPages; [done|simpl; rewrite Hclean1; exact Hnn|].
  apply wp_PublishSelectionChange_state; [|intros b]; simpl;
    rewrite Hclean1, Hdirty1; by split_and!.
Qed.

(** X18. Removing media clears the focus when the focused item is among the
    removed and keeps it otherwise, ends the shift gesture, and sends every
    clean page to the dirty pool, after the buffers that were there, in some
    order; the pending fades and the record of finished fades are not
    touched. *)
Theorem removal_dirties_every_page env singleton_media collected_media st :
  panel_ok st → yUnit env ≠ 0 →
  ∃ st', _RemoveMediaDirectly env singleton_media collected_media st = inr (tt, st')
         ∧ _focused_media st'
           = match _focused_media st with
             | Some focused =>
                 if bool_decide (focused ∈ singleton_media ∪ collected_media)
                 then None else Some focused
             | None => None
             end
         ∧ _shift_select_started_with_this_media st' = None
         ∧ _media_added_in_current_shift_select st' = ∅
         ∧ _clean_canvas_pages st' = ∅
         ∧ (∃ buffers,
              buffers ≡ₚ (map_to_list (_clean_canvas_pages st)).*2
              ∧ _dirty_canvas_pages st' = _dirty_canvas_pages st ++ buffers)
         ∧ _hashes_to_thumbnails_waiting_to_be_drawn st'
           = _hashes_to_thumbnails_waiting_to_be_drawn st
         ∧ _hashes_faded st' = _hashes_faded st.
Proof.
  intros Hok Hy.
  destruct (RemoveMediaDirectly_state env singleton_media collected_media st Hok Hy)
    as (st' & Hrun & Hfoc & Hshift & Hadded & Hclean & Hdirty & Hpend & Hfaded).
  exists st'. split_and!; try done.
  by exists (map_to_list (_clean_canvas_pages st)).*2.
Qed.

(** * Properties of the system tray icon *)

Section system_tray.

Import String SystemTray.
Local Open Scope string_scope.
Local Infix ">>" := and_then (at level 60, right associativity).

Variable main_gui_title : option string.

Ltac tray_state st :=
  destruct st as [ui always net subs i1 i2 i3 jc vis tip cm txt dm n em].

Ltac tray_run :=
  unfold serve, SetNetworkTrafficPaused, SetSubscriptionsPaused, SetUIIsCurrentlyShown,
    SetShouldAlwaysShow, _WasActivated, _UpdateShowSelf, _RegenerateMenu, new_QMenu,
    AppendMenuItem, and_then, assign, emit, AppendSeparator, _UpdateShowHideMenuItemLabel,
    _UpdateNetworkTrafficMenuItemLabel, _UpdateSubscriptionsMenuItemLabel, setText,
    _UpdateTooltip; simpl.

Ltac tray_step :=
  unfold serve, SetNetworkTrafficPaused, SetSubscriptionsPaused, SetUIIsCurrentlyShown,
    SetShouldAlwaysShow, _WasActivated, _UpdateShowSelf, and_then, assign, emit,
    _UpdateShowHideMenuItemLabel, _UpdateNetworkTrafficMenuItemLabel,
    _UpdateSubscriptionsMenuItemLabel, setText, _UpdateTooltip; simpl.

Ltac tray_lookup :=
  repeat first [ apply lookup_insert_eq
               | etrans; [apply lookup_insert_ne; lia|] ].

Lemma tooltip_for_spec st :
  _UpdateTooltip main_gui_title st = inr (set_toolTip (tooltip_for main_gui_title st) st).
Proof.
  tray_state st. unfold _UpdateTooltip, tooltip_for. simpl. do 2 f_equal.
  destruct main_gui_title as [title|]; [destruct title as [|c title]|]; simpl;
    by destruct net, subs.
Qed.

Lemma tray_tooltip_text net subs :
  (let title :=
     match main_gui_title with
     | Some title => if decide (title = "") then "hydrus client" else title
     | None => "hydrus client"
     end in
   let tooltip := if net : bool then title ++ " - network traffic paused" else title in
   if subs : bool then tooltip ++ " - subscriptions paused" else tooltip)
  = (let title :=
       match main_gui_title with
       | None | Some "" => "hydrus client"
       | Some title => title
       end in
     match net, subs with
     | false, false => title
     | true, false => title ++ " - network traffic paused"
     | false, true => title ++ " - subscriptions paused"
     | true, true => (title ++ " - network traffic paused") ++ " - subscriptions paused"
     end).
Proof.
  destruct main_gui_title as [title|]; [destruct title as [|c title]|]; simpl;
    by destruct net, subs.
Qed.

Lemma RegenerateMenu_ok st :
  isVisible st = _should_always_show st || negb (_ui_is_currently_shown st) →
  ∃ st', _RegenerateMenu main_gui_title st = inr st'
         ∧ tray_ok main_gui_title st'
         ∧ flags st' = flags st
         ∧ _just_clicked_to_show st' = _just_clicked_to_show st
         ∧ emitted st' = emitted st.
Proof.
  tray_state st. simpl. intros Hvis. tray_run.
  destruct cm as [old_menu|]; (eexists; split; [reflexivity|]);
    (split; [|done]); (split; simpl; [| |done|apply tray_tooltip_text]).
  - unfold menu_labels. simpl.
    repeat (rewrite ?lookup_insert_eq; rewrite ?lookup_insert_ne by lia). done.
  - eexists _, _, _, _, _. split_and!; [reflexivity..|].
    repeat (apply NoDup_cons; split; [rewrite ?elem_of_cons, elem_of_nil; lia|]).
    constructor.
  - unfold menu_labels. simpl.
    repeat (rewrite ?lookup_insert_eq; rewrite ?lookup_insert_ne by lia). done.
  - eexists _, _, _, _, _. split_and!; [reflexivity..|].
    repeat (apply NoDup_cons; split; [rewrite ?elem_of_cons, elem_of_nil; lia|]).
    constructor.
Qed.

Lemma NoDup_four (a b c d : nat) :
  NoDup [a; b; c; d] → a ≠ b ∧ a ≠ c ∧ a ≠ d ∧ b ≠ c ∧ b ≠ d ∧ c ≠ d.
Proof.
  rewrite !NoDup_cons, !elem_of_cons, !elem_of_nil. intros. split_and!; intros ->; tauto.
Qed.

(** A state in order, taken apart. *)
Lemma tray_ok_inv ui always net subs i1 i2 i3 jc vis tip cm txt dm n em :
  tray_ok main_gui_title
    (Build_ClientSystemTrayIcon ui always net subs i1 i2 i3 jc vis tip cm txt dm n em) →
  ∃ m a b c d,
    cm = Some m ∧ menu_entries m = [Item a; Separator; Item b; Item c; Separator; Item d]
    ∧ i1 = Some a ∧ i2 = Some b ∧ i3 = Some c
    ∧ (a ≠ b ∧ a ≠ c ∧ a ≠ d ∧ b ≠ c ∧ b ≠ d ∧ c ≠ d)
    ∧ txt !! a = Some (if ui then "hide" else "show")
    ∧ txt !! b = Some (if net then "unpause network traffic" else "pause network traffic")
    ∧ txt !! c = Some (if subs then "unpause subscriptions" else "pause subscriptions")
    ∧ txt !! d = Some "exit"
    ∧ vis = always || negb ui.
Proof.
  intros [Hmenu (m & a & b & c & d & Hcm & Hent & Ha & Hb & Hc & Hnd) Hvis _].
  simpl in *. subst. unfold menu_labels in Hmenu. simpl in Hmenu.
  rewrite Hent in Hmenu. simpl in Hmenu. injection Hmenu as H1 H2 H3 H4.
  pose proof (NoDup_four _ _ _ _ Hnd) as Hne.
  exists m, a, b, c, d. by repeat (split; [done|]).
Qed.

Lemma tray_ok_intro ui always net subs jc tip m a b c d txt dm n em :
  menu_entries m = [Item a; Separator; Item b; Item c; Separator; Item d] →
  (a ≠ b ∧ a ≠ c ∧ a ≠ d ∧ b ≠ c ∧ b ≠ d ∧ c ≠ d) →
  txt !! a = Some (if ui : bool then "hide" else "show") →
  txt !! b = Some (if net : bool
                   then "unpause network traffic" else "pause network traffic") →
  txt !! c = Some (if subs : bool
                   then "unpause subscriptions" else "pause subscriptions") →
  txt !! d = Some "exit" →
  tip = tooltip_for main_gui_title
          (Build_ClientSystemTrayIcon ui always net subs (Some a) (Some b) (Some c) jc
             (always || negb ui) tip (Some m) txt dm n em) →
  tray_ok main_gui_title
    (Build_ClientSystemTrayIcon ui always net subs (Some a) (Some b) (Some c) jc
       (always || negb ui) tip (Some m) txt dm n em).
Proof.
  intros Hent (Hab & Hac & Had & Hbc & Hbd & Hcd) Ha Hb Hc Hd Htip. split; simpl.
  - unfold menu_labels. simpl. by rewrite Hent; simpl; rewrite Ha, Hb, Hc, Hd.
  - exists m, a, b, c, d. split_and!; try done.
    repeat (apply NoDup_cons; split; [rewrite ?elem_of_cons, elem_of_nil; tauto|]).
    constructor.
  - done.
  - done.
Qed.

(** Every request is served, and leaves the icon in order. *)
Lemma serve_ok r st :
  tray_ok main_gui_title st →
  ∃ st', serve main_gui_title r st = inr st' ∧ tray_ok main_gui_title st'
         ∧ served r st st'.
Proof.
  tray_state st. intros Hok.
  pose proof Hok as [_ _ _ Htip]. simpl in Htip.
  destruct (tray_ok_inv _ _ _ _ _ _ _ _ _ _ _ _ _ _ _ Hok)
    as (m & a & b & c & d & -> & Hent & -> & -> & -> & Hne & Ha & Hb & Hc & Hd & ->).
  pose proof Hne as (Hab & Hac & Had & Hbc & Hbd & Hcd).
  destruct r as [v|v|v|v|reason].
  - (* SetNetworkTrafficPaused *)
    tray_step. destruct v, net; simpl.
    all: eexists; (split; [reflexivity|]); (split; [|done]); try exact Hok.
    all: eapply tray_ok_intro; [exact Hent|exact Hne|..]; [tray_lookup; done..|].
    all: first [exact (tray_tooltip_text true subs)|exact (tray_tooltip_text false subs)].
  - (* SetSubscriptionsPaused *)
    tray_step. destruct v, subs; simpl.
    all: eexists; (split; [reflexivity|]); (split; [|done]); try exact Hok.
    all: eapply tray_ok_intro; [exact Hent|exact Hne|..]; [tray_lookup; done..|].
    all: first [exact (tray_tooltip_text net true)|exact (tray_tooltip_text net false)].
  - (* SetUIIsCurrentlyShown *)
    tray_step. destruct v, ui, always, jc; simpl.
    all: eexists; (split; [reflexivity|]); (split; [|done]); try exact Hok.
    all: try (eapply tray_ok_intro; [exact Hent|exact Hne|..]; [tray_lookup; done..|];
              done).
    all: eapply tray_ok_intro; [reflexivity|repeat split; lia|..]; [tray_lookup..|].
    all: exact (tray_tooltip_text net subs).
  - (* SetShouldAlwaysShow *)
    tray_step. destruct v, ui, always; simpl.
    all: eexists; (split; [reflexivity|]); (split; [|done]); try exact Hok.
    all: try (eapply tray_ok_intro; [exact Hent|exact Hne|..]; [tray_lookup; done..|];
              done).
    all: eapply tray_ok_intro; [reflexivity|repeat split; lia|..]; [tray_lookup..|].
    all: exact (tray_tooltip_text net subs).
  - (* _WasActivated *)
    tray_step. destruct reason, ui, jc; simpl; eexists; (split; [reflexivity|]);
      (split; [|done]); by eapply tray_ok_intro.
Qed.

Lemma new_tray_ok :
  ∃ st, new_ClientSystemTrayIcon main_gui_title = inr st ∧ tray_ok main_gui_title st.
Proof.
  unfold new_ClientSystemTrayIcon.
  destruct (RegenerateMenu_ok
              (Build_ClientSystemTrayIcon true false false false None None None false
                 false "" None ∅ [] 0 [])) as (st & Hrun & Hok & _); [done|].
  by exists st.
Qed.

Lemma reachable_tray_ok st :
  reachable main_gui_title st → tray_ok main_gui_title st.
Proof.
  induction 1 as [st Hnew|r st st' _ IH Hserve].
  - destruct new_tray_ok as (st0 & Hrun & Hok). congruence.
  - destruct (serve_ok r st IH) as (st0 & Hrun & Hok & _). congruence.
Qed.

(** X19. The tray icon mirrors its flags at all times: from its making on
    and after every request, the context menu reads show/hide, network
    traffic, subscriptions and exit with the labels the flags call for, the
    icon is visible exactly when it should always show or the window is
    hidden, and the tooltip is the title followed by what is paused. No
    request raises. *)
Theorem tray_mirrors_flags st :
  reachable main_gui_title st →
  tray_ok main_gui_title st
  ∧ ∀ r, ∃ st', serve main_gui_title r st = inr st' ∧ tray_ok main_gui_title st'.
Proof.
  intros Hok%reachable_tray_ok. split; [done|]. intros r.
  destruct (serve_ok r st Hok) as (st' & ? & ? & _). eauto.
Qed.

(** X20. A setter of the tray icon sets its own flag and leaves the other
    three, and emits no signal; hiding the window forgets the click that
    asked to show it. An activation changes no flag. *)
Theorem tray_setters_set_one_flag r st :
  tray_ok main_gui_title st →
  ∃ st', serve main_gui_title r st = inr st' ∧ served r st st'.
Proof.
  intros Hok. destruct (serve_ok r st Hok) as (st' & ? & _ & ?). eauto.
Qed.

(** X21. With the window hidden, a click on the icon asks for the window;
    once the window shows, the second click of a double click asks for
    nothing, while a middle click asks to flip it again; and after the
    window was hidden again a double click asks for it. *)
Theorem tray_double_click_after_show st :
  tray_ok main_gui_title st → _ui_is_currently_shown st = false →
  ∃ st1 st2,
    serve main_gui_title (Activated Trigger) st = inr st1
    ∧ emitted st1 = (emitted st ++ [flip_show_ui])%list
    ∧ serve main_gui_title (UIIsCurrentlyShown true) st1 = inr st2
    ∧ emitted st2 = emitted st1
    ∧ serve main_gui_title (Activated DoubleClick) st2 = inr st2
    ∧ (∃ st3, serve main_gui_title (Activated MiddleClick) st2 = inr st3
              ∧ emitted st3 = (emitted st2 ++ [flip_show_ui])%list)
    ∧ (∃ st3 st4,
         serve main_gui_title (UIIsCurrentlyShown false) st2 = inr st3
         ∧ serve main_gui_title (Activated DoubleClick) st3 = inr st4
         ∧ emitted st4 = (emitted st2 ++ [flip_show_ui])%list).
Proof.
  tray_state st. intros Hok. simpl. intros ->.
  destruct (tray_ok_inv _ _ _ _ _ _ _ _ _ _ _ _ _ _ _ Hok)
    as (m & a & b & c & d & -> & Hent & -> & -> & -> & Hne & Ha & Hb & Hc & Hd & ->).
  destruct always.
  all: eexists _, _.
  all: split; [tray_step; unfold assign; simpl; reflexivity|].
  all: split; [simpl; reflexivity|].
  all: split; [tray_step; reflexivity|].
  all: split; [simpl; reflexivity|].
  all: split; [tray_step; reflexivity|].
  all: split.
  all: try (eexists; split; [tray_step; unfold assign; simpl; reflexivity|];
            simpl; reflexivity).
  all: eexists _, _.
  all: split; [tray_step; reflexivity|].
  all: split; [tray_step; unfold assign; simpl; reflexivity|].
  all: simpl; reflexivity.
Qed.

(** The icon of the example after network traffic and subscriptions were
    paused while the window was hidden. *)
Example tray_example :
  ∃ st, serve_all example_title
          [UIIsCurrentlyShown false; NetworkTrafficPaused true; SubscriptionsPaused true]
          example_tray = inr st
        ∧ menu_labels st
          = [Some "show"; None; Some "unpause network traffic";
             Some "unpause subscriptions"; None; Some "exit"]
        ∧ toolTip st = "hydrus - network traffic paused - subscriptions paused"
        ∧ isVisible st = true
        ∧ destroyed_menus st = [0%nat].
Proof. eexists. split_and!; vm_compute; reflexivity. Qed.

End system_tray.

Lemma example_tray_reachable :
  SystemTray.reachable SystemTray.example_title SystemTray.example_tray.
Proof. apply SystemTray.reachable_new. vm_compute. reflexivity. Qed.

Lemma example_tray_ok : SystemTray.tray_ok SystemTray.example_title SystemTray.example_tray.
Proof. apply reachable_tray_ok, example_tray_reachable. Qed.

Lemma tray_mirrors_flags_witness :
  SystemTray.reachable SystemTray.example_title SystemTray.example_tray
  ∧ SystemTray.tray_ok SystemTray.example_title SystemTray.example_tray
  ∧ ∀ r, ∃ st', SystemTray.serve SystemTray.example_title r SystemTray.example_tray
                  = inr st'
                ∧ SystemTray.tray_ok SystemTray.example_title st'.
Proof.
  refine (conj example_tray_reachable _).
  exact (tray_mirrors_flags SystemTray.example_title SystemTray.example_tray
           example_tray_reachable).
Defined.

Lemma tray_setters_set_one_flag_witness :
  SystemTray.tray_ok SystemTray.example_title SystemTray.example_tray
  ∧ ∃ st', SystemTray.serve SystemTray.example_title
             (SystemTray.NetworkTrafficPaused true) SystemTray.example_tray = inr st'
           ∧ SystemTray.served (SystemTray.NetworkTrafficPaused true)
               SystemTray.example_tray st'.
Proof.
  refine (conj example_tray_ok _).
  exact (tray_setters_set_one_flag SystemTray.example_title
           (SystemTray.NetworkTrafficPaused true) SystemTray.example_tray example_tray_ok).
Defined.

Lemma example_tray_hidden_ok :
  SystemTray.tray_ok SystemTray.example_title SystemTray.example_tray_hidden.
Proof.
  apply reachable_tray_ok.
  apply (SystemTray.reachable_serve _ (SystemTray.UIIsCurrentlyShown false)
           SystemTray.example_tray); [apply example_tray_reachable|].
  vm_compute. reflexivity.
Qed.

Lemma example_tray_hidden_flag :
  SystemTray._ui_is_currently_shown SystemTray.example_tray_hidden = false.
Proof. vm_compute. reflexivity. Qed.

Lemma tray_double_click_after_show_witness :
  SystemTray.tray_ok SystemTray.example_title SystemTray.example_tray_hidden
  ∧ SystemTray._ui_is_currently_shown SystemTray.example_tray_hidden = false
  ∧ ∃ st1 st2,
      SystemTray.serve SystemTray.example_title
        (SystemTray.Activated SystemTray.Trigger) SystemTray.example_tray_hidden
      = inr st1
      ∧ SystemTray.emitted st1
        = SystemTray.emitted SystemTray.example_tray_hidden ++ [SystemTray.flip_show_ui]
      ∧ SystemTray.serve SystemTray.example_title
          (SystemTray.UIIsCurrentlyShown true) st1 = inr st2
      ∧ SystemTray.emitted st2 = SystemTray.emitted st1
      ∧ SystemTray.serve SystemTray.example_title
          (SystemTray.Activated SystemTray.DoubleClick) st2 = inr st2.
Proof.
  refine (conj example_tray_hidden_ok (conj example_tray_hidden_flag _)).
  destruct (tray_double_click_after_show SystemTray.example_title
              SystemTray.example_tray_hidden example_tray_hidden_ok
              example_tray_hidden_flag)
    as (st1 & st2 & H1 & H2 & H3 & H4 & H5 & _).
  exact (ex_intro _ st1 (ex_intro _ st2 (conj H1 (conj H2 (conj H3 (conj H4 H5)))))).
Defined.

(** * The selection in order, and the start of a drag *)

#[local] Instance key_le_total : Total key_le.
Proof. intros x y. unfold key_le. lia. Qed.

#[local] Instance key_le_trans : Transitive key_le.
Proof. intros x y z. unfold key_le. lia. Qed.

Lemma map_M_keys (sorted_media : list media) (l : list media) st :
  (∀ m, m ∈ l → m ∈ sorted_media) →
  ∃ keyed,
    map_M (λ m, key ← or_raise DataMissing (list_index m sorted_media); ret (key, m))
          l st = inr (keyed, st)
    ∧ keyed.*2 = l
    ∧ ∀ key m, (key, m) ∈ keyed → list_index m sorted_media = Some key.
Proof.
  induction l as [|m l IH]; intros Hl; simpl.
  { exists []. split_and!; [done..|]. by intros key m ?%elem_of_nil. }
  destruct IH as (keyed & Hrun & Hsnd & Hin); [intros x Hx; apply Hl; by right|].
  destruct (list_index_is_Some m sorted_media) as [key Hkey]; [apply Hl; by left|].
  exists ((key, m) :: keyed). unfold bind at 1 2. rewrite Hkey. simpl.
  unfold bind at 1. rewrite Hrun. split_and!; [done|by f_equal|].
  intros k x [[= -> ->]|Hkx]%elem_of_cons; [done|by apply Hin].
Qed.

Lemma map_M_keys_missing (sorted_media : list media) (l : list media) st :
  (∃ m, m ∈ l ∧ m ∉ sorted_media) →
  map_M (λ m, key ← or_raise DataMissing (list_index m sorted_media); ret (key, m))
        l st = inl DataMissing.
Proof.
  induction l as [|m l IH]; intros (x & Hx & Hnot); simpl.
  { by apply elem_of_nil in Hx. }
  unfold bind at 1 2. destruct (list_index m sorted_media) as [key|] eqn:Hkey; [|done].
  simpl. unfold bind at 1. rewrite IH; [done|].
  exists x. split; [|done]. apply elem_of_cons in Hx as [->|Hx]; [|done].
  apply list_index_Some in Hkey. exfalso. apply Hnot.
  by eapply list_elem_of_lookup_2.
Qed.

(** X22. [_GetSelectedMediaOrdered] returns the selected items, each once, in
    the order of the sequence, and leaves the panel as it is; when a selected
    item is not in the sequence it raises [DataMissing]. *)
Theorem selected_media_in_sequence_order st :
  ((∀ m, m ∈ _selected_media st → m ∈ _sorted_media st) →
   ∃ l, _GetSelectedMediaOrdered st = inr (l, st)
        ∧ l ≡ₚ elements (_selected_media st)
        ∧ ∀ i j x y, l !! i = Some x → l !! j = Some y → (i < j)%nat →
                     ∃ kx ky, list_index x (_sorted_media st) = Some kx
                              ∧ list_index y (_sorted_media st) = Some ky
                              ∧ (kx < ky)%nat)
  ∧ ((∃ m, m ∈ _selected_media st ∧ m ∉ _sorted_media st) →
     _GetSelectedMediaOrdered st = inl DataMissing).
Proof.
  split; cycle 1.
  { intros (m & Hm & Hnot). unfold _GetSelectedMediaOrdered.
    unfold bind at 1. unfold get at 1. unfold bind at 1.
    rewrite map_M_keys_missing; [done|].
    exists m. split; [by apply elem_of_elements|done]. }
  intros Hsub. unfold _GetSelectedMediaOrdered.
  destruct (map_M_keys (_sorted_media st) (elements (_selected_media st)) st)
    as (keyed & Hrun & Hsnd & Hkeys).
  { intros m Hm. apply Hsub. by apply elem_of_elements. }
  set (L := merge_sort key_le keyed).
  exists L.*2. split.
  { unfold bind at 1. unfold get at 1. unfold bind at 1. by rewrite Hrun. }
  assert (L ≡ₚ keyed) as Hperm by apply merge_sort_Permutation.
  split; [by rewrite Hperm, Hsnd|].
  assert (StronglySorted key_le L) as Hsorted
    by (apply StronglySorted_merge_sort; apply _).
  assert (NoDup L.*2) as Hnd by (rewrite Hperm, Hsnd; apply NoDup_elements).
  intros i j x y Hi Hj Hij.
  apply list_lookup_fmap_Some in Hi as ([kx x'] & -> & Hi).
  apply list_lookup_fmap_Some in Hj as ([ky y'] & -> & Hj). simpl.
  assert (list_index x' (_sorted_media st) = Some kx) as Hkx.
  { apply Hkeys. rewrite <- Hperm. by eapply list_elem_of_lookup_2. }
  assert (list_index y' (_sorted_media st) = Some ky) as Hky.
  { apply Hkeys. rewrite <- Hperm. by eapply list_elem_of_lookup_2. }
  exists kx, ky. split_and!; [done..|].
  assert (kx ≤ ky)%nat as Hle.
  { pose proof Hi as Hi'.
    apply list_elem_of_split_length in Hi' as (l1 & l2 & HL & Hlen).
    rewrite HL in Hsorted. apply StronglySorted_app_1_r in Hsorted.
    apply StronglySorted_cons in Hsorted as [Hall _].
    rewrite HL in Hj. rewrite lookup_app_r in Hj by lia.
    destruct (j - length l1)%nat as [|k] eqn:Hk; [lia|]. simpl in Hj.
    rewrite Forall_forall in Hall. apply (Hall (ky, y')).
    by eapply list_elem_of_lookup_2. }
  destruct (decide (kx = ky)) as [->|]; [|lia]. exfalso.
  assert (x' = y') as ->.
  { apply list_index_Some in Hkx, Hky. congruence. }
  assert (i = j); [|lia].
  eapply NoDup_lookup; [exact Hnd| |]; rewrite list_lookup_fmap.
  - by rewrite Hi.
  - by rewrite Hj.
Qed.

Lemma mouse_event_step_count e st st' started :
  0 ≤ _drag_prefire_event_count st →
  mouse_event_step e st = (st', started) →
  0 ≤ _drag_prefire_event_count st'
  ∧ _drag_prefire_event_count st' ≤
      _drag_prefire_event_count st + (if is_left_move e then 1 else 0)
  ∧ (started = true → 10 ≤ _drag_prefire_event_count st').
Proof.
  intros Hpos. destruct e as [pos now|ev]; simpl.
  { intros [= <- <-]. simpl. split_and!; [lia..|done]. }
  unfold mouseMoveEvent.
  destruct (left_button ev); [|intros [= <- <-]; simpl; split_and!; [lia..|done]].
  destruct (_drag_init_coordinates st) as [old|];
    [|intros [= <- <-]; split_and!; [lia..|done]].
  simpl. case_bool_decide; simpl.
  all: case_bool_decide; simpl.
  all: repeat match goal with
         | |- context [TimeHasPassedMS ?e ?x] => destruct (TimeHasPassedMS e x)
         end.
  all: intros [= <- <-]; simpl in *.
  all: split_and!; [lia..|intros ?; first [done|lia]].
Qed.

(** X23. A drag needs ten moves with the button held: in a run of mouse events
    that begins with the prefire count at zero, an event that starts a drag
    has at least ten moves with the left button held among the events up to
    and including it. *)
Theorem drag_needs_ten_moves evs st k :
  _drag_prefire_event_count st = 0 →
  (mouse_events evs st).2 !! k = Some true →
  (10 ≤ length (filter (λ e, is_left_move e = true) (take (S k) evs)))%nat.
Proof.
  intros Hzero Hk.
  cut (0 ≤ _drag_prefire_event_count st →
       10 ≤ _drag_prefire_event_count st
            + Z.of_nat (length (filter (λ e, is_left_move e = true) (take (S k) evs)))).
  { lia. }
  clear Hzero. revert st k Hk. induction evs as [|e evs IH]; intros st k; simpl.
  { by rewrite lookup_nil. }
  destruct (mouse_event_step e st) as [st1 started] eqn:Hstep.
  destruct (mouse_events evs st1) as [st2 rest] eqn:Hrest. simpl.
  intros Hk Hpos.
  apply mouse_event_step_count in Hstep as (Hpos1 & Hcount & Hstarted); [|done].
  rewrite filter_cons. destruct k as [|k]; simpl in Hk.
  - injection Hk as ->. specialize (Hstarted eq_refl).
    destruct (is_left_move e); case_decide; simpl; try done; lia.
  - specialize (IH st1 k). rewrite Hrest in IH. specialize (IH Hk Hpos1).
    simpl in IH.
    destruct (is_left_move e); case_decide; simpl; try done; lia.
Qed.

Lemma drag_needs_ten_moves_witness :
  _drag_prefire_event_count new_drag_state = 0
  ∧ (mouse_events example_drag new_drag_state).2 !! 10%nat = Some true
  ∧ (10 ≤ length (filter (λ e, is_left_move e = true) (take 11 example_drag)))%nat.
Proof.
  refine (conj eq_refl (conj eq_refl _)).
  exact (drag_needs_ten_moves example_drag new_drag_state 10 eq_refl eq_refl).
Defined.

(** X24. No drag without a press: while the panel has seen no press since the
    button was last up, a run of mouse moves starts no drag and leaves the
    drag coordinates unset. *)
Theorem moves_without_press_start_no_drag evs st :
  _drag_init_coordinates st = None →
  Forall (λ e, is_move e = true) evs →
  _drag_init_coordinates (mouse_events evs st).1 = None
  ∧ Forall (λ started, started = false) (mouse_events evs st).2.
Proof.
  intros Hnone Hmoves. revert st Hnone.
  induction Hmoves as [|e evs He _ IH]; intros st Hnone; simpl; [done|].
  destruct e as [|ev]; [done|]. simpl.
  assert (∃ st1, mouseMoveEvent ev st = (st1, false)
                 ∧ _drag_init_coordinates st1 = None) as (st1 & -> & Hst1).
  { unfold mouseMoveEvent. rewrite Hnone. destruct (left_button ev); eauto. }
  specialize (IH st1 Hst1). destruct (mouse_events evs st1) as [st2 rest].
  simpl in *. destruct IH as [? ?]. split; [done|by constructor].
Qed.

Lemma moves_without_press_start_no_drag_witness :
  _drag_init_coordinates new_drag_state = None
  ∧ Forall (λ e, is_move e = true) (tail example_drag)
  ∧ _drag_init_coordinates (mouse_events (tail example_drag) new_drag_state).1 = None
  ∧ Forall (λ started, started = false)
           (mouse_events (tail example_drag) new_drag_state).2.
Proof.
  assert (Forall (λ e, is_move e = true) (tail example_drag)) as Hmoves.
  { by repeat constructor. }
  refine (conj eq_refl (conj Hmoves _)).
  exact (moves_without_press_start_no_drag (tail example_drag) new_drag_state
           eq_refl Hmoves).
Defined.

(** * The properties above on the example panel *)

Lemma example_selected_columns : 1 ≤ _num_columns example_selected.
Proof. by vm_compute. Qed.

Lemma example_selected_index :
  list_index 13%nat (_sorted_media example_selected) = Some 3%nat.
Proof. vm_compute. reflexivity. Qed.

Lemma example_selected_last_hit : _last_hit_media example_selected = Some 13%nat.
Proof. vm_compute. reflexivity. Qed.

Lemma geom_ok_set_clock k st : geom_ok st → geom_ok (set_clock k st).
Proof. by intros [? ?]. Qed.

Lemma example_fading_geom : geom_ok example_fading.
Proof. unfold example_fading. apply geom_ok_set_clock, example_selected_geom. Qed.

Lemma example_selected_in_sequence :
  ∀ m, m ∈ _selected_media example_selected → m ∈ _sorted_media example_selected.
Proof.
  intros m. rewrite (panel_selection _ example_selected_ok).
  unfold flagged_in_sequence. rewrite elem_of_list_to_set, list_elem_of_filter.
  by intros [_ ?].
Qed.

Lemma example_filter_in_sequence :
  ∀ m, m ∈ ({[10; 11]}%nat : gset media) → m ∈ _sorted_media example_selected.
Proof.
  intros m Hm. apply example_item_in_sequence, bool_decide_eq_true.
  set_solver.
Qed.

Lemma example_selected_ensured :
  ∀ page_index, page_index ∈ ensured_pages example_env example_selected →
                is_Some (_clean_canvas_pages example_selected !! page_index).
Proof.
  assert (ensured_pages example_env example_selected = [0; 1; 2; 3]) as ->
    by (vm_compute; reflexivity).
  intros p Hp. repeat (apply elem_of_cons in Hp as [->|Hp]);
    [eexists; vm_compute; reflexivity..|by apply elem_of_nil in Hp].
Qed.

Lemma example_fading_pending :
  _hashes_to_thumbnails_waiting_to_be_drawn example_fading !! 13%N = Some example_entry.
Proof. vm_compute. reflexivity. Qed.

Lemma example_fading_painters :
  ∀ p c, ({[1 := 1%nat]} : gmap Z canvas) !! p = Some c →
         _clean_canvas_pages example_fading !! p = Some c.
Proof. intros p c [<- <-]%lookup_singleton_Some. vm_compute. reflexivity. Qed.

Lemma example_selected_whitespace :
  _GetThumbnailUnderMouse example_env 75 125 example_selected
  = inr (None, example_selected).
Proof. vm_compute. reflexivity. Qed.

Lemma example_entry_fade_ok : fade_ok example_entry.
Proof. unfold fade_ok. simpl. split; [lia|]. split; [done|lia]. Qed.

Lemma example_fading_frames :
  0 ≤ frames_since example_env example_fading example_animation.
Proof. by vm_compute. Qed.

Lemma hit_test_finds_media_witness :
  1 ≤ _num_columns example_selected
  ∧ 0 ≤ thumbnail_margin example_env
  ∧ list_index 13%nat (_sorted_media example_selected) = Some 3%nat
  ∧ 10 ≤ (thumbnail_span example_env).1 - 2 * thumbnail_margin example_env
  ∧ 10 ≤ (thumbnail_span example_env).2 - 2 * thumbnail_margin example_env
  ∧ ∃ x y, _GetMediaCoordinates example_env 13%nat example_selected
           = inr ((x, y), example_selected)
           ∧ _GetThumbnailUnderMouse example_env (x + 10) (y + 10) example_selected
             = inr (Some 13%nat, example_selected).
Proof.
  assert (0 ≤ thumbnail_margin example_env) as Hm by (by vm_compute).
  assert (10 ≤ (thumbnail_span example_env).1 - 2 * thumbnail_margin example_env)
    as Hw by (by vm_compute).
  assert (10 ≤ (thumbnail_span example_env).2 - 2 * thumbnail_margin example_env)
    as Hh by (by vm_compute).
  refine (conj example_selected_columns (conj Hm (conj example_selected_index
            (conj Hw (conj Hh _))))).
  exact (hit_test_finds_media example_env example_selected 13%nat 3%nat 10 10
           example_selected_columns Hm example_selected_index
           eq_refl Hw eq_refl eq_refl Hh eq_refl).
Defined.

Lemma page_thumbnails_partition_witness :
  geom_ok example_selected ∧ 0 ≤ 1
  ∧ ∃ l, _GetThumbnailsFromPageIndex 1 example_selected = inr (l, example_selected)
         ∧ Sorted Z.lt l.*1
         ∧ ∀ i m, (i, m) ∈ l ↔
                  0 ≤ i ∧ _sorted_media example_selected !! Z.to_nat i = Some m
                  ∧ _GetPageIndexFromThumbnailIndex i example_selected
                    = inr (1, example_selected).
Proof.
  assert (0 ≤ 1) as H01 by lia.
  refine (conj example_selected_geom (conj H01 _)).
  exact (page_thumbnails_partition example_selected 1 example_selected_geom H01).
Defined.

Lemma visible_pages_cover_viewport_witness :
  env_ok example_env ∧ geom_ok example_selected
  ∧ ∃ l, _CalculateVisiblePageIndices example_env example_selected
         = inr (l, example_selected)
         ∧ l ≠ []
         ∧ Sorted Z.lt l
         ∧ ∀ page_index,
             page_index ∈ l ↔
             0 ≤ page_index
             ∧ ∃ y, _GetYStart example_env ≤ y
                      ≤ _GetYStart example_env + visible_rect_height example_env
                    ∧ y / (_num_rows_per_canvas_page example_selected
                           * (thumbnail_span example_env).2)
                      = page_index.
Proof.
  refine (conj example_env_ok (conj example_selected_geom _)).
  exact (visible_pages_cover_viewport example_env example_selected
           example_env_ok example_selected_geom).
Defined.

Lemma virtual_size_fits_grid_witness :
  1 ≤ _num_columns example_selected
  ∧ 0 < (thumbnail_span example_env).2 ∧ 0 < yUnit example_env
  ∧ 0 < visible_rect_width example_env ∧ 0 < visible_rect_height example_env
  ∧ ∃ virtual_height,
      recalculated_virtual_size example_env example_selected
        = inr (Some (visible_rect_width example_env, virtual_height), example_selected)
      ∧ visible_rect_height example_env ≤ virtual_height
      ∧ (∀ i m, _sorted_media example_selected !! i = Some m →
                (Z.of_nat i / _num_columns example_selected + 1)
                  * (thumbnail_span example_env).2 ≤ virtual_height)
      ∧ (virtual_height = visible_rect_height example_env
         ∨ virtual_height mod yUnit example_env = 0).
Proof.
  refine (conj example_selected_columns
            (conj eq_refl (conj eq_refl (conj eq_refl (conj eq_refl _))))).
  exact (proj2 (virtual_size_fits_grid example_env example_selected
                  example_selected_columns eq_refl eq_refl) eq_refl eq_refl).
Defined.

Lemma dirty_all_pages_keeps_buffers_witness :
  geom_ok example_selected
  ∧ (∀ i c, _clean_canvas_pages example_selected !! i = Some c → 0 ≤ i)
  ∧ ∃ st', _DirtyAllPages example_selected = inr (tt, st')
           ∧ all_pages_dirtied example_selected st'
           ∧ pool st' ≡ₚ pool example_selected
           ∧ RedrawAllThumbnails example_selected = inr (tt, st')
           ∧ _NotifyThumbnailsHaveMoved example_selected = inr (tt, st')
           ∧ _UpdateBackgroundColour example_selected
             = inr (tt, set_dirty_canvas_pages []
                          (set_clean_canvas_pages ∅ example_selected)).
Proof.
  refine (conj example_selected_geom (conj example_selected_nonneg _)).
  exact (dirty_all_pages_keeps_buffers example_selected
           example_selected_geom example_selected_nonneg).
Defined.

Lemma maintenance_frees_buffers_witness :
  geom_ok example_selected
  ∧ (∀ i c, _clean_canvas_pages example_selected !! i = Some c → 0 ≤ i)
  ∧ MaintainPageCache example_env_hidden example_selected
    = inr (tt, if IsCurrentPage example_env_hidden
               then set_dirty_canvas_pages [] example_selected
               else set_dirty_canvas_pages []
                      (set_clean_canvas_pages ∅ example_selected)).
Proof.
  refine (conj example_selected_geom (conj example_selected_nonneg _)).
  exact (maintenance_frees_buffers example_env_hidden example_selected
           example_selected_geom example_selected_nonneg).
Defined.

Lemma thumbnails_reset_clears_fades_witness :
  (thumbnail_span example_env).1 ≠ 0 ∧ (thumbnail_span example_env).2 ≠ 0
  ∧ yUnit example_env ≠ 0
  ∧ (∀ i c, _clean_canvas_pages example_selected !! i = Some c → 0 ≤ i)
  ∧ ∃ st', ThumbnailsReset example_env example_selected = inr (tt, st')
           ∧ _hashes_to_thumbnails_waiting_to_be_drawn st' = ∅
           ∧ _hashes_faded st' = ∅
           ∧ _clean_canvas_pages st' = ∅
           ∧ _num_columns st'
             = Z.max 1 (visible_rect_width example_env / (thumbnail_span example_env).1)
           ∧ _num_rows_per_canvas_page st'
             = Z.max 1 (visible_rect_height example_env
                        / (thumbnail_span example_env).2 / 2)
           ∧ selection st' = selection example_selected
           ∧ painted st' = painted example_selected.
Proof.
  assert ((thumbnail_span example_env).1 ≠ 0) as Hw by (by vm_compute).
  assert ((thumbnail_span example_env).2 ≠ 0) as Hh by (by vm_compute).
  assert (yUnit example_env ≠ 0) as Hu by (by vm_compute).
  refine (conj Hw (conj Hh (conj Hu (conj example_selected_nonneg _)))).
  exact (thumbnails_reset_clears_fades example_env example_selected
           Hw Hh Hu example_selected_nonneg).
Defined.

Lemma repaint_renders_nothing_witness :
  env_ok example_env ∧ geom_ok example_selected
  ∧ Qeq_bool (device_pixel_ratio example_env)
             (_last_device_pixel_ratio example_selected) = true
  ∧ (∀ page_index, page_index ∈ ensured_pages example_env example_selected →
                   is_Some (_clean_canvas_pages example_selected !! page_index))
  ∧ ∃ visible,
      _CalculateVisiblePageIndices example_env example_selected
        = inr (visible, example_selected)
      ∧ paintEvent example_env example_selected
        = inr (tt, set_painted
                     (painted example_selected
                      ++ omap (shows_page example_env example_selected) visible)
                     example_selected)
      ∧ length (omap (shows_page example_env example_selected) visible)
        = length visible.
Proof.
  assert (Qeq_bool (device_pixel_ratio example_env)
                   (_last_device_pixel_ratio example_selected) = true) as Hdpr
    by (vm_compute; reflexivity).
  refine (conj example_env_ok (conj example_selected_geom
            (conj Hdpr (conj example_selected_ensured _)))).
  exact (repaint_renders_nothing example_env example_selected
           example_env_ok example_selected_geom Hdpr example_selected_ensured).
Defined.

Lemma fade_draws_within_budget_witness :
  animated example_entry = Some example_animation ∧ fade_ok example_entry
  ∧ 0 ≤ frames_since example_env example_fading example_animation
  ∧ ∃ o' a',
      animated o' = Some a' ∧ fade_ok o'
      ∧ entry_hash o' = entry_hash example_entry
      ∧ thumbnail o' = thumbnail example_entry
      ∧ thumbnail_index o' = thumbnail_index example_entry
      ∧ num_frames_to_draw a' = num_frames_to_draw example_animation
      ∧ num_frames_drawn a'
        = Z.min (num_frames_to_draw example_animation)
                (num_frames_drawn example_animation
                 + frames_since example_env example_fading example_animation)
      ∧ DrawToPainter example_env example_entry 2 2 None example_fading
        = inr (o', set_painted
                     (painted example_fading ++
                      if DrawComplete o'
                      then [DrawImage None 2 2 (Bitmap (entry_hash example_entry))]
                      else replicate
                             (Z.to_nat (num_frames_drawn a'
                                        - num_frames_drawn example_animation))
                             (DrawImage None 2 2
                                (AlphaBitmap (entry_hash example_entry))))
                     (set_clock (S (clock example_fading)) example_fading)).
Proof.
  refine (conj eq_refl (conj example_entry_fade_ok (conj example_fading_frames _))).
  exact (fade_draws_within_budget example_env example_entry example_animation 2 2 None
           example_fading
           eq_refl example_entry_fade_ok example_fading_frames).
Defined.

Lemma hidden_page_starts_no_fade_witness :
  geom_ok example_selected
  ∧ (∀ i c, _clean_canvas_pages example_selected !! i = Some c → 0 ≤ i)
  ∧ IsCurrentPage example_env_hidden = false
  ∧ ∃ st', WaterfallThumbnails example_env_hidden [10%nat] example_selected
           = inr (tt, st')
           ∧ all_pages_dirtied example_selected st'.
Proof.
  refine (conj example_selected_geom (conj example_selected_nonneg (conj eq_refl _))).
  refine (proj2 (hidden_page_starts_no_fade example_env_hidden [10%nat] example_selected
                   example_selected_geom example_selected_nonneg) eq_refl _).
  discriminate.
Defined.

Lemma due_entry_is_drawn_witness :
  geom_ok example_fading
  ∧ _hashes_to_thumbnails_waiting_to_be_drawn example_fading !! 13%N = Some example_entry
  ∧ _sorted_media example_fading !! thumbnail_index example_entry
    = Some (thumbnail example_entry)
  ∧ _clean_canvas_pages example_fading
      !! page_of example_fading (thumbnail_index example_entry) = Some 1%nat
  ∧ (∀ p c, ({[1 := 1%nat]} : gmap Z canvas) !! p = Some c →
            _clean_canvas_pages example_fading !! p = Some c)
  ∧ due_at example_env example_fading example_entry = true
  ∧ ∃ r st' o' st2,
      animation_step example_env 1 13%N {[1 := 1%nat]} example_fading = inr (r, st')
      ∧ DrawToPainter example_env example_entry
          (Z.of_nat (thumbnail_index example_entry) mod _num_columns example_fading
             * (thumbnail_span example_env).1 + thumbnail_margin example_env)
          ((Z.of_nat (thumbnail_index example_entry) / _num_columns example_fading
            - page_of example_fading (thumbnail_index example_entry)
              * _num_rows_per_canvas_page example_fading)
             * (thumbnail_span example_env).2 + thumbnail_margin example_env)
          (Some 1%nat)
          (set_clock (S (clock example_fading)) example_fading) = inr (o', st2)
      ∧ painted st' = painted st2
      ∧ _hashes_to_thumbnails_waiting_to_be_drawn st'
        = (if DrawComplete o'
           then delete 13%N (_hashes_to_thumbnails_waiting_to_be_drawn example_fading)
           else <[13%N := o']>
                  (_hashes_to_thumbnails_waiting_to_be_drawn example_fading))
      ∧ fades_only example_fading st'.
Proof.
  assert (_sorted_media example_fading !! thumbnail_index example_entry
          = Some (thumbnail example_entry)) as Hheld by (vm_compute; reflexivity).
  assert (_clean_canvas_pages example_fading
            !! page_of example_fading (thumbnail_index example_entry) = Some 1%nat)
    as Hpage by (vm_compute; reflexivity).
  assert (due_at example_env example_fading example_entry = true) as Hdue
    by (vm_compute; reflexivity).
  refine (conj example_fading_geom (conj example_fading_pending (conj Hheld
            (conj Hpage (conj example_fading_painters (conj Hdue _)))))).
  exact (due_entry_is_drawn example_env 1 13%N {[1 := 1%nat]} example_fading
           example_entry 1%nat example_fading_geom example_fading_pending Hheld Hpage
           example_fading_painters Hdue).
Defined.

Lemma tick_only_fades_witness :
  env_ok example_env ∧ geom_ok example_fading
  ∧ ∃ st', TIMERAnimationUpdate example_env example_fading = inr (tt, st')
           ∧ selection st' = selection example_fading
           ∧ layout st' = layout example_fading
           ∧ pools st' = pools example_fading.
Proof.
  refine (conj example_env_ok (conj example_fading_geom _)).
  destruct (tick_only_fades example_env example_fading example_env_ok
              example_fading_geom) as (st' & Hrun & Hsel & Hlay & Hpools & _).
  exact (ex_intro _ st' (conj Hrun (conj Hsel (conj Hlay Hpools)))).
Defined.

Lemma home_and_end_keys_witness :
  panel_ok example_selected
  ∧ head (_sorted_media example_selected) = Some 10%nat
  ∧ last (_sorted_media example_selected) = Some 14%nat
  ∧ (∃ st', _ScrollHome example_env false example_selected = inr (tt, st')
            ∧ plainly_hit example_selected 10%nat st' ∧ panel_ok st')
  ∧ (∃ st', _ScrollEnd example_env false example_selected = inr (tt, st')
            ∧ plainly_hit example_selected 14%nat st' ∧ panel_ok st').
Proof.
  assert (head (_sorted_media example_selected) = Some 10%nat) as Hhead
    by (vm_compute; reflexivity).
  assert (last (_sorted_media example_selected) = Some 14%nat) as Hlast
    by (vm_compute; reflexivity).
  refine (conj example_selected_ok (conj Hhead (conj Hlast _))).
  exact (conj
           (proj1 (proj2 (home_and_end_keys example_env example_selected
                            example_selected_ok)) 10%nat Hhead)
           (proj2 (proj2 (home_and_end_keys example_env example_selected
                            example_selected_ok)) 14%nat Hlast)).
Defined.

Lemma arrow_keys_move_focus_witness :
  panel_ok example_selected
  ∧ _last_hit_media example_selected = Some 13%nat
  ∧ list_index 13%nat (_sorted_media example_selected) = Some 3%nat
  ∧ ∃ st' new_media,
      _MoveThumbnailFocus example_env 0 1 false example_selected = inr (tt, st')
      ∧ _sorted_media example_selected
          !! Z.to_nat (clamp_position (length (_sorted_media example_selected))
                         (Z.of_nat 3 + 1 + _num_columns example_selected * 0))
        = Some new_media
      ∧ plainly_hit example_selected new_media st' ∧ panel_ok st'.
Proof.
  refine (conj example_selected_ok (conj example_selected_last_hit
            (conj example_selected_index _))).
  exact (proj1 (arrow_keys_move_focus example_env 0 1 example_selected
                  example_selected_ok)
           13%nat 3%nat example_selected_last_hit example_selected_index).
Defined.

Lemma ctrl_click_toggles_witness :
  panel_ok example_selected ∧ 12%nat ∈ _sorted_media example_selected
  ∧ ∃ st', _HitMedia example_env (Some 12%nat) true false example_selected
           = inr (tt, st')
           ∧ _sorted_media st' = _sorted_media example_selected
           ∧ _selected_media st'
             = (if is_selected example_selected 12%nat
                then _selected_media example_selected ∖ {[12%nat]}
                else _selected_media example_selected ∪ {[12%nat]})
           ∧ (∀ x, is_selected st' x
                   = if decide (x = 12%nat)
                     then negb (is_selected example_selected 12%nat)
                     else is_selected example_selected x)
           ∧ _shift_select_started_with_this_media st'
             = (if is_selected example_selected 12%nat then None else Some 12%nat)
           ∧ _media_added_in_current_shift_select st' = ∅
           ∧ (is_selected example_selected 12%nat = true →
              _focused_media example_selected = Some 12%nat →
              _focused_media st' = None)
           ∧ (_focused_media example_selected ≠ Some 12%nat →
              focus_preview_on_ctrl_click example_env = false →
              _focused_media st' = _focused_media example_selected).
Proof.
  refine (conj example_selected_ok (conj (example_item_in_sequence 12 eq_refl) _)).
  exact (ctrl_click_toggles example_env 12%nat example_selected
           example_selected_ok (example_item_in_sequence 12 eq_refl)).
Defined.

Lemma whitespace_click_deselects_all_witness :
  panel_ok example_selected
  ∧ (∃ st', _HitMedia example_env None false false example_selected = inr (tt, st')
            ∧ _sorted_media st' = _sorted_media example_selected
            ∧ _selected_media st' = ∅
            ∧ (∀ x, x ∈ _sorted_media example_selected → is_selected st' x = false)
            ∧ _focused_media st' = None
            ∧ _shift_select_started_with_this_media st' = None
            ∧ _media_added_in_current_shift_select st' = ∅)
  ∧ _GetThumbnailUnderMouse example_env 75 125 example_selected
    = inr (None, example_selected)
  ∧ InnerWidget_mousePressEvent example_env (400, 300) 1000 75 125 true false false
      (example_selected, new_drag_state)
    = inr (tt, (example_selected,
                {| _drag_init_coordinates := Some (400, 300);
                   _drag_click_timestamp_ms := 1000;
                   _drag_prefire_event_count :=
                     _drag_prefire_event_count new_drag_state |})).
Proof.
  refine (conj example_selected_ok _).
  refine (conj (proj1 (whitespace_click_deselects_all example_env example_selected
                         example_selected_ok)) _).
  refine (conj example_selected_whitespace _).
  exact (proj2 (proj2 (whitespace_click_deselects_all example_env example_selected
                         example_selected_ok))
           (400, 300) 1000 75 125 false false new_drag_state
           example_selected_whitespace).
Defined.

Lemma select_by_filter_is_exact_witness :
  panel_ok example_selected
  ∧ (∀ m, m ∈ ({[10; 11]}%nat : gset media) → m ∈ _sorted_media example_selected)
  ∧ ∃ st', _Select example_env {[10; 11]}%nat example_selected = inr (tt, st')
           ∧ _selected_media st' = {[10; 11]}%nat
           ∧ (∀ x, x ∈ _sorted_media example_selected →
                   is_selected st' x
                   = bool_decide (x ∈ ({[10; 11]}%nat : gset media)))
           ∧ _sorted_media st' = _sorted_media example_selected
           ∧ layout st' = layout example_selected
           ∧ panel_ok st'.
Proof.
  refine (conj example_selected_ok (conj example_filter_in_sequence _)).
  exact (select_by_filter_is_exact example_env {[10; 11]}%nat example_selected
           example_selected_ok example_filter_in_sequence).
Defined.

Lemma removal_dirties_every_page_witness :
  panel_ok example_selected ∧ yUnit example_env ≠ 0
  ∧ ∃ st', _RemoveMediaDirectly example_env {[11%nat]} ∅ example_selected
           = inr (tt, st')
           ∧ _shift_select_started_with_this_media st' = None
           ∧ _media_added_in_current_shift_select st' = ∅
           ∧ _clean_canvas_pages st' = ∅
           ∧ (∃ buffers,
                buffers ≡ₚ (map_to_list (_clean_canvas_pages example_selected)).*2
                ∧ _dirty_canvas_pages st'
                  = _dirty_canvas_pages example_selected ++ buffers)
           ∧ _hashes_to_thumbnails_waiting_to_be_drawn st'
             = _hashes_to_thumbnails_waiting_to_be_drawn example_selected
           ∧ _hashes_faded st' = _hashes_faded example_selected.
Proof.
  assert (yUnit example_env ≠ 0) as Hu by (by vm_compute).
  refine (conj example_selected_ok (conj Hu _)).
  destruct (removal_dirties_every_page example_env {[11%nat]} ∅ example_selected
              example_selected_ok Hu) as (st' & Hrun & _ & Hrest).
  exact (ex_intro _ st' (conj Hrun Hrest)).
Defined.

Lemma selected_media_in_sequence_order_witness :
  (∀ m, m ∈ _selected_media example_selected → m ∈ _sorted_media example_selected)
  ∧ ∃ l, _GetSelectedMediaOrdered example_selected = inr (l, example_selected)
         ∧ l ≡ₚ elements (_selected_media example_selected)
         ∧ ∀ i j x y, l !! i = Some x → l !! j = Some y → (i < j)%nat →
                      ∃ kx ky,
                        list_index x (_sorted_media example_selected) = Some kx
                        ∧ list_index y (_sorted_media example_selected) = Some ky
                        ∧ (kx < ky)%nat.
Proof.
  refine (conj example_selected_in_sequence _).
  exact (proj1 (selected_media_in_sequence_order example_selected)
           example_selected_in_sequence).
Defined.
